(** * launchd: a shallow embedding of the supervisor core and of launchctl's
      ingestion filters, with the properties of the specification.

    Sources embedded: [launchd/src/launchd.c] (job registry, starting and
    reaping, restart decision, calendar alarms, control-plane dispatcher)
    and [launchd/src/launchctl.c] (path filter, reading of job files,
    two-pass routing, resource limit names).

    Layout: the typed value tree ([LaunchData]), the ingestion filters
    ([Launchctl]), the calendar arithmetic and the cron emulation ([Cron]),
    the supervisor ([Launchd]); definitions first, theorems after them. *)

From Stdlib Require Import ZArith List String Ascii Bool Lia DecimalString.
Import ListNotations.
Open Scope string_scope.
Open Scope list_scope.
Open Scope Z_scope.
Set Warnings "-register-all".

(* ===================================================================== *)
(** ** The typed value tree (launch_data_t)                              *)
(* ===================================================================== *)

Module LaunchData.

(** The ten variants of launch_data_t, in the order of the wire tags.  A
    dictionary is an association list: iteration order is insertion order
    and the dispatcher depends on it.  A real is kept as its bit pattern. *)
Inductive launch_data : Type :=
| LD_DICTIONARY (kv : list (string * launch_data))
| LD_ARRAY (a : list launch_data)
| LD_FD (fd : Z)
| LD_INTEGER (n : Z)
| LD_REAL (bits : Z)
| LD_BOOL (b : bool)
| LD_STRING (s : string)
| LD_OPAQUE (o : list Z)
| LD_ERRNO (e : Z)
| LD_MACHPORT (p : Z).

Inductive launch_data_type_t : Type :=
| LAUNCH_DATA_DICTIONARY | LAUNCH_DATA_ARRAY | LAUNCH_DATA_FD
| LAUNCH_DATA_INTEGER | LAUNCH_DATA_REAL | LAUNCH_DATA_BOOL
| LAUNCH_DATA_STRING | LAUNCH_DATA_OPAQUE | LAUNCH_DATA_ERRNO
| LAUNCH_DATA_MACHPORT.

Definition launch_data_get_type (d : launch_data) : launch_data_type_t :=
  match d with
  | LD_DICTIONARY _ => LAUNCH_DATA_DICTIONARY
  | LD_ARRAY _ => LAUNCH_DATA_ARRAY
  | LD_FD _ => LAUNCH_DATA_FD
  | LD_INTEGER _ => LAUNCH_DATA_INTEGER
  | LD_REAL _ => LAUNCH_DATA_REAL
  | LD_BOOL _ => LAUNCH_DATA_BOOL
  | LD_STRING _ => LAUNCH_DATA_STRING
  | LD_OPAQUE _ => LAUNCH_DATA_OPAQUE
  | LD_ERRNO _ => LAUNCH_DATA_ERRNO
  | LD_MACHPORT _ => LAUNCH_DATA_MACHPORT
  end.

(** Modelled from the spec: the accessors of liblaunch (launch.h,
    liblaunch.c) are not among the sources.  Section 4.A gives the
    operations: dictionary lookup, insert that replaces an existing key in
    place and appends a new one, stable iteration, array get, deep copy.
    A pointer-valued accessor applied to another variant yields NULL
    ([None]); a scalar accessor applied to another variant yields the zero
    of its type. *)
Fixpoint assoc_lookup (kv : list (string * launch_data)) (key : string)
  : option launch_data :=
  match kv with
  | [] => None
  | (k, v) :: rest => if String.eqb k key then Some v else assoc_lookup rest key
  end.

Definition launch_data_dict_lookup (d : launch_data) (key : string)
  : option launch_data :=
  match d with
  | LD_DICTIONARY kv => assoc_lookup kv key
  | _ => None
  end.

Fixpoint assoc_insert (kv : list (string * launch_data)) (v : launch_data)
  (key : string) : list (string * launch_data) :=
  match kv with
  | [] => [(key, v)]
  | (k, x) :: rest =>
      if String.eqb k key then (k, v) :: rest
      else (k, x) :: assoc_insert rest v key
  end.

Definition launch_data_dict_insert (d v : launch_data) (key : string)
  : launch_data :=
  match d with
  | LD_DICTIONARY kv => LD_DICTIONARY (assoc_insert kv v key)
  | _ => d
  end.

Definition launch_data_get_string (d : launch_data) : option string :=
  match d with LD_STRING s => Some s | _ => None end.

Definition launch_data_get_bool (d : launch_data) : bool :=
  match d with LD_BOOL b => b | _ => false end.

Definition launch_data_get_integer (d : launch_data) : Z :=
  match d with LD_INTEGER n => n | _ => 0 end.

Definition launch_data_array_get_count (d : launch_data) : nat :=
  match d with LD_ARRAY a => List.length a | _ => O end.

Definition launch_data_array_get_index (d : launch_data) (i : nat)
  : option launch_data :=
  match d with LD_ARRAY a => nth_error a i | _ => None end.

(** Deep copy duplicates the nodes and no descriptor: on immutable trees it
    is the identity. *)
Definition launch_data_copy (d : launch_data) : launch_data := d.

Definition launch_data_new_errno (e : Z) : launch_data := LD_ERRNO e.
Definition launch_data_new_integer (n : Z) : launch_data := LD_INTEGER n.
Definition launch_data_new_bool (b : bool) : launch_data := LD_BOOL b.

(** errno values of <sys/errno.h> used by the supervisor. *)
Definition ESRCH : Z := 3.
Definition EACCES : Z := 13.
Definition EEXIST : Z := 17.
Definition EINVAL : Z := 22.
Definition EAGAIN : Z := 35.
Definition ENOSYS : Z := 78.

(** An induction principle that reaches under dictionaries and arrays. *)
Definition is_leaf (d : launch_data) : bool :=
  match d with LD_DICTIONARY _ | LD_ARRAY _ => false | _ => true end.

Section LaunchDataInd.
Variable P : launch_data -> Prop.
Hypothesis Hdict :
  forall kv, Forall (fun e => P (snd e)) kv -> P (LD_DICTIONARY kv).
Hypothesis Harr : forall a, Forall P a -> P (LD_ARRAY a).
Hypothesis Hleaf : forall d, is_leaf d = true -> P d.

Fixpoint launch_data_deep_ind (d : launch_data) : P d :=
  match d with
  | LD_DICTIONARY kv =>
      Hdict kv
        ((fix go (l : list (string * launch_data))
            : Forall (fun e => P (snd e)) l :=
            match l with
            | [] => Forall_nil _
            | (k, v) :: t =>
                Forall_cons (k, v) (launch_data_deep_ind v) (go t)
            end) kv)
  | LD_ARRAY a =>
      Harr a
        ((fix go (l : list launch_data) : Forall P l :=
            match l with
            | [] => Forall_nil _
            | e :: t => Forall_cons e (launch_data_deep_ind e) (go t)
            end) a)
  | LD_FD fd => Hleaf (LD_FD fd) eq_refl
  | LD_INTEGER n => Hleaf (LD_INTEGER n) eq_refl
  | LD_REAL r => Hleaf (LD_REAL r) eq_refl
  | LD_BOOL b => Hleaf (LD_BOOL b) eq_refl
  | LD_STRING s => Hleaf (LD_STRING s) eq_refl
  | LD_OPAQUE o => Hleaf (LD_OPAQUE o) eq_refl
  | LD_ERRNO e => Hleaf (LD_ERRNO e) eq_refl
  | LD_MACHPORT p => Hleaf (LD_MACHPORT p) eq_refl
  end.
End LaunchDataInd.

End LaunchData.

(* ===================================================================== *)
(** ** launchctl.c: the ingestion filters                                *)
(* ===================================================================== *)

Module Launchctl.
Import LaunchData.

(** The key strings of launch.h (not among the sources). *)
Definition LAUNCH_JOBKEY_SOCKETS : string := "Sockets".
Definition LAUNCH_JOBSOCKETKEY_BONJOUR : string := "Bonjour".

(** [key && 0 == strcmp(key, LAUNCH_JOBSOCKETKEY_BONJOUR)] *)
Definition key_is_bonjour (key : option string) : bool :=
  match key with
  | Some k => String.eqb k LAUNCH_JOBSOCKETKEY_BONJOUR
  | None => false
  end.

(** delay_to_second_pass2 (launchctl.c:772).  The context pointer is the
    flag [res]: the function takes its current value and returns the value
    it leaves behind.  Dictionary iteration passes each key, array
    iteration passes NULL. *)
Fixpoint delay_to_second_pass2 (o : launch_data) (key : option string)
  (res : bool) : bool :=
  if key_is_bonjour key then true
  else
    match o with
    | LD_DICTIONARY kv =>
        (fix iterate (l : list (string * launch_data)) (res : bool) : bool :=
           match l with
           | [] => res
           | (k, v) :: t => iterate t (delay_to_second_pass2 v (Some k) res)
           end) kv res
    | LD_ARRAY a =>
        (fix loop (l : list launch_data) (res : bool) : bool :=
           match l with
           | [] => res
           | v :: t => loop t (delay_to_second_pass2 v None res)
           end) a res
    | _ => res
    end.

(** The two inner loops of delay_to_second_pass2, named. *)
Fixpoint dtsp_iterate (l : list (string * launch_data)) (res : bool) : bool :=
  match l with
  | [] => res
  | (k, v) :: t => dtsp_iterate t (delay_to_second_pass2 v (Some k) res)
  end.

Fixpoint dtsp_loop (l : list launch_data) (res : bool) : bool :=
  match l with
  | [] => res
  | v :: t => dtsp_loop t (delay_to_second_pass2 v None res)
  end.

(** delay_to_second_pass (launchctl.c:797) *)
Definition delay_to_second_pass (o : launch_data) : bool :=
  match launch_data_dict_lookup o LAUNCH_JOBKEY_SOCKETS with
  | None => false
  | Some socks => delay_to_second_pass2 socks None false
  end.

(** The tail of readfile (launchctl.c:1006): the two arrays of the load
    state, and the append to one of them. *)
Record load_unload_state : Type := {
  pass1 : list launch_data;
  pass2 : list launch_data
}.

Definition readfile_route (thejob : launch_data) (lus : load_unload_state)
  : load_unload_state :=
  if delay_to_second_pass thejob
  then {| pass1 := pass1 lus; pass2 := pass2 lus ++ [thejob] |}
  else {| pass1 := pass1 lus ++ [thejob]; pass2 := pass2 lus |}.

(** How the socket binder reads a Bonjour entry (sock_dict_edit_entry,
    launchctl.c:1318): present means rendezvous, except a boolean, which
    gives its own value. *)
Definition rendezvous_requested (entry : launch_data) : bool :=
  match launch_data_dict_lookup entry LAUNCH_JOBSOCKETKEY_BONJOUR with
  | Some (LD_BOOL b) => b
  | Some _ => true
  | None => false
  end.

(** The routing condition in the words of the specification: somewhere
    under the value there is a dictionary whose Bonjour entry is truthy. *)
Fixpoint spec_truthy_bonjour_within (o : launch_data) : bool :=
  match o with
  | LD_DICTIONARY kv =>
      rendezvous_requested o
      || (fix any (l : list (string * launch_data)) : bool :=
            match l with
            | [] => false
            | (_, v) :: t => spec_truthy_bonjour_within v || any t
            end) kv
  | LD_ARRAY a =>
      (fix any (l : list launch_data) : bool :=
         match l with
         | [] => false
         | v :: t => spec_truthy_bonjour_within v || any t
         end) a
  | _ => false
  end.

Definition spec_routes_to_pass2 (o : launch_data) : bool :=
  match launch_data_dict_lookup o LAUNCH_JOBKEY_SOCKETS with
  | None => false
  | Some socks => spec_truthy_bonjour_within socks
  end.

(** What the code looks for: a dictionary entry keyed Bonjour at any depth,
    whatever its value. *)
Inductive has_key_within (key : string) : launch_data -> Prop :=
| hk_here : forall kv v,
    In (key, v) kv -> has_key_within key (LD_DICTIONARY kv)
| hk_dict : forall kv k v,
    In (k, v) kv -> has_key_within key v ->
    has_key_within key (LD_DICTIONARY kv)
| hk_array : forall a v,
    In v a -> has_key_within key v -> has_key_within key (LD_ARRAY a).

(** *** path_goodness_check *)

(** The fields of struct stat that the check reads, and the mode bits of
    <sys/stat.h>. *)
Record stat_t : Type := { st_mode : Z; st_uid : Z }.

Definition S_IWGRP : Z := 16.      (* 0000020 *)
Definition S_IWOTH : Z := 2.       (* 0000002 *)
Definition S_IFMT : Z := 61440.    (* 0170000 *)
Definition S_IFDIR : Z := 16384.   (* 0040000 *)
Definition S_IFREG : Z := 32768.   (* 0100000 *)

Definition S_ISREG (m : Z) : bool := Z.land m S_IFMT =? S_IFREG.
Definition S_ISDIR (m : Z) : bool := Z.land m S_IFMT =? S_IFDIR.

Definition tolower (c : ascii) : ascii :=
  let n := nat_of_ascii c in
  if (Nat.leb 65 n && Nat.leb n 90)%bool then ascii_of_nat (n + 32) else c.

(** fnmatch(3) with FNM_CASEFOLD alone (neither FNM_PATHNAME nor
    FNM_PERIOD), for patterns of literals, '?' and '*': [true] is a match,
    [false] is FNM_NOMATCH. *)
Fixpoint fnmatch_casefold (pat s : string) : bool :=
  match pat with
  | EmptyString => match s with EmptyString => true | _ => false end
  | String "*"%char p =>
      (fix star (s : string) : bool :=
         fnmatch_casefold p s
         || match s with EmptyString => false | String _ s' => star s' end) s
  | String "?"%char p =>
      match s with String _ s' => fnmatch_casefold p s' | _ => false end
  | String c p =>
      match s with
      | String c' s' =>
          Ascii.eqb (tolower c) (tolower c') && fnmatch_casefold p s'
      | _ => false
      end
  end.

(** The loop that '*' runs over the rest of the name, by name. *)
Section Star.
Variable p : string.
Fixpoint fnmatch_star (s : string) : bool :=
  fnmatch_casefold p s
  || match s with EmptyString => false | String _ s' => fnmatch_star s' end.
End Star.

Fixpoint lower (s : string) : string :=
  match s with
  | EmptyString => EmptyString
  | String c s' => String (tolower c) (lower s')
  end.

(** path_goodness_check (launchctl.c:1063).  [stat_of] is stat(2) on the
    file system ([None]: the call fails), [getuid] the real user id; the
    diagnostics written to stderr are left out. *)
Definition path_goodness_check (stat_of : string -> option stat_t)
  (getuid : Z) (path : string) (forceload : bool) : bool :=
  match stat_of path with
  | None => false
  | Some sb =>
      if forceload then true
      else if negb (Z.land (st_mode sb) (Z.lor S_IWOTH S_IWGRP) =? 0) then false
      else if negb (st_uid sb =? 0) && negb (st_uid sb =? getuid) then false
      else if negb (S_ISREG (st_mode sb) || S_ISDIR (st_mode sb)) then false
      else if negb (S_ISDIR (st_mode sb))
              && negb (fnmatch_casefold "*.plist" path) then false
      else true
  end.

(** The acceptance condition in the words of the specification: force
    lifts the writability check only. *)
Definition spec_path_goodness (stat_of : string -> option stat_t)
  (getuid : Z) (path : string) (forceload : bool) : bool :=
  match stat_of path with
  | None => false
  | Some sb =>
      (forceload || (Z.land (st_mode sb) (Z.lor S_IWOTH S_IWGRP) =? 0))
      && ((st_uid sb =? 0) || (st_uid sb =? getuid))
      && (S_ISREG (st_mode sb) || S_ISDIR (st_mode sb))
      && (S_ISDIR (st_mode sb) || fnmatch_casefold "*.plist" path)
  end.


(** *** readfile and readpath *)

(** More key strings of launch.h and launch_priv.h, and the two slots of
    <sys/sysctl.h> that the Disabled dictionary is compared with. *)
Definition LAUNCH_JOBKEY_LABEL : string := "Label".
Definition LAUNCH_JOBKEY_PROGRAM : string := "Program".
Definition LAUNCH_JOBKEY_PROGRAMARGUMENTS : string := "ProgramArguments".
Definition LAUNCH_JOBKEY_DISABLED : string := "Disabled".
Definition LAUNCH_JOBKEY_LIMITLOADTOHOSTS : string := "LimitLoadToHosts".
Definition LAUNCH_JOBKEY_LIMITLOADFROMHOSTS : string := "LimitLoadFromHosts".
Definition LAUNCH_JOBKEY_LIMITLOADTOSESSIONTYPE : string :=
  "LimitLoadToSessionType".
Definition LAUNCH_JOBKEY_LIMITLOADTOHARDWARE : string :=
  "LimitLoadToHardware".
Definition LAUNCH_JOBKEY_LIMITLOADFROMHARDWARE : string :=
  "LimitLoadFromHardware".
Definition LAUNCH_JOBKEY_SECURITYSESSIONUUID : string :=
  "SecuritySessionUUID".
Definition LAUNCH_JOBKEY_DISABLED_MACHINETYPE : string := "MachineType".
Definition LAUNCH_JOBKEY_DISABLED_MODELNAME : string := "ModelName".
Definition HW_MACHINE : Z := 1.
Definition HW_MODEL : Z := 2.
Definition MAXPATHLEN : nat := 1024%nat.

(** The other fields of struct load_unload_state (launchctl.c:110). *)
Record load_unload_flags : Type := {
  editondisk : bool;
  load : bool;
  forceload : bool;
  session_type : option string
}.

Definition set_session_type (fl : load_unload_flags) (s : option string)
  : load_unload_flags :=
  {| editondisk := editondisk fl; load := load fl;
     forceload := forceload fl; session_type := s |}.

(** What readfile and readpath ask of the machine: the host name, the
    property list of a file as read_plist_file converts it ([None]: NULL),
    the manager name that vproc_swap_string stores ([None]: the call
    leaves the variable as it was), sysctlnametomib (the second slot of
    the mib; [None]: -1), sysctl on { CTL_HW, slot } ([None]: -1), the
    two bootstrapping flags, stat, getuid, and the names that opendir and
    readdir give for a directory ([None]: opendir fails). *)
Record Host : Type := {
  gethostname : string;
  read_plist_file : string -> bool -> bool -> option launch_data;
  vproc_mgr_name : option string;
  sysctlnametomib : string -> option Z;
  sysctl_hw : Z -> option string;
  bootstrapping_system : bool;
  bootstrapping_peruser : bool;
  stat : string -> option stat_t;
  getuid : Z;
  readdir : string -> option (list string)
}.

(** [strcasecmp(a, b) == 0] *)
Definition strcaseeq (a b : string) : bool := String.eqb (lower a) (lower b).

(** snprintf into a buffer of [size] bytes keeps [size - 1] characters. *)
Definition snprintf (size : nat) (s : string) : string :=
  substring 0 (size - 1) s.

(** sysctl_hw_streq (launchctl.c:813).  The string comes from
    launch_data_get_string and may be NULL; strcmp on NULL is a fault,
    which is [None] here and in the functions below. *)
Definition sysctl_hw_streq (h : Host) (mib_slot : Z) (str : option string)
  : option bool :=
  match sysctl_hw h mib_slot with
  | Some buf =>
      match str with
      | Some s => Some (String.eqb buf s)
      | None => None
      end
  | None => Some false
  end.

(** The for loop of limitloadtohardware_iterator. *)
Fixpoint limitloadtohardware_loop (h : Host) (mib_slot : Z)
  (l : list launch_data) (result : bool) : option bool :=
  match l with
  | [] => Some result
  | oai :: t =>
      match sysctl_hw_streq h mib_slot (launch_data_get_string oai) with
      | None => None
      | Some true => Some true
      | Some false => limitloadtohardware_loop h mib_slot t result
      end
  end.

(** limitloadtohardware_iterator (launchctl.c:829); the context is the
    flag [result]. *)
Definition limitloadtohardware_iterator (h : Host) (val : launch_data)
  (key : string) (result : bool) : option bool :=
  let name := snprintf 128 ("hw." ++ key) in
  if result then Some result
  else
    match sysctlnametomib h name with
    | None => Some result
    | Some mib_slot =>
        match val with
        | LD_ARRAY a => limitloadtohardware_loop h mib_slot a result
        | _ => Some result
        end
    end.

(** launch_data_dict_iterate with limitloadtohardware_iterator. *)
Fixpoint limitloadtohardware_iterate (h : Host)
  (kv : list (string * launch_data)) (result : bool) : option bool :=
  match kv with
  | [] => Some result
  | (k, v) :: t =>
      match limitloadtohardware_iterator h v k result with
      | None => None
      | Some r => limitloadtohardware_iterate h t r
      end
  end.

Definition limitloadtohardware (h : Host) (tmpd : launch_data)
  : option bool :=
  match tmpd with
  | LD_DICTIONARY kv => limitloadtohardware_iterate h kv false
  | _ => Some false
  end.

(** job_disabled_dict_logic (launchctl.c:1024); the context is [r]. *)
Definition job_disabled_dict_logic (h : Host) (obj : launch_data)
  (key : string) (r : bool) : bool :=
  match obj with
  | LD_STRING s =>
      if strcaseeq key LAUNCH_JOBKEY_DISABLED_MACHINETYPE then
        match sysctl_hw_streq h HW_MACHINE (Some s) with
        | Some true => true
        | _ => r
        end
      else if strcaseeq key LAUNCH_JOBKEY_DISABLED_MODELNAME then
        match sysctl_hw_streq h HW_MODEL (Some s) with
        | Some true => true
        | _ => r
        end
      else r
  | _ => r
  end.

(** job_disabled_logic (launchctl.c:1044) *)
Definition job_disabled_logic (h : Host) (obj : launch_data) : bool :=
  match obj with
  | LD_DICTIONARY kv =>
      fold_left (fun r e => job_disabled_dict_logic h (snd e) (fst e) r)
        kv false
  | LD_BOOL b => b
  | _ => false
  end.

(** The elements that a loop from 0 to launch_data_array_get_count
    visits. *)
Definition array_elements (d : launch_data) : list launch_data :=
  match d with LD_ARRAY a => a | _ => [] end.

(** The loops of readfile over LimitLoadFromHosts and LimitLoadToHosts:
    is the host name, case folded, among the elements? *)
Fixpoint host_listed (ourhostname : string) (l : list launch_data)
  : option bool :=
  match l with
  | [] => Some false
  | oai :: t =>
      match launch_data_get_string oai with
      | None => None
      | Some s =>
          if strcaseeq ourhostname s then Some true
          else host_listed ourhostname t
      end
  end.

(** The loop of readfile over an array LimitLoadToSessionType: the first
    element that names the session type clears [skipjob]. *)
Fixpoint session_listed (session_type : string) (l : list launch_data)
  : option bool :=
  match l with
  | [] => Some false
  | tmps :: t =>
      match launch_data_get_string tmps with
      | None => None
      | Some allowed_session =>
          if strcaseeq session_type allowed_session then Some true
          else session_listed session_type t
      end
  end.

(** readfile (launchctl.c:855).  The function returns the load state it
    leaves; the lines written to stdout and stderr are left out. *)
Definition readfile (h : Host) (what : string) (fl : load_unload_flags)
  (lus : load_unload_state)
  : option (load_unload_flags * load_unload_state) :=
  let ourhostname := gethostname h in
  match read_plist_file h what (editondisk fl) (load fl) with
  | None => Some (fl, lus)
  | Some thejob =>
  match launch_data_dict_lookup thejob LAUNCH_JOBKEY_LABEL with
  | None => Some (fl, lus)
  | Some _ =>
  match launch_data_dict_lookup thejob LAUNCH_JOBKEY_PROGRAM,
        launch_data_dict_lookup thejob LAUNCH_JOBKEY_PROGRAMARGUMENTS with
  | None, None => Some (fl, lus)
  | _, _ =>
  match
    match launch_data_dict_lookup thejob LAUNCH_JOBKEY_LIMITLOADFROMHOSTS with
    | Some tmpa => host_listed ourhostname (array_elements tmpa)
    | None => Some false
    end
  with
  | None => None
  | Some true => Some (fl, lus)
  | Some false =>
  match
    match launch_data_dict_lookup thejob LAUNCH_JOBKEY_LIMITLOADTOHOSTS with
    | Some tmpa => host_listed ourhostname (array_elements tmpa)
    | None => Some true
    end
  with
  | None => None
  | Some false => Some (fl, lus)
  | Some true =>
  match
    match launch_data_dict_lookup thejob LAUNCH_JOBKEY_LIMITLOADTOHARDWARE with
    | Some tmpd => limitloadtohardware h tmpd
    | None => Some true
    end
  with
  | None => None
  | Some false => Some (fl, lus)
  | Some true =>
  match
    match launch_data_dict_lookup thejob
            LAUNCH_JOBKEY_LIMITLOADFROMHARDWARE with
    | Some tmpd => limitloadtohardware h tmpd
    | None => Some false
    end
  with
  | None => None
  | Some true => Some (fl, lus)
  | Some false =>
  let manager :=
    match vproc_mgr_name h with Some m => m | None => "Bogus" end in
  let fl :=
    match session_type fl with
    | None =>
        if String.eqb manager "Aqua" then set_session_type fl (Some "Aqua")
        else fl
    | Some _ => fl
    end in
  let thejob :=
    match session_type fl,
          launch_data_dict_lookup thejob
            LAUNCH_JOBKEY_LIMITLOADTOSESSIONTYPE with
    | Some _, None =>
        launch_data_dict_insert thejob (LD_STRING "Aqua")
          LAUNCH_JOBKEY_LIMITLOADTOSESSIONTYPE
    | _, _ => thejob
    end in
  match
    match launch_data_dict_lookup thejob
            LAUNCH_JOBKEY_LIMITLOADTOSESSIONTYPE with
    | None => Some (false, thejob)
    | Some tmpa =>
        match session_type fl with
        | None =>
            match tmpa with
            | LD_STRING s =>
                Some (negb (strcaseeq "System" manager
                            && strcaseeq "System" s), thejob)
            | _ => Some (true, thejob)
            end
        | Some st =>
            match tmpa with
            | LD_ARRAY a =>
                match session_listed st a with
                | None => None
                | Some true =>
                    Some (false,
                          launch_data_dict_insert thejob (LD_STRING st)
                            LAUNCH_JOBKEY_LIMITLOADTOSESSIONTYPE)
                | Some false => Some (true, thejob)
                end
            | LD_STRING s => Some (negb (strcaseeq st s), thejob)
            | _ => Some (true, thejob)
            end
        end
    end
  with
  | None => None
  | Some (true, _) => Some (fl, lus)
  | Some (false, thejob) =>
  let job_disabled :=
    match launch_data_dict_lookup thejob LAUNCH_JOBKEY_DISABLED with
    | Some tmpd => job_disabled_logic h tmpd
    | None => false
    end in
  let job_disabled := if forceload fl then false else job_disabled in
  if job_disabled && load fl then Some (fl, lus)
  else
    let thejob :=
      if bootstrapping_system h || bootstrapping_peruser h
      then launch_data_dict_insert thejob (LD_OPAQUE (repeat 0 16))
             LAUNCH_JOBKEY_SECURITYSESSIONUUID
      else thejob in
    Some (fl, readfile_route thejob lus)
  end end end end end end end end.

(** The readdir loop of readpath. *)
Fixpoint readpath_entries (h : Host) (what : string) (names : list string)
  (fl : load_unload_flags) (lus : load_unload_state)
  : option (load_unload_flags * load_unload_state) :=
  match names with
  | [] => Some (fl, lus)
  | d_name :: t =>
      if match d_name with String "."%char _ => true | _ => false end
      then readpath_entries h what t fl lus
      else
        let buf := snprintf MAXPATHLEN (what ++ "/" ++ d_name) in
        if negb (path_goodness_check (stat h) (getuid h) buf (forceload fl))
        then readpath_entries h what t fl lus
        else
          match readfile h buf fl lus with
          | None => None
          | Some (fl', lus') => readpath_entries h what t fl' lus'
          end
  end.

(** readpath (launchctl.c:1100) *)
Definition readpath (h : Host) (what : string) (fl : load_unload_flags)
  (lus : load_unload_state)
  : option (load_unload_flags * load_unload_state) :=
  if negb (path_goodness_check (stat h) (getuid h) what (forceload fl))
  then Some (fl, lus)
  else
    match stat h what with
    | None => Some (fl, lus)
    | Some sb =>
        if S_ISREG (st_mode sb) then readfile h what fl lus
        else if S_ISDIR (st_mode sb) then
          match readdir h what with
          | None => Some (fl, lus)
          | Some names => readpath_entries h what names fl lus
          end
        else Some (fl, lus)
    end.

(** *** Vocabulary of the statements about readfile and readpath. *)

(** A job description that names itself and what to run. *)
Definition complete_job (j : launch_data) : Prop :=
  launch_data_dict_lookup j LAUNCH_JOBKEY_LABEL <> None /\
  (launch_data_dict_lookup j LAUNCH_JOBKEY_PROGRAM <> None \/
   launch_data_dict_lookup j LAUNCH_JOBKEY_PROGRAMARGUMENTS <> None).

(** [job] is [plist] but for the two keys that readfile writes. *)
Definition same_but_session (plist job : launch_data) : Prop :=
  forall key,
    key <> LAUNCH_JOBKEY_LIMITLOADTOSESSIONTYPE ->
    key <> LAUNCH_JOBKEY_SECURITYSESSIONUUID ->
    launch_data_dict_lookup job key = launch_data_dict_lookup plist key.

(** The load state [lus'] is [lus] with the jobs [added] appended, each to
    one of the two arrays. *)
Inductive queued : load_unload_state -> list launch_data
                   -> load_unload_state -> Prop :=
| queued_nil : forall lus, queued lus [] lus
| queued_pass1 : forall lus added lus' j,
    queued lus added lus' ->
    queued lus (added ++ [j])
      {| pass1 := pass1 lus' ++ [j]; pass2 := pass2 lus' |}
| queued_pass2 : forall lus added lus' j,
    queued lus added lus' ->
    queued lus (added ++ [j])
      {| pass1 := pass1 lus'; pass2 := pass2 lus' ++ [j] |}.

(** *** The resource limit names (launchctl.c:2874) *)

(** RLIMIT_CPU .. RLIMIT_NOFILE of <sys/resource.h>. *)
Definition RLIMIT_CPU : Z := 0.
Definition RLIMIT_FSIZE : Z := 1.
Definition RLIMIT_DATA : Z := 2.
Definition RLIMIT_STACK : Z := 3.
Definition RLIMIT_CORE : Z := 4.
Definition RLIMIT_RSS : Z := 5.
Definition RLIMIT_MEMLOCK : Z := 6.
Definition RLIMIT_NPROC : Z := 7.
Definition RLIMIT_NOFILE : Z := 8.

Definition limlookup : list (string * Z) :=
  [("cpu", RLIMIT_CPU); ("filesize", RLIMIT_FSIZE); ("data", RLIMIT_DATA);
   ("stack", RLIMIT_STACK); ("core", RLIMIT_CORE); ("rss", RLIMIT_RSS);
   ("memlock", RLIMIT_MEMLOCK); ("maxproc", RLIMIT_NPROC);
   ("maxfiles", RLIMIT_NOFILE)].

(** name2num (launchctl.c:2891) *)
Definition name2num (n : string) : Z :=
  (fix loop (l : list (string * Z)) : Z :=
     match l with
     | [] => -1
     | (name, lim) :: t => if String.eqb name n then lim else loop t
     end) limlookup.

(** num2name (launchctl.c:2904); [None] is NULL. *)
Definition num2name (n : Z) : option string :=
  (fix loop (l : list (string * Z)) : option string :=
     match l with
     | [] => None
     | (name, lim) :: t => if lim =? n then Some name else loop t
     end) limlookup.


(** What a call of readfile that returns has done. *)
Definition readfile_result (h : Host) (what : string)
  (fl : load_unload_flags) (lus : load_unload_state)
  (fl' : load_unload_flags) (lus' : load_unload_state) : Prop :=
  editondisk fl' = editondisk fl /\ load fl' = load fl /\
  forceload fl' = forceload fl /\
  (lus' = lus \/
   exists plist job,
     read_plist_file h what (editondisk fl) (load fl) = Some plist /\
     complete_job plist /\ same_but_session plist job /\
     complete_job job /\
     (lus' = {| pass1 := pass1 lus ++ [job]; pass2 := pass2 lus |} \/
      lus' = {| pass1 := pass1 lus; pass2 := pass2 lus ++ [job] |})).


(** Example inputs: a machine in an Aqua session with one directory of
    two files, and a machine that knows nothing and holds two files. *)
Definition example_web_plist : launch_data :=
  LD_DICTIONARY
    [("Label", LD_STRING "com.example.web");
     ("ProgramArguments", LD_ARRAY [LD_STRING "/usr/sbin/web"]);
     ("Sockets",
      LD_DICTIONARY
        [("Listener",
          LD_DICTIONARY [("SockServiceName", LD_STRING "http");
                         ("Bonjour", LD_BOOL true)])])].

Definition example_web_job : launch_data :=
  launch_data_dict_insert example_web_plist (LD_STRING "Aqua")
    LAUNCH_JOBKEY_LIMITLOADTOSESSIONTYPE.

Definition example_host : Host :=
  {| gethostname := "build.example.com";
     read_plist_file := fun file _ _ =>
       if String.eqb file "/Library/LaunchDaemons/com.example.web.plist"
       then Some example_web_plist
       else if String.eqb file "/Library/LaunchDaemons/broken.plist"
       then Some (LD_DICTIONARY [("Program", LD_STRING "/bin/true")])
       else None;
     vproc_mgr_name := Some "Aqua";
     sysctlnametomib := fun _ => None;
     sysctl_hw := fun _ => None;
     bootstrapping_system := false;
     bootstrapping_peruser := false;
     stat := fun path =>
       if String.eqb path "/Library/LaunchDaemons"
       then Some {| st_mode := 16877; st_uid := 0 |}
       else Some {| st_mode := 33188; st_uid := 0 |};
     getuid := 501;
     readdir := fun path =>
       if String.eqb path "/Library/LaunchDaemons"
       then Some [".DS_Store"; "broken.plist"; "com.example.web.plist";
                  "notes.txt"]
       else None |}.

Definition quiet_host : Host :=
  {| gethostname := "build.example.com";
     read_plist_file := fun file _ _ =>
       if String.eqb file "off.plist"
       then Some (LD_DICTIONARY
                    [("Label", LD_STRING "com.example.off");
                     ("Program", LD_STRING "/usr/libexec/off");
                     ("Disabled", LD_BOOL true)])
       else if String.eqb file "elsewhere.plist"
       then Some (LD_DICTIONARY
                    [("Label", LD_STRING "com.example.elsewhere");
                     ("Program", LD_STRING "/usr/libexec/elsewhere");
                     ("LimitLoadFromHosts",
                      LD_ARRAY [LD_STRING "Build.Example.COM"])])
       else None;
     vproc_mgr_name := None;
     sysctlnametomib := fun _ => None;
     sysctl_hw := fun _ => None;
     bootstrapping_system := false;
     bootstrapping_peruser := false;
     stat := fun _ => None;
     getuid := 0;
     readdir := fun _ => None |}.

End Launchctl.

(* ===================================================================== *)
(** ** Calendar arithmetic and the cron emulation (launchd.c:2238-2400)  *)
(* ===================================================================== *)

Module Cron.

(** struct tm of <time.h>; every field is an int. *)
Record tm : Type := {
  tm_sec : Z; tm_min : Z; tm_hour : Z; tm_mday : Z; tm_mon : Z;
  tm_year : Z; tm_wday : Z; tm_yday : Z; tm_isdst : Z
}.

Definition set_tm_sec (w : tm) (v : Z) : tm :=
  {| tm_sec := v; tm_min := tm_min w; tm_hour := tm_hour w;
     tm_mday := tm_mday w; tm_mon := tm_mon w; tm_year := tm_year w;
     tm_wday := tm_wday w; tm_yday := tm_yday w; tm_isdst := tm_isdst w |}.
Definition set_tm_min (w : tm) (v : Z) : tm :=
  {| tm_sec := tm_sec w; tm_min := v; tm_hour := tm_hour w;
     tm_mday := tm_mday w; tm_mon := tm_mon w; tm_year := tm_year w;
     tm_wday := tm_wday w; tm_yday := tm_yday w; tm_isdst := tm_isdst w |}.
Definition set_tm_hour (w : tm) (v : Z) : tm :=
  {| tm_sec := tm_sec w; tm_min := tm_min w; tm_hour := v;
     tm_mday := tm_mday w; tm_mon := tm_mon w; tm_year := tm_year w;
     tm_wday := tm_wday w; tm_yday := tm_yday w; tm_isdst := tm_isdst w |}.
Definition set_tm_mday (w : tm) (v : Z) : tm :=
  {| tm_sec := tm_sec w; tm_min := tm_min w; tm_hour := tm_hour w;
     tm_mday := v; tm_mon := tm_mon w; tm_year := tm_year w;
     tm_wday := tm_wday w; tm_yday := tm_yday w; tm_isdst := tm_isdst w |}.
Definition set_tm_mon (w : tm) (v : Z) : tm :=
  {| tm_sec := tm_sec w; tm_min := tm_min w; tm_hour := tm_hour w;
     tm_mday := tm_mday w; tm_mon := v; tm_year := tm_year w;
     tm_wday := tm_wday w; tm_yday := tm_yday w; tm_isdst := tm_isdst w |}.
Definition set_tm_year (w : tm) (v : Z) : tm :=
  {| tm_sec := tm_sec w; tm_min := tm_min w; tm_hour := tm_hour w;
     tm_mday := tm_mday w; tm_mon := tm_mon w; tm_year := v;
     tm_wday := tm_wday w; tm_yday := tm_yday w; tm_isdst := tm_isdst w |}.
Definition set_tm_isdst (w : tm) (v : Z) : tm :=
  {| tm_sec := tm_sec w; tm_min := tm_min w; tm_hour := tm_hour w;
     tm_mday := tm_mday w; tm_mon := tm_mon w; tm_year := tm_year w;
     tm_wday := tm_wday w; tm_yday := tm_yday w; tm_isdst := v |}.

(** *** The C library's clock conversions, for the UTC time zone.

    localtime and mktime belong to libc.  They are modelled for a zone
    without offset or daylight saving, on the proleptic Gregorian calendar:
    a day number counts days since 1970-01-01, a civil date is
    (year, month 1..12, day 1..31). *)
Definition days_from_civil (y m d : Z) : Z :=
  let y' := if m <=? 2 then y - 1 else y in
  let era := y' / 400 in
  let yoe := y' - era * 400 in
  let doy := (153 * (if 2 <? m then m - 3 else m + 9) + 2) / 5 + d - 1 in
  let doe := yoe * 365 + yoe / 4 - yoe / 100 + doy in
  era * 146097 + doe - 719468.

Definition civil_from_days (z : Z) : Z * Z * Z :=
  let z' := z + 719468 in
  let era := z' / 146097 in
  let doe := z' - era * 146097 in
  let yoe := (doe - doe / 1460 + doe / 36524 - doe / 146096) / 365 in
  let doy := doe - (365 * yoe + yoe / 4 - yoe / 100) in
  let mp := (5 * doy + 2) / 153 in
  let d := doy - (153 * mp + 2) / 5 + 1 in
  let m := if mp <? 10 then mp + 3 else mp - 9 in
  let y := yoe + era * 400 in
  ((if m <=? 2 then y + 1 else y), m, d).

(** timegm: the seconds since the epoch of a broken-down time whose fields
    may be out of range (month 12 is January of the next year, minute 60
    is the next hour, day 0 is the last day of the month before). *)
Definition timegm (w : tm) : Z :=
  let y := 1900 + tm_year w + tm_mon w / 12 in
  let m := tm_mon w mod 12 + 1 in
  let days := days_from_civil y m 1 + (tm_mday w - 1) in
  days * 86400 + tm_hour w * 3600 + tm_min w * 60 + tm_sec w.

Definition gmtime (t : Z) : tm :=
  let days := t / 86400 in
  let rem := t mod 86400 in
  let '(y, m, d) := civil_from_days days in
  {| tm_sec := rem mod 60;
     tm_min := (rem / 60) mod 60;
     tm_hour := rem / 3600;
     tm_mday := d;
     tm_mon := m - 1;
     tm_year := y - 1900;
     tm_wday := (days + 4) mod 7;
     tm_yday := days - days_from_civil y 1 1;
     tm_isdst := 0 |}.

Definition localtime (t : Z) : tm := gmtime t.

(** mktime returns the time and rewrites the structure in normal form. *)
Definition mktime (w : tm) : Z * tm :=
  let t := timegm w in (t, gmtime t).

(** *** The emulation.

    A function of the source that takes [struct tm *wtm] and returns bool
    becomes a function that returns the bool and the structure it leaves in
    [*wtm].  Each while loop runs on [fuel]; [None] means the fuel ran out. *)

(** cronemu_min (launchd.c:2386) *)
Definition cronemu_min (wtm : tm) (min : Z) : bool * tm :=
  if min =? -1 then (true, wtm)
  else if min <? tm_min wtm then (false, wtm)
  else if tm_min wtm <? min then (true, set_tm_min wtm min)
  else (true, wtm).

(** The loop of cronemu_hour's wildcard branch: [Some (Some w)] leaves the
    loop with [w]; [Some None] is the [return false] on carry. *)
Fixpoint cronemu_hour_loop (fuel : nat) (workingtm : tm) (min : Z)
  : option (option tm) :=
  match cronemu_min workingtm min with
  | (true, w) => Some (Some w)
  | (false, w) =>
      match fuel with
      | O => None
      | S fuel' =>
          let w1 := set_tm_min (set_tm_hour w (tm_hour w + 1)) 0 in
          let carrytest := tm_hour w1 in
          let w2 := snd (mktime w1) in
          if negb (carrytest =? tm_hour w2) then Some None
          else cronemu_hour_loop fuel' w2 min
      end
  end.

(** cronemu_hour (launchd.c:2356) *)
Definition cronemu_hour (fuel : nat) (wtm : tm) (hour min : Z)
  : option (bool * tm) :=
  if hour =? -1 then
    match cronemu_hour_loop fuel wtm min with
    | None => None
    | Some None => Some (false, wtm)
    | Some (Some w) => Some (true, w)
    end
  else if hour <? tm_hour wtm then Some (false, wtm)
  else
    let wtm1 := if tm_hour wtm <? hour
                then set_tm_min (set_tm_hour wtm hour) 0 else wtm in
    Some (cronemu_min wtm1 min).

(** The loop of cronemu_mday's wildcard branch. *)
Fixpoint cronemu_mday_loop (n fuel : nat) (workingtm : tm) (hour min : Z)
  : option (option tm) :=
  match cronemu_hour n workingtm hour min with
  | None => None
  | Some (true, w) => Some (Some w)
  | Some (false, w) =>
      match fuel with
      | O => None
      | S fuel' =>
          let w1 :=
            set_tm_min (set_tm_hour (set_tm_mday w (tm_mday w + 1)) 0) 0 in
          let carrytest := tm_mday w1 in
          let w2 := snd (mktime w1) in
          if negb (carrytest =? tm_mday w2) then Some None
          else cronemu_mday_loop n fuel' w2 hour min
      end
  end.

(** cronemu_mday (launchd.c:2324) *)
Definition cronemu_mday (n : nat) (wtm : tm) (mday hour min : Z)
  : option (bool * tm) :=
  if mday =? -1 then
    match cronemu_mday_loop n n wtm hour min with
    | None => None
    | Some None => Some (false, wtm)
    | Some (Some w) => Some (true, w)
    end
  else if mday <? tm_mday wtm then Some (false, wtm)
  else
    let wtm1 := if tm_mday wtm <? mday
                then set_tm_min (set_tm_hour (set_tm_mday wtm mday) 0) 0
                else wtm in
    cronemu_hour n wtm1 hour min.

(** The loop of cronemu_mon's wildcard branch. *)
Fixpoint cronemu_mon_loop (n fuel : nat) (workingtm : tm) (mday hour min : Z)
  : option (option tm) :=
  match cronemu_mday n workingtm mday hour min with
  | None => None
  | Some (true, w) => Some (Some w)
  | Some (false, w) =>
      match fuel with
      | O => None
      | S fuel' =>
          let w1 :=
            set_tm_min
              (set_tm_hour
                 (set_tm_mday (set_tm_mon w (tm_mon w + 1)) 1) 0) 0 in
          let carrytest := tm_mon w1 in
          let w2 := snd (mktime w1) in
          if negb (carrytest =? tm_mon w2) then Some None
          else cronemu_mon_loop n fuel' w2 mday hour min
      end
  end.

(** cronemu_mon (launchd.c:2290) *)
Definition cronemu_mon (n : nat) (wtm : tm) (mon mday hour min : Z)
  : option (bool * tm) :=
  if mon =? -1 then
    match cronemu_mon_loop n n wtm mday hour min with
    | None => None
    | Some None => Some (false, wtm)
    | Some (Some w) => Some (true, w)
    end
  else if mon <? tm_mon wtm then Some (false, wtm)
  else
    let wtm1 := if tm_mon wtm <? mon
                then set_tm_min
                       (set_tm_hour (set_tm_mday (set_tm_mon wtm mon) 1) 0) 0
                else wtm in
    cronemu_mday n wtm1 mday hour min.

(** The first lines of cronemu and of cronemu_wday: the local time of now,
    seconds cleared, the minute advanced by one and not normalised. *)
Definition cronemu_start (now : Z) : tm :=
  let workingtm := localtime now in
  let workingtm := set_tm_isdst workingtm (-1) in
  let workingtm := set_tm_sec workingtm 0 in
  set_tm_min workingtm (tm_min workingtm + 1).

(** The while loop of cronemu: a failed month search moves to the first
    minute of the next year. *)
Fixpoint cronemu_loop (n fuel : nat) (workingtm : tm) (mon mday hour min : Z)
  : option tm :=
  match cronemu_mon n workingtm mon mday hour min with
  | None => None
  | Some (true, w) => Some w
  | Some (false, w) =>
      match fuel with
      | O => None
      | S fuel' =>
          let w1 :=
            set_tm_min
              (set_tm_hour
                 (set_tm_mday
                    (set_tm_mon (set_tm_year w (tm_year w + 1)) 0) 1) 0) 0 in
          cronemu_loop n fuel' (snd (mktime w1)) mon mday hour min
      end
  end.

(** cronemu (launchd.c:2238); [now] is the value of time(NULL). *)
Definition cronemu (n : nat) (mon mday hour min : Z) (now : Z) : option Z :=
  match cronemu_loop n n (cronemu_start now) mon mday hour min with
  | None => None
  | Some w => Some (fst (mktime w))
  end.

(** The while loop of cronemu_wday.  The condition short-circuits: the hour
    search runs only on a day of the wanted weekday.  The body's own call
    of cronemu_hour keeps the structure and drops the result. *)
Fixpoint cronemu_wday_loop (n fuel : nat) (workingtm : tm) (wday hour min : Z)
  : option tm :=
  let test :=
    if negb (tm_wday workingtm =? wday) then Some (true, workingtm)
    else match cronemu_hour n workingtm hour min with
         | None => None
         | Some (b, w) => Some (negb b, w)
         end in
  match test with
  | None => None
  | Some (false, w) => Some w
  | Some (true, w) =>
      match fuel with
      | O => None
      | S fuel' =>
          let w1 :=
            set_tm_min (set_tm_hour (set_tm_mday w (tm_mday w + 1)) 0) 0 in
          match cronemu_hour n w1 hour min with
          | None => None
          | Some (_, w2) =>
              cronemu_wday_loop n fuel' (snd (mktime w2)) wday hour min
          end
      end
  end.

(** cronemu_wday (launchd.c:2263) *)
Definition cronemu_wday (n : nat) (wday hour min : Z) (now : Z) : option Z :=
  let wday := if wday =? 7 then 0 else wday in
  match cronemu_wday_loop n n (cronemu_start now) wday hour min with
  | None => None
  | Some w => Some (fst (mktime w))
  end.

(** Every loop of the emulation that ends does so within 64 rounds: an
    hour search carries after 24 steps, a day search after 31, a month
    search after 12, a weekday comes round in 7 days, and a year search
    starts over once. *)
Definition cron_fuel : nat := 64%nat.

(** *** Vocabulary of the statements about the emulation. *)

(** A field of a calendar spec: free, or within its range. *)
Definition cron_field (lo hi v : Z) : Prop := v = -1 \/ lo <= v <= hi.

Definition valid_calendar (sci : tm) : Prop :=
  cron_field 0 59 (tm_min sci) /\ cron_field 0 23 (tm_hour sci) /\
  cron_field 1 31 (tm_mday sci) /\ cron_field 0 11 (tm_mon sci) /\
  cron_field 0 7 (tm_wday sci).

(** The working structure carries the date and the weekday of day number
    [D], whole minutes, and an hour of the day. *)
Definition on_day (D : Z) (w : tm) : Prop :=
  civil_from_days D = (1900 + tm_year w, tm_mon w + 1, tm_mday w) /\
  tm_wday w = (D + 4) mod 7 /\ tm_sec w = 0 /\ 0 <= tm_hour w <= 23.

(** The hour and the minute of the structure are those the spec names. *)
Definition matches_clock (w : tm) (hour min : Z) : Prop :=
  (hour = -1 \/ tm_hour w = hour) /\ (min = -1 \/ tm_min w = min).

(** What cronemu_hour leaves of a structure that stands at midnight. *)
Definition settle (w : tm) (hour min : Z) : tm :=
  let w1 := if 0 <? hour then set_tm_min (set_tm_hour w hour) 0 else w in
  if 0 <? min then set_tm_min w1 min else w1.

(** The first minute of day [D] that the spec's hour and minute allow. *)
Definition ready (D : Z) (w : tm) (hour min : Z) : Prop :=
  on_day D w /\ tm_hour w = Z.max 0 hour /\ tm_min w = Z.max 0 min.


(** *** Vocabulary of the statements about the clock fields. *)

(** The civil date [c'] is the day after [c]: the next day of the month,
    or the first of the next month, or the first of January. *)
Definition next_civil (c : Z * Z * Z) (c' : Z * Z * Z) : bool :=
  let '(y, m, d) := c in
  let '(y2, m2, d2) := c' in
  ((y2 =? y) && (m2 =? m) && (d2 =? d + 1))
  || (negb (d2 =? d + 1) && (d2 =? 1)
      && (((y2 =? y) && (m2 =? m + 1) && (m <? 12))
          || ((y2 =? y + 1) && (m2 =? 1) && (m =? 12)))).

(** [n] days from day [z] on, whose civil date is [c], each date is
    followed by its day after. *)
Fixpoint days_check (n : nat) (z : Z) (c : Z * Z * Z) : bool :=
  match n with
  | O => true
  | S n' =>
      let c' := civil_from_days (z + 1) in
      next_civil c c' && days_check n' (z + 1) c'
  end.


(** The time [t] is a whole minute whose minute is [min] and whose hour is
    [hour], when one is named. *)
Definition clock_match (hour min t : Z) : Prop :=
  t mod 60 = 0 /\ (t / 60) mod 60 = min /\
  (hour = -1 \/ (t mod 86400) / 3600 = hour).

End Cron.

(* ===================================================================== *)
(** ** launchd.c: the supervisor                                         *)
(* ===================================================================== *)

Module Launchd.
Import LaunchData Cron.

(** launchd.c:66-68 *)
Definition LAUNCHD_MIN_JOB_RUN_TIME : Z := 10.
Definition LAUNCHD_REWARD_JOB_RUN_TIME : Z := 60.
Definition LAUNCHD_FAILED_EXITS_THRESHOLD : Z := 10.

(** The key strings of launch.h (not among the sources). *)
Definition LAUNCH_KEY_SUBMITJOB := "SubmitJob".
Definition LAUNCH_KEY_REMOVEJOB := "RemoveJob".
Definition LAUNCH_KEY_STARTJOB := "StartJob".
Definition LAUNCH_KEY_STOPJOB := "StopJob".
Definition LAUNCH_KEY_GETJOB := "GetJob".
Definition LAUNCH_KEY_GETJOBWITHHANDLES := "GetJobWithHandles".
Definition LAUNCH_KEY_GETJOBS := "GetJobs".
Definition LAUNCH_KEY_CHECKIN := "CheckIn".
Definition LAUNCH_KEY_WORKAROUNDBONJOUR := "WorkaroundBonjour".
Definition LAUNCH_KEY_SETUSERENVIRONMENT := "SetUserEnvironment".
Definition LAUNCH_KEY_UNSETUSERENVIRONMENT := "UnsetUserEnvironment".
Definition LAUNCH_KEY_GETUSERENVIRONMENT := "GetUserEnvironment".
Definition LAUNCH_KEY_RELOADTTYS := "ReloadTTYS".
Definition LAUNCH_KEY_SHUTDOWN := "Shutdown".
Definition LAUNCH_KEY_GETRESOURCELIMITS := "GetResourceLimits".
Definition LAUNCH_KEY_SETRESOURCELIMITS := "SetResourceLimits".
Definition LAUNCH_KEY_SETLOGMASK := "SetLogMask".
Definition LAUNCH_KEY_GETLOGMASK := "GetLogMask".
Definition LAUNCH_KEY_SETUMASK := "SetUmask".
Definition LAUNCH_KEY_GETUMASK := "GetUmask".
Definition LAUNCH_KEY_GETRUSAGESELF := "GetResourceUsageSelf".
Definition LAUNCH_KEY_GETRUSAGECHILDREN := "GetResourceUsageChildren".
Definition LAUNCH_KEY_SETSTDOUT := "SetStandardOut".
Definition LAUNCH_KEY_SETSTDERR := "SetStandardError".
Definition LAUNCH_KEY_BATCHCONTROL := "BatchControl".
Definition LAUNCH_KEY_BATCHQUERY := "BatchQuery".

Definition LAUNCH_JOBKEY_LABEL := "Label".
Definition LAUNCH_JOBKEY_PROGRAM := "Program".
Definition LAUNCH_JOBKEY_PROGRAMARGUMENTS := "ProgramArguments".
Definition LAUNCH_JOBKEY_ONDEMAND := "OnDemand".
Definition LAUNCH_JOBKEY_RUNATLOAD := "RunAtLoad".
Definition LAUNCH_JOBKEY_DEBUG := "Debug".
Definition LAUNCH_JOBKEY_SERVICEIPC := "ServiceIPC".
Definition LAUNCH_JOBKEY_INETDCOMPATIBILITY := "inetdCompatibility".
Definition LAUNCH_JOBKEY_TIMEOUT := "TimeOut".
Definition LAUNCH_JOBKEY_SOCKETS := "Sockets".
Definition LAUNCH_JOBKEY_BONJOURFDS := "BonjourFDs".
Definition LAUNCH_JOBKEY_QUEUEDIRECTORIES := "QueueDirectories".
Definition LAUNCH_JOBKEY_WATCHPATHS := "WatchPaths".
Definition LAUNCH_JOBKEY_STARTINTERVAL := "StartInterval".
Definition LAUNCH_JOBKEY_STARTCALENDARINTERVAL := "StartCalendarInterval".
Definition LAUNCH_JOBKEY_CAL_MINUTE := "Minute".
Definition LAUNCH_JOBKEY_CAL_HOUR := "Hour".
Definition LAUNCH_JOBKEY_CAL_DAY := "Day".
Definition LAUNCH_JOBKEY_CAL_WEEKDAY := "Weekday".
Definition LAUNCH_JOBKEY_CAL_MONTH := "Month".
Definition LAUNCH_JOBKEY_USERENVIRONMENTVARIABLES := "UserEnvironmentVariables".

(** <sys/wait.h>, <signal.h>, <syslog.h>, <sys/event.h> *)
Definition _WSTATUS (x : Z) : Z := Z.land x 127.
Definition WIFEXITED (x : Z) : bool := _WSTATUS x =? 0.
Definition WEXITSTATUS (x : Z) : Z := Z.land (Z.shiftr x 8) 255.
Definition WIFSIGNALED (x : Z) : bool :=
  negb (_WSTATUS x =? 127) && negb (_WSTATUS x =? 0).
Definition WTERMSIG (x : Z) : Z := _WSTATUS x.

Definition SIGKILL : Z := 9.
Definition SIGTERM : Z := 15.

Definition LOG_ERR : Z := 3.
Definition LOG_WARNING : Z := 4.
Definition LOG_NOTICE : Z := 5.
Definition LOG_INFO : Z := 6.
Definition LOG_DEBUG : Z := 7.
Definition LOG_UPTO (pri : Z) : Z := Z.shiftl 1 (pri + 1) - 1.

Inductive kfilter : Type :=
| EVFILT_READ | EVFILT_WRITE | EVFILT_PROC | EVFILT_TIMER | EVFILT_VNODE.

Definition EV_ADD : Z := 1.
Definition EV_DELETE : Z := 2.
Definition EV_ENABLE : Z := 4.
Definition EV_DISABLE : Z := 8.
Definition EV_CLEAR : Z := 32.

Definition NOTE_EXIT : Z := 2147483648.
Definition NOTE_SECONDS : Z := 1.
Definition NOTE_ABSOLUTE : Z := 8.
Definition NOTE_DELETE : Z := 1.
Definition NOTE_WRITE : Z := 2.
Definition NOTE_EXTEND : Z := 4.
Definition NOTE_ATTRIB : Z := 8.
Definition NOTE_LINK : Z := 16.
Definition NOTE_RENAME : Z := 32.
Definition NOTE_REVOKE : Z := 64.

(** C integer conversions. *)
Definition to_int (z : Z) : Z := (z + 2147483648) mod 4294967296 - 2147483648.
Definition to_uint (z : Z) : Z := z mod 4294967296.
Definition size_t_modulus : Z := 2 ^ 64.
Definition to_size_t (z : Z) : Z := z mod size_t_modulus.

(** A job is a heap object; [jobid] stands for its address. *)
Definition jobid : Type := nat.

(** What a kevent is armed on (the ident) and what it carries back (the
    udata, the callback object). *)
Inductive kident : Type :=
| KFd (fd : Z)
| KPid (p : Z)
| KJob (j : jobid)             (* (uintptr_t)j *)
| KStartInterval (j : jobid)   (* &j->start_interval *)
| KCalInterval (j : jobid)     (* j->start_cal_interval *)
| KAsyncKq.

Inductive kudata : Type :=
| UNull
| UJob (j : jobid)
| UConn (fd : Z)
| UAsync
| UZombieReaper.


(** struct jobcb (launchd.c:77).  The two counted arrays are lists. *)
Record jobcb : Type := {
  jid : jobid;
  label : string;
  ldj : launch_data;
  p : Z;
  execfd : Z;
  start_time : Z;
  failed_exits : Z;
  vnodes : list Z;
  qdirs : list Z;
  start_interval : Z;
  start_cal_interval : option tm;
  checkedin : bool;
  firstborn : bool;
  debug : bool;
  throttle : bool
}.

(** struct conncb (launchd.c:95); a connection is known by its descriptor. *)
Record conncb : Type := {
  conn : Z;
  cj : option jobid;
  disabled_batch : bool
}.

(** What the supervisor does to the world outside, in order. *)
Inductive event : Type :=
| E_syslog (pri : Z) (msg : string)
| E_kevent (ident : kident) (filter : kfilter) (flags fflags data : Z)
    (udata : kudata)
| E_close (fd : Z)
| E_cloexec (fd : Z)
| E_nonblock (fd : Z)
| E_kill (pid sig : Z)
| E_fork
| E_socketpair (a b : Z)
| E_write (fd : Z)
| E_read (fd : Z)
| E_open (path : option string)
| E_setenv (k v : string)
| E_unsetenv (k : string)
| E_dup2 (from to : Z)
| E_setpgid (pid pgid : Z)
| E_tcsetpgrp (fd pgrp : Z)
| E_update_ttys
| E_pid1_shutdown
| E_send (c : Z) (resp : launch_data).

(** Field updates of struct jobcb. *)
Definition set_ldj (x : jobcb) (v : launch_data) : jobcb :=
  {| jid := jid x; label := label x; ldj := v; p := p x; execfd := execfd x;
     start_time := start_time x; failed_exits := failed_exits x;
     vnodes := vnodes x; qdirs := qdirs x;
     start_interval := start_interval x;
     start_cal_interval := start_cal_interval x; checkedin := checkedin x;
     firstborn := firstborn x; debug := debug x; throttle := throttle x |}.
Definition set_p (x : jobcb) (v : Z) : jobcb :=
  {| jid := jid x; label := label x; ldj := ldj x; p := v;
     execfd := execfd x; start_time := start_time x;
     failed_exits := failed_exits x; vnodes := vnodes x; qdirs := qdirs x;
     start_interval := start_interval x;
     start_cal_interval := start_cal_interval x; checkedin := checkedin x;
     firstborn := firstborn x; debug := debug x; throttle := throttle x |}.
Definition set_execfd (x : jobcb) (v : Z) : jobcb :=
  {| jid := jid x; label := label x; ldj := ldj x; p := p x; execfd := v;
     start_time := start_time x; failed_exits := failed_exits x;
     vnodes := vnodes x; qdirs := qdirs x;
     start_interval := start_interval x;
     start_cal_interval := start_cal_interval x; checkedin := checkedin x;
     firstborn := firstborn x; debug := debug x; throttle := throttle x |}.
Definition set_start_time (x : jobcb) (v : Z) : jobcb :=
  {| jid := jid x; label := label x; ldj := ldj x; p := p x;
     execfd := execfd x; start_time := v; failed_exits := failed_exits x;
     vnodes := vnodes x; qdirs := qdirs x;
     start_interval := start_interval x;
     start_cal_interval := start_cal_interval x; checkedin := checkedin x;
     firstborn := firstborn x; debug := debug x; throttle := throttle x |}.
Definition set_failed_exits (x : jobcb) (v : Z) : jobcb :=
  {| jid := jid x; label := label x; ldj := ldj x; p := p x;
     execfd := execfd x; start_time := start_time x; failed_exits := v;
     vnodes := vnodes x; qdirs := qdirs x;
     start_interval := start_interval x;
     start_cal_interval := start_cal_interval x; checkedin := checkedin x;
     firstborn := firstborn x; debug := debug x; throttle := throttle x |}.
Definition set_vnodes (x : jobcb) (v : list Z) : jobcb :=
  {| jid := jid x; label := label x; ldj := ldj x; p := p x;
     execfd := execfd x; start_time := start_time x;
     failed_exits := failed_exits x; vnodes := v; qdirs := qdirs x;
     start_interval := start_interval x;
     start_cal_interval := start_cal_interval x; checkedin := checkedin x;
     firstborn := firstborn x; debug := debug x; throttle := throttle x |}.
Definition set_qdirs (x : jobcb) (v : list Z) : jobcb :=
  {| jid := jid x; label := label x; ldj := ldj x; p := p x;
     execfd := execfd x; start_time := start_time x;
     failed_exits := failed_exits x; vnodes := vnodes x; qdirs := v;
     start_interval := start_interval x;
     start_cal_interval := start_cal_interval x; checkedin := checkedin x;
     firstborn := firstborn x; debug := debug x; throttle := throttle x |}.
Definition set_start_interval (x : jobcb) (v : Z) : jobcb :=
  {| jid := jid x; label := label x; ldj := ldj x; p := p x;
     execfd := execfd x; start_time := start_time x;
     failed_exits := failed_exits x; vnodes := vnodes x; qdirs := qdirs x;
     start_interval := v; start_cal_interval := start_cal_interval x;
     checkedin := checkedin x; firstborn := firstborn x; debug := debug x;
     throttle := throttle x |}.
Definition set_start_cal_interval (x : jobcb) (v : option tm) : jobcb :=
  {| jid := jid x; label := label x; ldj := ldj x; p := p x;
     execfd := execfd x; start_time := start_time x;
     failed_exits := failed_exits x; vnodes := vnodes x; qdirs := qdirs x;
     start_interval := start_interval x; start_cal_interval := v;
     checkedin := checkedin x; firstborn := firstborn x; debug := debug x;
     throttle := throttle x |}.
Definition set_checkedin (x : jobcb) (v : bool) : jobcb :=
  {| jid := jid x; label := label x; ldj := ldj x; p := p x;
     execfd := execfd x; start_time := start_time x;
     failed_exits := failed_exits x; vnodes := vnodes x; qdirs := qdirs x;
     start_interval := start_interval x;
     start_cal_interval := start_cal_interval x; checkedin := v;
     firstborn := firstborn x; debug := debug x; throttle := throttle x |}.
Definition set_firstborn (x : jobcb) (v : bool) : jobcb :=
  {| jid := jid x; label := label x; ldj := ldj x; p := p x;
     execfd := execfd x; start_time := start_time x;
     failed_exits := failed_exits x; vnodes := vnodes x; qdirs := qdirs x;
     start_interval := start_interval x;
     start_cal_interval := start_cal_interval x; checkedin := checkedin x;
     firstborn := v; debug := debug x; throttle := throttle x |}.
Definition set_debug (x : jobcb) (v : bool) : jobcb :=
  {| jid := jid x; label := label x; ldj := ldj x; p := p x;
     execfd := execfd x; start_time := start_time x;
     failed_exits := failed_exits x; vnodes := vnodes x; qdirs := qdirs x;
     start_interval := start_interval x;
     start_cal_interval := start_cal_interval x; checkedin := checkedin x;
     firstborn := firstborn x; debug := v; throttle := throttle x |}.
Definition set_throttle (x : jobcb) (v : bool) : jobcb :=
  {| jid := jid x; label := label x; ldj := ldj x; p := p x;
     execfd := execfd x; start_time := start_time x;
     failed_exits := failed_exits x; vnodes := vnodes x; qdirs := qdirs x;
     start_interval := start_interval x;
     start_cal_interval := start_cal_interval x; checkedin := checkedin x;
     firstborn := firstborn x; debug := debug x; throttle := v |}.

(** The supervisor's state: the job objects, the queue of loaded jobs (the
    TAILQ [jobs], head first), the connections, the file-scope variables,
    the environment (the strings of [environ], in order), and the trace of
    what was done to the outside. *)
Record World : Type := {
  heap : list jobcb;
  jobs : list jobid;
  connections : list conncb;
  next_jid : nat;
  total_children : Z;
  shutdown_in_progress : bool;
  batch_disabler_count : Z;
  environ : list string;
  logmask : Z;
  umask : Z;
  pending_stdout : option string;
  pending_stderr : option string;
  trace : list event
}.

Definition with_heap (x : World) (v : list jobcb) : World :=
  {| heap := v; jobs := jobs x; connections := connections x;
     next_jid := next_jid x; total_children := total_children x;
     shutdown_in_progress := shutdown_in_progress x;
     batch_disabler_count := batch_disabler_count x; environ := environ x;
     logmask := logmask x; umask := umask x;
     pending_stdout := pending_stdout x; pending_stderr := pending_stderr x;
     trace := trace x |}.
Definition with_jobs (x : World) (v : list jobid) : World :=
  {| heap := heap x; jobs := v; connections := connections x;
     next_jid := next_jid x; total_children := total_children x;
     shutdown_in_progress := shutdown_in_progress x;
     batch_disabler_count := batch_disabler_count x; environ := environ x;
     logmask := logmask x; umask := umask x;
     pending_stdout := pending_stdout x; pending_stderr := pending_stderr x;
     trace := trace x |}.
Definition with_connections (x : World) (v : list conncb) : World :=
  {| heap := heap x; jobs := jobs x; connections := v;
     next_jid := next_jid x; total_children := total_children x;
     shutdown_in_progress := shutdown_in_progress x;
     batch_disabler_count := batch_disabler_count x; environ := environ x;
     logmask := logmask x; umask := umask x;
     pending_stdout := pending_stdout x; pending_stderr := pending_stderr x;
     trace := trace x |}.
Definition with_next_jid (x : World) (v : nat) : World :=
  {| heap := heap x; jobs := jobs x; connections := connections x;
     next_jid := v; total_children := total_children x;
     shutdown_in_progress := shutdown_in_progress x;
     batch_disabler_count := batch_disabler_count x; environ := environ x;
     logmask := logmask x; umask := umask x;
     pending_stdout := pending_stdout x; pending_stderr := pending_stderr x;
     trace := trace x |}.
Definition with_total_children (x : World) (v : Z) : World :=
  {| heap := heap x; jobs := jobs x; connections := connections x;
     next_jid := next_jid x; total_children := v;
     shutdown_in_progress := shutdown_in_progress x;
     batch_disabler_count := batch_disabler_count x; environ := environ x;
     logmask := logmask x; umask := umask x;
     pending_stdout := pending_stdout x; pending_stderr := pending_stderr x;
     trace := trace x |}.
Definition with_shutdown_in_progress (x : World) (v : bool) : World :=
  {| heap := heap x; jobs := jobs x; connections := connections x;
     next_jid := next_jid x; total_children := total_children x;
     shutdown_in_progress := v;
     batch_disabler_count := batch_disabler_count x; environ := environ x;
     logmask := logmask x; umask := umask x;
     pending_stdout := pending_stdout x; pending_stderr := pending_stderr x;
     trace := trace x |}.
Definition with_batch_disabler_count (x : World) (v : Z) : World :=
  {| heap := heap x; jobs := jobs x; connections := connections x;
     next_jid := next_jid x; total_children := total_children x;
     shutdown_in_progress := shutdown_in_progress x;
     batch_disabler_count := v; environ := environ x; logmask := logmask x;
     umask := umask x; pending_stdout := pending_stdout x;
     pending_stderr := pending_stderr x; trace := trace x |}.
Definition with_environ (x : World) (v : list string) : World :=
  {| heap := heap x; jobs := jobs x; connections := connections x;
     next_jid := next_jid x; total_children := total_children x;
     shutdown_in_progress := shutdown_in_progress x;
     batch_disabler_count := batch_disabler_count x; environ := v;
     logmask := logmask x; umask := umask x;
     pending_stdout := pending_stdout x; pending_stderr := pending_stderr x;
     trace := trace x |}.
Definition with_logmask (x : World) (v : Z) : World :=
  {| heap := heap x; jobs := jobs x; connections := connections x;
     next_jid := next_jid x; total_children := total_children x;
     shutdown_in_progress := shutdown_in_progress x;
     batch_disabler_count := batch_disabler_count x; environ := environ x;
     logmask := v; umask := umask x; pending_stdout := pending_stdout x;
     pending_stderr := pending_stderr x; trace := trace x |}.
Definition with_umask (x : World) (v : Z) : World :=
  {| heap := heap x; jobs := jobs x; connections := connections x;
     next_jid := next_jid x; total_children := total_children x;
     shutdown_in_progress := shutdown_in_progress x;
     batch_disabler_count := batch_disabler_count x; environ := environ x;
     logmask := logmask x; umask := v; pending_stdout := pending_stdout x;
     pending_stderr := pending_stderr x; trace := trace x |}.
Definition with_pending_stdout (x : World) (v : option string) : World :=
  {| heap := heap x; jobs := jobs x; connections := connections x;
     next_jid := next_jid x; total_children := total_children x;
     shutdown_in_progress := shutdown_in_progress x;
     batch_disabler_count := batch_disabler_count x; environ := environ x;
     logmask := logmask x; umask := umask x; pending_stdout := v;
     pending_stderr := pending_stderr x; trace := trace x |}.
Definition with_pending_stderr (x : World) (v : option string) : World :=
  {| heap := heap x; jobs := jobs x; connections := connections x;
     next_jid := next_jid x; total_children := total_children x;
     shutdown_in_progress := shutdown_in_progress x;
     batch_disabler_count := batch_disabler_count x; environ := environ x;
     logmask := logmask x; umask := umask x;
     pending_stdout := pending_stdout x; pending_stderr := v;
     trace := trace x |}.
Definition with_trace (x : World) (v : list event) : World :=
  {| heap := heap x; jobs := jobs x; connections := connections x;
     next_jid := next_jid x; total_children := total_children x;
     shutdown_in_progress := shutdown_in_progress x;
     batch_disabler_count := batch_disabler_count x; environ := environ x;
     logmask := logmask x; umask := umask x;
     pending_stdout := pending_stdout x; pending_stderr := pending_stderr x;
     trace := v |}.

(** What the outside answers within one run of a handler: the clock, the
    results of the system calls whose outcome the code branches on, and
    the two build-time choices of launchd.h (not among the sources).
    close, fcntl, kill, write and socketpair are taken to succeed: their
    failure is only logged by assumes().  adjust_rlimits (launchd.c:2019)
    and getrusage answer with an opaque block of the outside's making.
    [fork_result] is what fork returns in the process that runs the
    handler: -1, the pid of the child, or 0 when that process is the
    child. *)
Record Env : Type := {
  time_now : Z;
  getpid : Z;
  PID1_REAP_ADOPTED_CHILDREN : bool;
  pid1_child_exit_status : Z;
  waitpid : Z -> option Z;
  fork_result : Z;
  isatty : Z -> bool;
  tcsetpgrp : Z -> Z -> Z;
  kevent_ok : kident -> kfilter -> Z -> bool;
  open_evtonly : option string -> Z;
  dir_has_files : option string -> Z;
  socketpair_fds : bool -> Z * Z;
  msg_send_errno : Z;
  adjust_rlimits_result : option launch_data -> list Z;
  getrusage_result : bool -> list Z
}.

(** *** A state monad with failure.

    [None] is a call that does not return to its caller with a defined
    state: undefined behaviour of the C program (the use of a freed job or
    of a NULL argument), a search that does not end, or a process image
    that ends in exec or _exit. *)
Definition M (A : Type) : Type := World -> option (A * World).

Definition ret {A : Type} (a : A) : M A := fun w => Some (a, w).

Definition bind {A B : Type} (c : M A) (k : A -> M B) : M B :=
  fun w => match c w with
           | None => None
           | Some (a, w') => k a w'
           end.

Definition fault {A : Type} : M A := fun _ => None.

Declare Scope launchd_scope.
Delimit Scope launchd_scope with launchd.
Notation "x <- c ;; k" := (bind c (fun x => k))
  (at level 61, c at next level, right associativity) : launchd_scope.
Notation "c ;; k" := (bind c (fun _ => k))
  (at level 61, right associativity) : launchd_scope.
Open Scope launchd_scope.

Definition get_world : M World := fun w => Some (w, w).
Definition modify (f : World -> World) : M unit := fun w => Some (tt, f w).
Definition emit (e : event) : M unit :=
  modify (fun w => with_trace w (trace w ++ [e])).
Definition when (b : bool) (c : M unit) : M unit := if b then c else ret tt.

Fixpoint mfor {A : Type} (l : list A) (body : A -> M unit) : M unit :=
  match l with
  | [] => ret tt
  | a :: t => body a ;; mfor t body
  end.

Fixpoint heap_find (h : list jobcb) (j : jobid) : option jobcb :=
  match h with
  | [] => None
  | x :: t => if Nat.eqb (jid x) j then Some x else heap_find t j
  end.

Fixpoint heap_put (h : list jobcb) (x : jobcb) : list jobcb :=
  match h with
  | [] => []
  | y :: t => if Nat.eqb (jid y) (jid x) then x :: t else y :: heap_put t x
  end.

Fixpoint heap_free (h : list jobcb) (j : jobid) : list jobcb :=
  match h with
  | [] => []
  | y :: t => if Nat.eqb (jid y) j then t else y :: heap_free t j
  end.

(** Reading and writing through a [struct jobcb *]. *)
Definition get_job (j : jobid) : M jobcb :=
  fun w => match heap_find (heap w) j with
           | Some x => Some (x, w)
           | None => None
           end.

Definition update_job (j : jobid) (f : jobcb -> jobcb) : M unit :=
  x <- get_job j ;;
  modify (fun w => with_heap w (heap_put (heap w) (f x))).

(** assumes(e): the value of [e]; a false one is logged as a bug. *)
Definition assumes (b : bool) : M bool :=
  if b then ret true else emit (E_syslog LOG_NOTICE "Bug") ;; ret false.

Definition is_null (u : kudata) : bool :=
  match u with UNull => true | _ => false end.

Definition is_proc (f : kfilter) : bool :=
  match f with EVFILT_PROC => true | _ => false end.

(** kevent_mod (launchd.c:1262): [true] when the result is not -1. *)
Definition kevent_mod (env : Env) (ident : kident) (filter : kfilter)
  (flags fflags data : Z) (udata : kudata) : M bool :=
  if negb (Z.land flags EV_ADD =? 0) && is_null udata then
    assumes false ;; ret false
  else if PID1_REAP_ADOPTED_CHILDREN env && is_proc filter
          && (getpid env =? 1) then ret true
  else
    emit (E_kevent ident filter flags fflags data udata) ;;
    ret (kevent_ok env ident filter flags).

(** _fd (launchd.c:1283) *)
Definition _fd (fd : Z) : M Z :=
  if 0 <=? fd then emit (E_cloexec fd) ;; ret fd else ret fd.

(** job_get_bool, job_get_string (launchd.c:569, 603) *)
Definition job_get_bool (j : launch_data) (key : string) : bool :=
  match launch_data_dict_lookup j key with
  | Some t => launch_data_get_bool t
  | None => false
  end.

Definition job_get_string (j : launch_data) (key : string) : option string :=
  match launch_data_dict_lookup j key with
  | Some t => launch_data_get_string t
  | None => None
  end.

(** job_log and job_log_error (launchd.c:2175, 2190): the label, a colon,
    the format string (written here without its inner quote marks). *)
Definition job_log (j : jobid) (pri : Z) (msg : string) : M unit :=
  x <- get_job j ;;
  emit (E_syslog pri (label x ++ ": " ++ msg)%string).

Definition job_log_error (j : jobid) (pri : Z) (msg : string) : M unit :=
  x <- get_job j ;;
  emit (E_syslog pri (label x ++ ": " ++ msg ++ ": %m")%string).

(** job_ignore_fds and job_ignore (launchd.c:722, 748) *)
Fixpoint job_ignore_fds (env : Env) (j : jobid) (o : launch_data) : M unit :=
  match o with
  | LD_DICTIONARY kv =>
      (fix iterate (l : list (string * launch_data)) : M unit :=
         match l with
         | [] => ret tt
         | (_, v) :: t => job_ignore_fds env j v ;; iterate t
         end) kv
  | LD_ARRAY a =>
      (fix loop (l : list launch_data) : M unit :=
         match l with
         | [] => ret tt
         | v :: t => job_ignore_fds env j v ;; loop t
         end) a
  | LD_FD fd =>
      when (negb (fd =? -1))
        (job_log j LOG_DEBUG "Ignoring FD: %d" ;;
         r <- kevent_mod env (KFd fd) EVFILT_READ EV_DELETE 0 0 UNull ;;
         _ <- assumes r ;; ret tt)
  | _ => ret tt
  end.

Definition job_ignore (env : Env) (j : jobid) : M unit :=
  x <- get_job j ;;
  match launch_data_dict_lookup (ldj x) LAUNCH_JOBKEY_SOCKETS with
  | Some j_sockets => job_ignore_fds env j j_sockets
  | None => ret tt
  end ;;
  mfor (vnodes x) (fun fd =>
    r <- kevent_mod env (KFd fd) EVFILT_VNODE EV_DELETE 0 0 UNull ;;
    _ <- assumes r ;; ret tt) ;;
  mfor (qdirs x) (fun fd =>
    r <- kevent_mod env (KFd fd) EVFILT_VNODE EV_DELETE 0 0 UNull ;;
    _ <- assumes r ;; ret tt).

Definition is_some {A : Type} (o : option A) : bool :=
  match o with Some _ => true | None => false end.

(** job_reap (launchd.c:1311).  The local [bad_exit] is threaded through
    the three places that set it. *)
Definition job_reap (env : Env) (j : jobid) : M unit :=
  x <- get_job j ;;
  let od := job_get_bool (ldj x) LAUNCH_JOBKEY_ONDEMAND in
  let td := time_now env - start_time x in
  job_log j LOG_DEBUG "Reaping" ;;
  when (negb (execfd x =? 0))
    (emit (E_close (execfd x)) ;; update_job j (fun y => set_execfd y 0)) ;;
  st <- (if PID1_REAP_ADOPTED_CHILDREN env && (getpid env =? 1)
         then ret (Some (pid1_child_exit_status env))
         else _ <- assumes (is_some (waitpid env (p x))) ;;
              ret (waitpid env (p x))) ;;
  match st with
  | None => ret tt
  | Some status =>
      let exited_bad := WIFEXITED status && negb (WEXITSTATUS status =? 0) in
      when exited_bad (job_log j LOG_WARNING "exited with exit code: %d") ;;
      let s := WTERMSIG status in
      let killed_or_term := (SIGKILL =? s) || (SIGTERM =? s) in
      when (WIFSIGNALED status)
        (if killed_or_term then job_log j LOG_NOTICE "exited: %s"
         else job_log j LOG_WARNING "exited abnormally: %s") ;;
      let bad_exit :=
        exited_bad || (WIFSIGNALED status && negb killed_or_term) in
      bad_exit <-
        (if negb od then
           if td <? LAUNCHD_MIN_JOB_RUN_TIME then
             job_log j LOG_WARNING "respawning too quickly! throttling" ;;
             update_job j (fun y => set_throttle y true) ;;
             ret true
           else if LAUNCHD_REWARD_JOB_RUN_TIME <=? td then
             job_log j LOG_INFO
               "lived long enough, forgiving past exit failures" ;;
             update_job j (fun y => set_failed_exits y 0) ;;
             ret bad_exit
           else ret bad_exit
         else ret bad_exit) ;;
      when bad_exit
        (update_job j
           (fun y => set_failed_exits y (to_size_t (failed_exits y + 1)))) ;;
      y <- get_job j ;;
      when (0 <? failed_exits y)
        (let failures_left :=
           to_int (LAUNCHD_FAILED_EXITS_THRESHOLD - failed_exits y) in
         when (negb (failures_left =? 0))
           (job_log j LOG_WARNING
              "%d more failure%s without living at least %d seconds will cause job removal")) ;;
      modify (fun w =>
                with_total_children w (to_size_t (total_children w - 1))) ;;
      update_job j (fun y => set_p y 0)
  end.

(** ipc_open (launchd.c:617) *)
Definition ipc_open (env : Env) (fd : Z) (j : option jobid) : M unit :=
  emit (E_nonblock fd) ;;
  modify (fun w =>
            with_connections w
              (connections w
               ++ [{| conn := fd; cj := j; disabled_batch := false |}])) ;;
  r <- kevent_mod env (KFd fd) EVFILT_READ EV_ADD 0 0 (UConn fd) ;;
  _ <- assumes r ;; ret tt.

(** strchr(s, '='): the bytes before the first '=' and the bytes after
    it; [None] when the string holds none (a NULL result). *)
Fixpoint split_eq (s : string) : option (string * string) :=
  match s with
  | EmptyString => None
  | String c t =>
      if Ascii.eqb c "="%char then Some (EmptyString, t)
      else match split_eq t with
           | Some (k, v) => Some (String c k, v)
           | None => None
           end
  end.

(** Does the entry [s] of environ define the name [k]: is it [k], an '=',
    and a value. *)
Definition entry_named (s k : string) : bool :=
  match split_eq s with
  | Some (n, _) => String.eqb n k
  | None => false
  end.

(** setenv(3) and unsetenv(3), which belong to libc, as Darwin's libc
    has them (its UNIX03 variant, which is also what POSIX asks for
    names): a name that is empty or holds an '=' is refused (EINVAL) and
    environ stays as it was; launchd does not look at the result.  setenv
    drops one leading '=' of the value; with a non-zero third argument it
    rewrites the first entry of the name, or adds one at the end.
    unsetenv takes every entry of the name away. *)
Definition valid_env_name (k : string) : bool :=
  negb (String.eqb k "") && negb (is_some (split_eq k)).

Definition setenv_value (v : string) : string :=
  match v with
  | String c t => if Ascii.eqb c "="%char then t else v
  | EmptyString => v
  end.

Fixpoint env_put (e : list string) (k v : string) : list string :=
  match e with
  | [] => [(k ++ "=" ++ v)%string]
  | s :: t =>
      if entry_named s k then (k ++ "=" ++ v)%string :: t
      else s :: env_put t k v
  end.

Definition setenv (k v : string) : M unit :=
  emit (E_setenv k v) ;;
  when (valid_env_name k)
    (modify (fun w =>
       with_environ w (env_put (environ w) k (setenv_value v)))).

Definition unsetenv (k : string) : M unit :=
  emit (E_unsetenv k) ;;
  when (valid_env_name k)
    (modify (fun w =>
       with_environ w
         (filter (fun s => negb (entry_named s k)) (environ w)))).

(** launch.h (not among the sources) *)
Definition LAUNCHD_TRUSTED_FD_ENV := "__LAUNCHD_FD".
Definition STDIN_FILENO : Z := 0.

(** sprintf(nbuf, "%d", n) *)
Definition decimal (n : Z) : string := NilZero.string_of_int (Z.to_int n).

(** job_start_child (launchd.c:1576) sets the attributes of the process
    and calls execv or execvp; when that fails it writes errno to
    [execfd], logs, and calls _exit.  It does not return. *)
Definition job_start_child (j : jobid) (execfd : Z) : M unit := fault.

(** job_start (launchd.c:1492) *)
Definition job_start (env : Env) (j : jobid) : M unit :=
  job_log j LOG_DEBUG "Starting" ;;
  x <- get_job j ;;
  if negb (p x =? 0) then job_log j LOG_DEBUG "already running"
  else
    update_job j (fun y => set_checkedin y false) ;;
    let sipc :=
      job_get_bool (ldj x) LAUNCH_JOBKEY_SERVICEIPC
      || is_some (launch_data_dict_lookup (ldj x)
                    LAUNCH_JOBKEY_INETDCOMPATIBILITY) in
    let spair := socketpair_fds env true in
    let execspair := socketpair_fds env false in
    let od := job_get_bool (ldj x) LAUNCH_JOBKEY_ONDEMAND in
    when sipc (emit (E_socketpair (fst spair) (snd spair))) ;;
    emit (E_socketpair (fst execspair) (snd execspair)) ;;
    update_job j (fun y => set_start_time y (time_now env)) ;;
    emit E_fork ;;
    let c := fork_result env in
    if c =? -1 then
      job_log_error j LOG_ERR "fork() failed, will try again in one second" ;;
      emit (E_close (fst execspair)) ;;
      emit (E_close (snd execspair)) ;;
      when sipc (emit (E_close (fst spair)) ;; emit (E_close (snd spair))) ;;
      when od (job_ignore env j)
    else if c =? 0 then
      emit (E_close (fst execspair)) ;;
      fd <- _fd (snd execspair) ;;
      emit (E_read fd) ;;
      when (firstborn x)
        (emit (E_setpgid (getpid env) (getpid env)) ;;
         when (isatty env STDIN_FILENO)
           (emit (E_tcsetpgrp STDIN_FILENO (getpid env)) ;;
            when (tcsetpgrp env STDIN_FILENO (getpid env) =? -1)
              (job_log_error j LOG_WARNING "tcsetpgrp()"))) ;;
      when sipc
        (emit (E_close (fst spair)) ;;
         setenv LAUNCHD_TRUSTED_FD_ENV (decimal (snd spair))) ;;
      job_start_child j (snd execspair)
    else
      emit (E_close (snd execspair)) ;;
      fd <- _fd (fst execspair) ;;
      update_job j (fun y => set_execfd y fd) ;;
      when sipc
        (emit (E_close (snd spair)) ;;
         fd' <- _fd (fst spair) ;;
         ipc_open env fd' (Some j)) ;;
      r <- kevent_mod env (KFd fd) EVFILT_READ EV_ADD 0 0 (UJob j) ;;
      _ <- assumes r ;;
      r <- kevent_mod env (KPid c) EVFILT_PROC EV_ADD NOTE_EXIT 0 (UJob j) ;;
      ok <- assumes r ;;
      (if ok then
         update_job j (fun y => set_p y c) ;;
         modify (fun w =>
                   with_total_children w (to_size_t (total_children w + 1))) ;;
         when od (job_ignore env j)
       else job_reap env j) ;;
      y <- get_job j ;;
      emit (E_write (execfd y))
    .

(** job_watch_fds (launchd.c:764) *)
Fixpoint job_watch_fds (env : Env) (j : jobid) (o : launch_data) : M unit :=
  match o with
  | LD_DICTIONARY kv =>
      (fix iterate (l : list (string * launch_data)) : M unit :=
         match l with
         | [] => ret tt
         | (_, v) :: t => job_watch_fds env j v ;; iterate t
         end) kv
  | LD_ARRAY a =>
      (fix loop (l : list launch_data) : M unit :=
         match l with
         | [] => ret tt
         | v :: t => job_watch_fds env j v ;; loop t
         end) a
  | LD_FD fd =>
      when (negb (fd =? -1))
        (job_log j LOG_DEBUG "Watching FD: %d" ;;
         r <- kevent_mod env (KFd fd) EVFILT_READ EV_ADD 0 0 (UJob j) ;;
         _ <- assumes r ;; ret tt)
  | _ => ret tt
  end.

(** The string at index [i] of an array that may be absent. *)
Definition path_at (o : option launch_data) (i : nat) : option string :=
  match o with
  | Some a =>
      match launch_data_array_get_index a i with
      | Some e => launch_data_get_string e
      | None => None
      end
  | None => None
  end.

Fixpoint list_set (l : list Z) (i : nat) (v : Z) : list Z :=
  match l, i with
  | [], _ => []
  | _ :: t, O => v :: t
  | h :: t, S i' => h :: list_set t i' v
  end.

Definition VNODE_WATCH_FLAGS : Z :=
  Z.lor NOTE_WRITE (Z.lor NOTE_EXTEND (Z.lor NOTE_DELETE
    (Z.lor NOTE_RENAME (Z.lor NOTE_REVOKE (Z.lor NOTE_ATTRIB NOTE_LINK))))).
Definition QDIR_WATCH_FLAGS : Z :=
  Z.lor NOTE_WRITE (Z.lor NOTE_EXTEND (Z.lor NOTE_ATTRIB NOTE_LINK)).

(** The last loop of job_watch: the first queue directory with entries
    starts the job and ends the loop. *)
Fixpoint job_watch_probe (env : Env) (j : jobid) (start : M unit)
  (ld_qdirs : option launch_data) (idx : list nat) : M unit :=
  match idx with
  | [] => ret tt
  | i :: t =>
      let thepath := path_at ld_qdirs i in
      let dcc_r := dir_has_files env thepath in
      if dcc_r =? -1 then
        job_log_error j LOG_ERR "dir_has_files(%s, ...)" ;;
        job_watch_probe env j start ld_qdirs t
      else
        w <- get_world ;;
        if (0 <? dcc_r) && negb (shutdown_in_progress w) then start
        else job_watch_probe env j start ld_qdirs t
  end.

(** job_watch (launchd.c:790) *)
Definition job_watch (env : Env) (j : jobid) : M unit :=
  x <- get_job j ;;
  let ld_qdirs :=
    launch_data_dict_lookup (ldj x) LAUNCH_JOBKEY_QUEUEDIRECTORIES in
  let ld_vnodes := launch_data_dict_lookup (ldj x) LAUNCH_JOBKEY_WATCHPATHS in
  match launch_data_dict_lookup (ldj x) LAUNCH_JOBKEY_SOCKETS with
  | Some j_sockets => job_watch_fds env j j_sockets
  | None => ret tt
  end ;;
  mfor (seq 0 (List.length (vnodes x))) (fun i =>
    y <- get_job j ;;
    when (nth i (vnodes y) 0 =? -1)
      (let thepath := path_at ld_vnodes i in
       emit (E_open thepath) ;;
       fd <- _fd (open_evtonly env thepath) ;;
       update_job j (fun z => set_vnodes z (list_set (vnodes z) i fd)) ;;
       when (fd =? -1) (job_log_error j LOG_ERR "open(%s, O_EVTONLY)")) ;;
    y <- get_job j ;;
    r <- kevent_mod env (KFd (nth i (vnodes y) 0)) EVFILT_VNODE
           (Z.lor EV_ADD EV_CLEAR) VNODE_WATCH_FLAGS 0 (UJob j) ;;
    _ <- assumes r ;; ret tt) ;;
  mfor (qdirs x) (fun fd =>
    r <- kevent_mod env (KFd fd) EVFILT_VNODE
           (Z.lor EV_ADD EV_CLEAR) QDIR_WATCH_FLAGS 0 (UJob j) ;;
    _ <- assumes r ;; ret tt) ;;
  job_watch_probe env j (job_start env j) ld_qdirs
    (seq 0 (List.length (qdirs x))).

(** job_stop (launchd.c:832) *)
Definition job_stop (j : jobid) : M unit :=
  x <- get_job j ;;
  when (negb (p x =? 0)) (emit (E_kill (p x) SIGTERM)).

(** launch_data_close_fds and launch_data_revoke_fds (launchd.c:681, 702).
    Revoking rewrites the tree in place: the function returns the tree
    that is left. *)
Fixpoint launch_data_close_fds (o : launch_data) : M unit :=
  match o with
  | LD_DICTIONARY kv =>
      (fix iterate (l : list (string * launch_data)) : M unit :=
         match l with
         | [] => ret tt
         | (_, v) :: t => launch_data_close_fds v ;; iterate t
         end) kv
  | LD_ARRAY a =>
      (fix loop (l : list launch_data) : M unit :=
         match l with
         | [] => ret tt
         | v :: t => launch_data_close_fds v ;; loop t
         end) a
  | LD_FD fd => when (negb (fd =? -1)) (emit (E_close fd))
  | _ => ret tt
  end.

Fixpoint launch_data_revoke_fds (o : launch_data) : launch_data :=
  match o with
  | LD_DICTIONARY kv =>
      LD_DICTIONARY
        ((fix iterate (l : list (string * launch_data)) :=
            match l with
            | [] => []
            | (k, v) :: t => (k, launch_data_revoke_fds v) :: iterate t
            end) kv)
  | LD_ARRAY a =>
      LD_ARRAY
        ((fix loop (l : list launch_data) :=
            match l with
            | [] => []
            | v :: t => launch_data_revoke_fds v :: loop t
            end) a)
  | LD_FD _ => LD_FD (-1)
  | other => other
  end.

(** launch_data_dict_iterate with a callback that only acts on the
    outside. *)
Definition dict_entries (d : launch_data) : list (string * launch_data) :=
  match d with LD_DICTIONARY kv => kv | _ => [] end.

(** setup_job_env, unsetup_job_env (launchd.c:1299, 1305) *)
Definition setup_job_env (e : string * launch_data) : M unit :=
  match snd e with LD_STRING v => setenv (fst e) v | _ => ret tt end.

Definition unsetup_job_env (e : string * launch_data) : M unit :=
  match snd e with LD_STRING _ => unsetenv (fst e) | _ => ret tt end.

Definition remove_jid (l : list jobid) (j : jobid) : list jobid :=
  filter (fun k => negb (Nat.eqb k j)) l.

(** job_remove (launchd.c:838): off the queue first, freed last. *)
Definition job_remove (env : Env) (j : jobid) : M unit :=
  job_log j LOG_DEBUG "Removed" ;;
  modify (fun w => with_jobs w (remove_jid (jobs w) j)) ;;
  x <- get_job j ;;
  when (negb (p x =? 0))
    (r <- kevent_mod env (KPid (p x)) EVFILT_PROC EV_ADD NOTE_EXIT 0
            UZombieReaper ;;
     if negb r then job_reap env j else job_stop j) ;;
  x <- get_job j ;;
  match launch_data_dict_lookup (ldj x)
          LAUNCH_JOBKEY_USERENVIRONMENTVARIABLES with
  | Some tmp => mfor (dict_entries tmp) unsetup_job_env
  | None => ret tt
  end ;;
  launch_data_close_fds (ldj x) ;;
  when (negb (execfd x =? 0)) (emit (E_close (execfd x))) ;;
  mfor (vnodes x) (fun fd => when (negb (fd =? -1)) (emit (E_close fd))) ;;
  mfor (qdirs x) (fun fd => when (negb (fd =? -1)) (emit (E_close fd))) ;;
  when (negb (start_interval x =? 0))
    (r <- kevent_mod env (KStartInterval j) EVFILT_TIMER EV_DELETE 0 0 UNull ;;
     _ <- assumes r ;; ret tt) ;;
  when (is_some (start_cal_interval x))
    (r <- kevent_mod env (KCalInterval j) EVFILT_TIMER EV_DELETE 0 0 UNull ;;
     _ <- assumes r ;; ret tt) ;;
  _ <- kevent_mod env (KJob j) EVFILT_TIMER EV_DELETE 0 0 UNull ;;
  modify (fun w => with_heap w (heap_free (heap w) j)).

(** do_shutdown (launchd.c:1760) *)
Definition do_shutdown (env : Env) : M unit :=
  modify (fun w => with_shutdown_in_progress w true) ;;
  r <- kevent_mod env KAsyncKq EVFILT_READ EV_DISABLE 0 0 UAsync ;;
  _ <- assumes r ;;
  w <- get_world ;;
  mfor (jobs w) job_stop ;;
  when (getpid env =? 1) (emit E_pid1_shutdown).


(** job_set_alarm (launchd.c:2123).  A cron search that does not end makes
    the handler not end: [fault]. *)
Definition job_set_alarm (env : Env) (j : jobid) : M unit :=
  x <- get_job j ;;
  match start_cal_interval x with
  | None => fault
  | Some sci =>
      match cronemu cron_fuel (tm_mon sci) (tm_mday sci) (tm_hour sci)
              (tm_min sci) (time_now env) with
      | None => fault
      | Some later =>
          later <-
            (if negb (tm_wday sci =? -1) then
               match cronemu_wday cron_fuel (tm_wday sci) (tm_hour sci)
                       (tm_min sci) (time_now env) with
               | None => fault
               | Some otherlater =>
                   if negb (-1 =? tm_mday sci) then
                     ret (if later <? otherlater then later else otherlater)
                   else ret otherlater
               end
             else ret later) ;;
          r <- kevent_mod env (KCalInterval j) EVFILT_TIMER EV_ADD
                 (Z.lor NOTE_ABSOLUTE NOTE_SECONDS) later (UJob j) ;;
          if negb r then job_log_error j LOG_ERR "adding kevent alarm"
          else job_log j LOG_INFO "scheduled to run again at: %s"
      end
  end.


(** setlogmask(3): returns the old mask; a zero argument changes nothing. *)
Definition setlogmask (m : Z) : M Z :=
  w <- get_world ;;
  when (negb (m =? 0)) (modify (fun w => with_logmask w m)) ;;
  ret (logmask w).

Definition ident_fd (i : kident) : option Z :=
  match i with KFd fd => Some fd | _ => None end.






(** The TAILQ_FOREACH of load_job: is the label on the queue? *)
Fixpoint label_loaded (l : list jobid) (lbl : string) : M bool :=
  match l with
  | [] => ret false
  | k :: t =>
      y <- get_job k ;;
      if String.eqb (label y) lbl then ret true else label_loaded t lbl
  end.

(** calloc(1, sizeof(struct jobcb) + ...) followed by the copy of the
    label and of the description. *)
Definition new_jobcb (j : jobid) (lbl : string) (d : launch_data) : jobcb :=
  {| jid := j; label := lbl; ldj := d; p := 0; execfd := 0; start_time := 0;
     failed_exits := 0; vnodes := []; qdirs := []; start_interval := 0;
     start_cal_interval := None; checkedin := false; firstborn := false;
     debug := false; throttle := false |}.

Definition cal_field (d : launch_data) (key : string) : Z :=
  match launch_data_dict_lookup d key with
  | Some tmp_k => to_int (launch_data_get_integer tmp_k)
  | None => -1
  end.

(** The calendar structure load_job builds (launchd.c:1177-1195). *)
Definition cal_interval_of (tmp : launch_data) : tm :=
  match tmp with
  | LD_DICTIONARY _ =>
      {| tm_sec := 0;
         tm_min := cal_field tmp LAUNCH_JOBKEY_CAL_MINUTE;
         tm_hour := cal_field tmp LAUNCH_JOBKEY_CAL_HOUR;
         tm_mday := cal_field tmp LAUNCH_JOBKEY_CAL_DAY;
         tm_mon := cal_field tmp LAUNCH_JOBKEY_CAL_MONTH;
         tm_year := 0;
         tm_wday := cal_field tmp LAUNCH_JOBKEY_CAL_WEEKDAY;
         tm_yday := 0; tm_isdst := 0 |}
  | _ =>
      {| tm_sec := 0; tm_min := -1; tm_hour := -1; tm_mday := -1;
         tm_mon := -1; tm_year := 0; tm_wday := -1; tm_yday := 0;
         tm_isdst := 0 |}
  end.

(** load_job (launchd.c:1098).  The result is the response and the
    submitted description as the call leaves it (its descriptors revoked
    once they belong to the job). *)
Definition load_job (env : Env) (pload : launch_data)
  : M (launch_data * launch_data) :=
  match job_get_string pload LAUNCH_JOBKEY_LABEL with
  | None => ret (launch_data_new_errno EINVAL, pload)
  | Some lbl =>
      w <- get_world ;;
      dup <- label_loaded (jobs w) lbl ;;
      if dup then ret (launch_data_new_errno EEXIST, pload)
      else
        let hasprog :=
          is_some (launch_data_dict_lookup pload LAUNCH_JOBKEY_PROGRAM) in
        let hasprogargs :=
          is_some (launch_data_dict_lookup pload
                     LAUNCH_JOBKEY_PROGRAMARGUMENTS) in
        if negb hasprog && negb hasprogargs then
          ret (launch_data_new_errno EINVAL, pload)
        else
          let j := next_jid w in
          modify (fun w =>
            with_next_jid
              (with_heap w (heap w ++ [new_jobcb j lbl (launch_data_copy pload)]))
              (S (next_jid w))) ;;
          let pload' := launch_data_revoke_fds pload in
          x <- get_job j ;;
          when (negb (is_some (launch_data_dict_lookup (ldj x)
                                 LAUNCH_JOBKEY_ONDEMAND)))
            (update_job j (fun y =>
               set_ldj y (launch_data_dict_insert (ldj y)
                            (launch_data_new_bool true)
                            LAUNCH_JOBKEY_ONDEMAND))) ;;
          modify (fun w => with_jobs w (jobs w ++ [j])) ;;
          x <- get_job j ;;
          update_job j (fun y =>
            set_debug y (job_get_bool (ldj x) LAUNCH_JOBKEY_DEBUG)) ;;
          let startnow :=
            negb (job_get_bool (ldj x) LAUNCH_JOBKEY_ONDEMAND)
            || job_get_bool (ldj x) LAUNCH_JOBKEY_RUNATLOAD in
          match launch_data_dict_lookup (ldj x)
                  LAUNCH_JOBKEY_QUEUEDIRECTORIES with
          | Some tmp =>
              mfor (seq 0 (launch_data_array_get_count tmp)) (fun i =>
                let thepath := path_at (Some tmp) i in
                emit (E_open thepath) ;;
                fd <- _fd (open_evtonly env thepath) ;;
                update_job j (fun y => set_qdirs y (qdirs y ++ [fd])) ;;
                when (-1 =? fd)
                  (job_log_error j LOG_ERR "open(%s, O_EVTONLY)"))
          | None => ret tt
          end ;;
          match launch_data_dict_lookup (ldj x)
                  LAUNCH_JOBKEY_STARTINTERVAL with
          | Some tmp =>
              let si := to_uint (launch_data_get_integer tmp) in
              update_job j (fun y => set_start_interval y si) ;;
              if si =? 0 then
                job_log j LOG_WARNING "StartInterval is zero, ignoring"
              else
                r <- kevent_mod env (KStartInterval j) EVFILT_TIMER EV_ADD
                       NOTE_SECONDS si (UJob j) ;;
                _ <- assumes r ;; ret tt
          | None => ret tt
          end ;;
          match launch_data_dict_lookup (ldj x)
                  LAUNCH_JOBKEY_STARTCALENDARINTERVAL with
          | Some tmp =>
              update_job j (fun y =>
                set_start_cal_interval y (Some (cal_interval_of tmp))) ;;
              job_set_alarm env j
          | None => ret tt
          end ;;
          match launch_data_dict_lookup (ldj x) LAUNCH_JOBKEY_WATCHPATHS with
          | Some tmp =>
              mfor (seq 0 (launch_data_array_get_count tmp)) (fun i =>
                let thepath := path_at (Some tmp) i in
                emit (E_open thepath) ;;
                fd <- _fd (open_evtonly env thepath) ;;
                update_job j (fun y => set_vnodes y (vnodes y ++ [fd])) ;;
                _ <- assumes (negb (fd =? -1)) ;; ret tt)
          | None => ret tt
          end ;;
          match launch_data_dict_lookup (ldj x)
                  LAUNCH_JOBKEY_USERENVIRONMENTVARIABLES with
          | Some tmp => mfor (dict_entries tmp) setup_job_env
          | None => ret tt
          end ;;
          when (job_get_bool (ldj x) LAUNCH_JOBKEY_ONDEMAND)
            (job_watch env j) ;;
          when startnow (job_start env j) ;;
          ret (launch_data_new_errno 0, pload')
  end.

(** get_jobs (launchd.c:1228) *)
Fixpoint get_jobs_which (l : list jobid) (which : string)
  (resp : option launch_data) : M (option launch_data) :=
  match l with
  | [] => ret resp
  | k :: t =>
      y <- get_job k ;;
      get_jobs_which t which
        (if String.eqb which (label y) then Some (launch_data_copy (ldj y))
         else resp)
  end.

Fixpoint get_jobs_all (l : list jobid) (resp : launch_data) : M launch_data :=
  match l with
  | [] => ret resp
  | k :: t =>
      y <- get_job k ;;
      get_jobs_all t
        (launch_data_dict_insert resp (launch_data_copy (ldj y)) (label y))
  end.

Definition get_jobs (which : option string) : M launch_data :=
  w <- get_world ;;
  match which with
  | Some s =>
      r <- get_jobs_which (jobs w) s None ;;
      match r with
      | Some resp => ret resp
      | None => ret (launch_data_new_errno ESRCH)
      end
  | None => get_jobs_all (jobs w) (LD_DICTIONARY [])
  end.

(** Reading through [struct conncb *]. *)
Fixpoint conn_find (l : list conncb) (fd : Z) : option conncb :=
  match l with
  | [] => None
  | c :: t => if conn c =? fd then Some c else conn_find t fd
  end.

Definition get_conn (fd : Z) : M conncb :=
  fun w => match conn_find (connections w) fd with
           | Some c => Some (c, w)
           | None => None
           end.

Definition set_conn_disabled_batch (fd : Z) (b : bool) : M unit :=
  modify (fun w =>
    with_connections w
      (map (fun c => if conn c =? fd
                     then {| conn := conn c; cj := cj c; disabled_batch := b |}
                     else c) (connections w))).

(** batch_job_enable (launchd.c:1083) *)
Definition batch_job_enable (env : Env) (e : bool) (cfd : Z) : M unit :=
  c <- get_conn cfd ;;
  w <- get_world ;;
  if e && disabled_batch c then
    modify (fun w =>
      with_batch_disabler_count w (to_int (batch_disabler_count w - 1))) ;;
    set_conn_disabled_batch cfd false ;;
    w' <- get_world ;;
    when (batch_disabler_count w' =? 0)
      (r <- kevent_mod env KAsyncKq EVFILT_READ EV_ENABLE 0 0 UAsync ;;
       _ <- assumes r ;; ret tt)
  else if negb e && negb (disabled_batch c) then
    when (batch_disabler_count w =? 0)
      (r <- kevent_mod env KAsyncKq EVFILT_READ EV_DISABLE 0 0 UAsync ;;
       _ <- assumes r ;; ret tt) ;;
    modify (fun w =>
      with_batch_disabler_count w (to_int (batch_disabler_count w + 1))) ;;
    set_conn_disabled_batch cfd true
  else ret tt.

(** ipc_close (launchd.c:1290) *)
Definition ipc_close (env : Env) (cfd : Z) : M unit :=
  batch_job_enable env true cfd ;;
  modify (fun w =>
    with_connections w
      (filter (fun c => negb (conn c =? cfd)) (connections w))) ;;
  emit (E_close cfd).

(** The search loop of attach_bonjourfds_to_job: the first job with the
    label. *)
Fixpoint first_with_label (l : list jobid) (key : string) : M (option jobid) :=
  match l with
  | [] => ret None
  | k :: t =>
      y <- get_job k ;;
      if String.eqb (label y) key then ret (Some k)
      else first_with_label t key
  end.

(** attach_bonjourfds_to_job (launchd.c:912): returns the value as the
    call leaves it. *)
Definition attach_bonjourfds_to_job (o : launch_data) (key : string)
  : M launch_data :=
  w <- get_world ;;
  f <- first_with_label (jobs w) key ;;
  match f with
  | None => ret o
  | Some j =>
      update_job j (fun y =>
        set_ldj y (launch_data_dict_insert (ldj y) (launch_data_copy o)
                     LAUNCH_JOBKEY_BONJOURFDS)) ;;
      ret (launch_data_revoke_fds o)
  end.

Fixpoint attach_bonjourfds_all (kv : list (string * launch_data))
  : M (list (string * launch_data)) :=
  match kv with
  | [] => ret []
  | (k, o) :: t =>
      o' <- attach_bonjourfds_to_job o k ;;
      t' <- attach_bonjourfds_all t ;;
      ret ((k, o') :: t')
  end.

Definition STDOUT_FILENO : Z := 1.
Definition STDERR_FILENO : Z := 2.

(** setstdio (launchd.c:1063) *)
Definition setstdio (d : Z) (o : launch_data) : M launch_data :=
  match o with
  | LD_STRING s =>
      modify (fun w =>
        if d =? STDOUT_FILENO then with_pending_stdout w (Some s)
        else with_pending_stderr w (Some s)) ;;
      ret (launch_data_new_errno 0)
  | LD_FD fd => emit (E_dup2 fd d) ;; ret (launch_data_new_errno 0)
  | _ => ret (launch_data_new_errno EINVAL)
  end.

(** A handler that reads its argument without a NULL test faults when the
    command came as a bare string. *)
Definition arg (data : option launch_data) : M launch_data :=
  match data with Some d => ret d | None => fault end.

(** strcmp against launch_data_get_string(data): NULL when [data] is not a
    string. *)
Definition string_arg (data : option launch_data) : M string :=
  d <- arg data ;;
  match launch_data_get_string d with Some s => ret s | None => fault end.

(** The three loops over the queue that act on the jobs whose label is the
    argument (launchd.c:939, 948, 957).  TAILQ_FOREACH takes the next
    element from the [tqe] field of the current job after the body has
    run: a body that freed the job (job_remove) makes that the read of a
    freed object. *)
Fixpoint for_jobs_labelled (l : list jobid) (data : option launch_data)
  (action : jobid -> M unit) (resp : option launch_data)
  : M (option launch_data) :=
  match l with
  | [] => ret resp
  | k :: t =>
      y <- get_job k ;;
      s <- string_arg data ;;
      resp <- (if String.eqb (label y) s then
                 action k ;; ret (Some (launch_data_new_errno 0))
               else ret resp) ;;
      _ <- get_job k ;;
      for_jobs_labelled t data action resp
  end.

Definition errno_or_esrch (r : option launch_data) : launch_data :=
  match r with Some resp => resp | None => launch_data_new_errno ESRCH end.

(** umask(2), which belongs to the kernel: Darwin keeps the bits of
    ALLPERMS (07777) of its argument; the call returns the old mask.  The
    long long of launch_data_get_integer reaches it as a mode_t, whose 16
    bits hold all of ALLPERMS. *)
Definition ALLPERMS : Z := 4095.

Definition do_umask (m : Z) : M Z :=
  w <- get_world ;;
  modify (fun w => with_umask w (Z.land m ALLPERMS)) ;;
  ret (umask w).

(** The body of the SubmitJob loop over an array of descriptions. *)
Fixpoint load_jobs (env : Env) (l : list launch_data)
  : M (list launch_data * list launch_data) :=
  match l with
  | [] => ret ([], [])
  | d :: t =>
      r <- load_job env d ;;
      rs <- load_jobs env t ;;
      ret (fst r :: fst rs, snd r :: snd rs)
  end.

(** One round of the loop of GetUserEnvironment (launchd.c:986-992): the
    value is what follows the first '=' of the entry; the key is cut at
    the first '=' found in [envkey], which strncpy filled with the first
    1024 bytes of the entry and did not terminate when the entry is
    longer.  An entry with no '=', or with none among its first 1024
    bytes, sends strchr past the end of a string. *)
Definition user_env_entry (s : string) : M (string * string) :=
  match split_eq s with
  | None => fault
  | Some (k, v) =>
      if (String.length k <? 1024)%nat then ret (k, v) else fault
  end.

(** The dictionary GetUserEnvironment builds from environ. *)
Fixpoint environ_dict (e : list string) (resp : launch_data)
  : M launch_data :=
  match e with
  | [] => ret resp
  | s :: t =>
      kv <- user_env_entry s ;;
      environ_dict t (launch_data_dict_insert resp (LD_STRING (snd kv))
                        (fst kv))
  end.

(** The commands ipc_readmsg2 knows, in the order of its strcmp chain. *)
Inductive verb : Type :=
| V_STARTJOB | V_STOPJOB | V_REMOVEJOB | V_SUBMITJOB | V_WORKAROUNDBONJOUR
| V_UNSETUSERENVIRONMENT | V_GETUSERENVIRONMENT | V_SETUSERENVIRONMENT
| V_CHECKIN | V_RELOADTTYS | V_SHUTDOWN | V_GETJOBS | V_GETRESOURCELIMITS
| V_SETRESOURCELIMITS | V_GETJOB | V_GETJOBWITHHANDLES | V_SETLOGMASK
| V_GETLOGMASK | V_SETUMASK | V_GETUMASK | V_GETRUSAGESELF
| V_GETRUSAGECHILDREN | V_SETSTDOUT | V_SETSTDERR | V_BATCHCONTROL
| V_BATCHQUERY.

Definition verb_table : list (string * verb) :=
  [ (LAUNCH_KEY_STARTJOB, V_STARTJOB); (LAUNCH_KEY_STOPJOB, V_STOPJOB);
    (LAUNCH_KEY_REMOVEJOB, V_REMOVEJOB); (LAUNCH_KEY_SUBMITJOB, V_SUBMITJOB);
    (LAUNCH_KEY_WORKAROUNDBONJOUR, V_WORKAROUNDBONJOUR);
    (LAUNCH_KEY_UNSETUSERENVIRONMENT, V_UNSETUSERENVIRONMENT);
    (LAUNCH_KEY_GETUSERENVIRONMENT, V_GETUSERENVIRONMENT);
    (LAUNCH_KEY_SETUSERENVIRONMENT, V_SETUSERENVIRONMENT);
    (LAUNCH_KEY_CHECKIN, V_CHECKIN); (LAUNCH_KEY_RELOADTTYS, V_RELOADTTYS);
    (LAUNCH_KEY_SHUTDOWN, V_SHUTDOWN); (LAUNCH_KEY_GETJOBS, V_GETJOBS);
    (LAUNCH_KEY_GETRESOURCELIMITS, V_GETRESOURCELIMITS);
    (LAUNCH_KEY_SETRESOURCELIMITS, V_SETRESOURCELIMITS);
    (LAUNCH_KEY_GETJOB, V_GETJOB);
    (LAUNCH_KEY_GETJOBWITHHANDLES, V_GETJOBWITHHANDLES);
    (LAUNCH_KEY_SETLOGMASK, V_SETLOGMASK);
    (LAUNCH_KEY_GETLOGMASK, V_GETLOGMASK);
    (LAUNCH_KEY_SETUMASK, V_SETUMASK); (LAUNCH_KEY_GETUMASK, V_GETUMASK);
    (LAUNCH_KEY_GETRUSAGESELF, V_GETRUSAGESELF);
    (LAUNCH_KEY_GETRUSAGECHILDREN, V_GETRUSAGECHILDREN);
    (LAUNCH_KEY_SETSTDOUT, V_SETSTDOUT); (LAUNCH_KEY_SETSTDERR, V_SETSTDERR);
    (LAUNCH_KEY_BATCHCONTROL, V_BATCHCONTROL);
    (LAUNCH_KEY_BATCHQUERY, V_BATCHQUERY) ].

(** The chain [if (!strcmp(cmd, ...)) ... else if (!strcmp(cmd, ...)) ...]:
    the first entry that compares equal. *)
Fixpoint first_strcmp (t : list (string * verb)) (cmd : string)
  : option verb :=
  match t with
  | [] => None
  | (k, v) :: rest =>
      if String.eqb cmd k then Some v else first_strcmp rest cmd
  end.

Definition verb_of_cmd (cmd : string) : option verb :=
  first_strcmp verb_table cmd.

(** The branches of ipc_readmsg2 (launchd.c:938-1058): the response, and
    the argument as the branch leaves it. *)
Definition handler (env : Env) (v : verb) (data : option launch_data)
  (cfd : Z) : M (launch_data * option launch_data) :=
  match v with
  | V_STARTJOB =>
      w <- get_world ;;
      r <- for_jobs_labelled (jobs w) data (job_start env) None ;;
      ret (errno_or_esrch r, data)
  | V_STOPJOB =>
      w <- get_world ;;
      r <- for_jobs_labelled (jobs w) data job_stop None ;;
      ret (errno_or_esrch r, data)
  | V_REMOVEJOB =>
      w <- get_world ;;
      r <- for_jobs_labelled (jobs w) data (job_remove env) None ;;
      ret (errno_or_esrch r, data)
  | V_SUBMITJOB =>
      d <- arg data ;;
      match d with
      | LD_ARRAY a =>
          rs <- load_jobs env a ;;
          ret (LD_ARRAY (fst rs), Some (LD_ARRAY (snd rs)))
      | _ =>
          r <- load_job env d ;;
          ret (fst r, Some (snd r))
      end
  | V_WORKAROUNDBONJOUR =>
      d <- arg data ;;
      match d with
      | LD_DICTIONARY kv =>
          kv' <- attach_bonjourfds_all kv ;;
          ret (launch_data_new_errno 0, Some (LD_DICTIONARY kv'))
      | _ => ret (launch_data_new_errno 0, data)
      end
  | V_UNSETUSERENVIRONMENT =>
      d <- arg data ;;
      match launch_data_get_string d with
      | Some s => unsetenv s
      | None => ret tt
      end ;;
      ret (launch_data_new_errno 0, data)
  | V_GETUSERENVIRONMENT =>
      w <- get_world ;;
      resp <- environ_dict (environ w) (LD_DICTIONARY []) ;;
      ret (resp, data)
  | V_SETUSERENVIRONMENT =>
      d <- arg data ;;
      mfor (dict_entries d) (fun e =>
        match launch_data_get_string (snd e) with
        | Some s => setenv (fst e) s
        | None => fault
        end) ;;
      ret (launch_data_new_errno 0, data)
  | V_CHECKIN =>
      c <- get_conn cfd ;;
      match cj c with
      | Some j =>
          x <- get_job j ;;
          let resp := launch_data_copy (ldj x) in
          let resp :=
            if is_some (launch_data_dict_lookup resp LAUNCH_JOBKEY_TIMEOUT)
            then resp
            else launch_data_dict_insert resp
                   (launch_data_new_integer LAUNCHD_MIN_JOB_RUN_TIME)
                   LAUNCH_JOBKEY_TIMEOUT in
          update_job j (fun y => set_checkedin y true) ;;
          ret (resp, data)
      | None => ret (launch_data_new_errno EACCES, data)
      end
  | V_RELOADTTYS =>
      emit E_update_ttys ;; ret (launch_data_new_errno 0, data)
  | V_SHUTDOWN =>
      do_shutdown env ;; ret (launch_data_new_errno 0, data)
  | V_GETJOBS =>
      r <- get_jobs None ;; ret (launch_data_revoke_fds r, data)
  | V_GETRESOURCELIMITS =>
      ret (LD_OPAQUE (adjust_rlimits_result env None), data)
  | V_SETRESOURCELIMITS =>
      ret (LD_OPAQUE (adjust_rlimits_result env data), data)
  | V_GETJOB =>
      d <- arg data ;;
      r <- get_jobs (launch_data_get_string d) ;;
      ret (launch_data_revoke_fds r, data)
  | V_GETJOBWITHHANDLES =>
      d <- arg data ;;
      r <- get_jobs (launch_data_get_string d) ;;
      ret (r, data)
  | V_SETLOGMASK =>
      d <- arg data ;;
      m <- setlogmask (to_int (launch_data_get_integer d)) ;;
      ret (launch_data_new_integer m, data)
  | V_GETLOGMASK =>
      oldmask <- setlogmask (LOG_UPTO LOG_DEBUG) ;;
      _ <- setlogmask oldmask ;;
      ret (launch_data_new_integer oldmask, data)
  | V_SETUMASK =>
      d <- arg data ;;
      m <- do_umask (launch_data_get_integer d) ;;
      ret (launch_data_new_integer m, data)
  | V_GETUMASK =>
      oldmask <- do_umask 0 ;;
      _ <- do_umask oldmask ;;
      ret (launch_data_new_integer oldmask, data)
  | V_GETRUSAGESELF => ret (LD_OPAQUE (getrusage_result env true), data)
  | V_GETRUSAGECHILDREN => ret (LD_OPAQUE (getrusage_result env false), data)
  | V_SETSTDOUT =>
      d <- arg data ;; r <- setstdio STDOUT_FILENO d ;; ret (r, data)
  | V_SETSTDERR =>
      d <- arg data ;; r <- setstdio STDERR_FILENO d ;; ret (r, data)
  | V_BATCHCONTROL =>
      d <- arg data ;;
      batch_job_enable env (launch_data_get_bool d) cfd ;;
      ret (launch_data_new_errno 0, data)
  | V_BATCHQUERY =>
      w <- get_world ;;
      ret (launch_data_new_bool (batch_disabler_count w =? 0), data)
  end.

(** ipc_readmsg2 (launchd.c:929): [resp] is rmc->resp on entry; the result
    is rmc->resp on return and the argument as the call leaves it. *)
Definition ipc_readmsg2 (env : Env) (data : option launch_data)
  (cmd : string) (cfd : Z) (resp : option launch_data)
  : M (option launch_data * option launch_data) :=
  if is_some resp then ret (resp, data)
  else
    match verb_of_cmd cmd with
    | Some v =>
        r <- handler env v data cfd ;;
        ret (Some (fst r), snd r)
    | None => ret (None, data)
    end.

(** launch_data_dict_iterate(msg, ipc_readmsg2, &rmc) *)
Fixpoint ipc_readmsg_iterate (env : Env) (kv : list (string * launch_data))
  (cfd : Z) (resp : option launch_data)
  : M (option launch_data * list (string * launch_data)) :=
  match kv with
  | [] => ret (resp, [])
  | (k, v) :: t =>
      r <- ipc_readmsg2 env (Some v) k cfd resp ;;
      rs <- ipc_readmsg_iterate env t cfd (fst r) ;;
      ret (fst rs,
           (k, match snd r with Some v' => v' | None => v end) :: snd rs)
  end.

(** The first half of ipc_readmsg (launchd.c:884-897): the response, and
    the message as the handlers leave it. *)
Definition ipc_readmsg_resp (env : Env) (msg : launch_data) (cfd : Z)
  : M (launch_data * launch_data) :=
  r <- match msg with
       | LD_DICTIONARY kv =>
           rs <- ipc_readmsg_iterate env kv cfd None ;;
           ret (fst rs, LD_DICTIONARY (snd rs))
       | LD_STRING s =>
           r <- ipc_readmsg2 env None s cfd None ;;
           ret (fst r, msg)
       | _ => ret (Some (launch_data_new_errno EINVAL), msg)
       end ;;
  ret (match fst r with
       | Some resp => resp
       | None => launch_data_new_errno ENOSYS
       end, snd r).

(** ipc_readmsg (launchd.c:884).  The value returned is the response
    handed to launchd_msg_send. *)
Definition ipc_readmsg (env : Env) (msg : launch_data) (cfd : Z)
  : M launch_data :=
  r <- ipc_readmsg_resp env msg cfd ;;
  launch_data_close_fds (snd r) ;;
  emit (E_send cfd (fst r)) ;;
  when (negb (msg_send_errno env =? 0))
    (if msg_send_errno env =? EAGAIN then
       k <- kevent_mod env (KFd cfd) EVFILT_WRITE EV_ADD 0 0 (UConn cfd) ;;
       _ <- assumes k ;; ret tt
     else
       emit (E_syslog LOG_DEBUG "launchd_msg_send() == -1: %m") ;;
       ipc_close env cfd) ;;
  ret (fst r).






(** The absolute timer job_set_alarm arms, and the line it logs after. *)
Definition alarm_timer (j : jobid) (later : Z) : event :=
  E_kevent (KCalInterval j) EVFILT_TIMER EV_ADD
    (Z.lor NOTE_ABSOLUTE NOTE_SECONDS) later (UJob j).

Definition alarm_log (env : Env) (j : jobid) (x : jobcb) : event :=
  if kevent_ok env (KCalInterval j) EVFILT_TIMER EV_ADD
  then E_syslog LOG_INFO (label x ++ ": scheduled to run again at: %s")
  else E_syslog LOG_ERR (label x ++ ": adding kevent alarm: %m").

(** Every job on the queue is a live object. *)
Definition queue_allocated (w : World) : Prop :=
  Forall (fun k => heap_find (heap w) k <> None) (jobs w).

(** The registry as the claims see it: the label of each job on the queue,
    in queue order ([None] for a queue entry that is not a live object). *)
Definition label_of (w : World) (k : jobid) : option string :=
  match heap_find (heap w) k with
  | Some y => Some (label y)
  | None => None
  end.

Definition queue_labels (w : World) : list (option string) :=
  map (label_of w) (jobs w).

(** Is a job with this label on the queue? *)
Definition label_in (w : World) (lbl : string) : bool :=
  existsb (fun k => match heap_find (heap w) k with
                    | Some y => String.eqb (label y) lbl
                    | None => false
                    end) (jobs w).

(** A well-formed registry: no label twice on the queue, every queue entry
    a live object, every object older than the next address. *)
Definition registry_ok (w : World) : Prop :=
  NoDup (queue_labels w) /\
  queue_allocated w /\
  Forall (fun i => (i < next_jid w)%nat) (map jid (heap w)).

(** Two worlds with the same queue and the same objects under the same
    labels. *)
Definition same_registry (w w' : World) : Prop :=
  jobs w' = jobs w /\
  next_jid w' = next_jid w /\
  map jid (heap w') = map jid (heap w) /\
  map label (heap w') = map label (heap w).

(** Partial correctness: whenever the computation ends, the worlds before
    and after are related. *)
Definition preserves (R : World -> World -> Prop) {A : Type} (c : M A)
  : Prop :=
  forall w a w', c w = Some (a, w') -> R w w'.

(** Two worlds that differ at most in the trace. *)
Definition agrees (w0 w : World) : Prop := with_trace w (trace w0) = w0.

(** Responses are sent by ipc_readmsg alone. *)
Definition not_send (e : event) : Prop :=
  match e with E_send _ _ => False | _ => True end.

Definition is_send (e : event) : bool :=
  match e with E_send _ _ => true | _ => false end.

(** A computation that, from any world that agrees with [w0], runs to its
    end and changes nothing but the trace, to which it adds no response. *)
Definition logs_on (w0 : World) {A : Type} (c : M A) : Prop :=
  forall w, agrees w0 w ->
    exists a t, c w = Some (a, with_trace w (trace w ++ t))
                /\ Forall not_send t.

(** Example inputs: an environment where every call succeeds, a keep-alive
    job that is running, and a world that holds it. *)
Definition example_env : Env :=
  {| time_now := 1000; getpid := 500;
     PID1_REAP_ADOPTED_CHILDREN := false; pid1_child_exit_status := 0;
     waitpid := fun _ => Some 256;
     fork_result := 4243;
     isatty := fun _ => false;
     tcsetpgrp := fun _ _ => 0;
     kevent_ok := fun _ _ _ => true;
     open_evtonly := fun _ => 7;
     dir_has_files := fun _ => 0;
     socketpair_fds := fun ipc => if ipc then (10, 11) else (12, 13);
     msg_send_errno := 0;
     adjust_rlimits_result := fun _ => [];
     getrusage_result := fun _ => [] |}.

(** The same outside at another reading of the clock. *)
Definition at_time (env : Env) (t : Z) : Env :=
  {| time_now := t; getpid := getpid env;
     PID1_REAP_ADOPTED_CHILDREN := PID1_REAP_ADOPTED_CHILDREN env;
     pid1_child_exit_status := pid1_child_exit_status env;
     waitpid := waitpid env; fork_result := fork_result env;
     isatty := isatty env; tcsetpgrp := tcsetpgrp env;
     kevent_ok := kevent_ok env; open_evtonly := open_evtonly env;
     dir_has_files := dir_has_files env;
     socketpair_fds := socketpair_fds env;
     msg_send_errno := msg_send_errno env;
     adjust_rlimits_result := adjust_rlimits_result env;
     getrusage_result := getrusage_result env |}.

Definition example_description : launch_data :=
  LD_DICTIONARY
    [("Label", LD_STRING "com.example.daemon");
     ("ProgramArguments", LD_ARRAY [LD_STRING "/usr/sbin/daemon"]);
     ("OnDemand", LD_BOOL false)].

Definition example_job : jobcb :=
  {| jid := 0%nat; label := "com.example.daemon";
     ldj := example_description;
     p := 4242; execfd := 0; start_time := 995; failed_exits := 2;
     vnodes := []; qdirs := []; start_interval := 0;
     start_cal_interval := None; checkedin := false; firstborn := false;
     debug := false; throttle := false |}.

Definition example_world : World :=
  {| heap := [example_job]; jobs := [0%nat];
     connections := [{| conn := 20; cj := Some 0%nat;
                        disabled_batch := false |};
                     {| conn := 21; cj := None; disabled_batch := false |}];
     next_jid := 1%nat; total_children := 1;
     shutdown_in_progress := false; batch_disabler_count := 0;
     environ := []; logmask := 255; umask := 18;
     pending_stdout := None; pending_stderr := None; trace := [] |}.

(** Running a computation to its end: it does not fault, and its result
    and final state satisfy [Q]. *)
Definition wp {A : Type} (c : M A) (Q : A -> World -> Prop) (w : World)
  : Prop :=
  match c w with
  | Some (a, w') => Q a w'
  | None => False
  end.

(** *** Vocabulary of the statements about descriptors and traces. *)

(** The descriptors a value holds, in the order in which the traversals of
    launchd.c:681-790 meet them; -1 is the mark of a revoked one. *)
Fixpoint live_fds (o : launch_data) : list Z :=
  match o with
  | LD_DICTIONARY kv =>
      (fix iterate (l : list (string * launch_data)) : list Z :=
         match l with
         | [] => []
         | (_, v) :: t => live_fds v ++ iterate t
         end) kv
  | LD_ARRAY a =>
      (fix loop (l : list launch_data) : list Z :=
         match l with
         | [] => []
         | v :: t => live_fds v ++ loop t
         end) a
  | LD_FD fd => if fd =? -1 then [] else [fd]
  | _ => []
  end.

(** A computation that, from any world that agrees with [w0], returns [a]
    and adds exactly the events [t] to the trace. *)
Definition writes (w0 : World) {A : Type} (c : M A) (a : A)
  (t : list event) : Prop :=
  forall w, agrees w0 w -> c w = Some (a, with_trace w (trace w ++ t)).

(** What job_watch_fds and job_ignore_fds do for one descriptor. *)
Definition bug_unless (ok : bool) : list event :=
  if ok then [] else [E_syslog LOG_NOTICE "Bug"].



(** The description of the last job on the queue [l] whose label is [s],
    [acc] when there is none: what the loops of get_jobs compute. *)
Fixpoint last_labelled (h : list jobcb) (l : list jobid) (s : string)
  (acc : option launch_data) : option launch_data :=
  match l with
  | [] => acc
  | k :: t =>
      last_labelled h t s
        (match heap_find h k with
         | Some y => if String.eqb s (label y) then Some (ldj y) else acc
         | None => acc
         end)
  end.

(** The signals do_shutdown sends: SIGTERM to each job on the queue that
    has a process, in queue order. *)
Definition kills_of (h : list jobcb) (l : list jobid) : list event :=
  flat_map (fun k => match heap_find h k with
                     | Some x =>
                         if p x =? 0 then [] else [E_kill (p x) SIGTERM]
                     | None => []
                     end) l.

(** The number of connections that hold batch jobs disabled. *)
Definition disabled_count (l : list conncb) : Z :=
  Z.of_nat (List.length (filter disabled_batch l)).

(** batch_disabler_count counts the connections whose disabled_batch flag
    is set; a descriptor names one connection; the count fits an int. *)
Definition batch_consistent (w : World) : Prop :=
  batch_disabler_count w = disabled_count (connections w) /\
  NoDup (map conn (connections w)) /\
  Z.of_nat (List.length (connections w)) < 2147483647.

(** The value the environment holds for a name: that of its last entry
    of the name. *)
Fixpoint environ_last (e : list string) (k : string) : option string :=
  match e with
  | [] => None
  | s :: t =>
      match environ_last t k with
      | Some v' => Some v'
      | None =>
          match split_eq s with
          | Some (n, v) => if String.eqb n k then Some v else None
          | None => None
          end
      end
  end.

(** The name an entry of environ defines. *)
Definition entry_name (s : string) : option string :=
  match split_eq s with
  | Some (n, _) => Some n
  | None => None
  end.

(** An entry of environ that GetUserEnvironment can read: it has an '='
    among its first 1024 bytes. *)
Definition readable_entry (s : string) : Prop :=
  exists k v, split_eq s = Some (k, v) /\ (String.length k < 1024)%nat.

(** Two worlds with the same queue and the same objects under the same
    labels and with the same descriptions. *)
Definition same_jobs (w w' : World) : Prop :=
  jobs w' = jobs w /\
  next_jid w' = next_jid w /\
  map jid (heap w') = map jid (heap w) /\
  map label (heap w') = map label (heap w) /\
  map ldj (heap w') = map ldj (heap w).

(** The job object [j] is live, with this label and this description. *)
Definition job_is (j : jobid) (lbl : string) (d : launch_data) (w : World)
  : Prop :=
  exists x, heap_find (heap w) j = Some x /\ label x = lbl /\ ldj x = d.

(** Total correctness: from any world where the job is live the
    computation returns, and the worlds before and after are related. *)
Definition runs (j : jobid) (lbl : string) (d : launch_data)
  (R : World -> World -> Prop) {A : Type} (c : M A) : Prop :=
  forall w, job_is j lbl d w -> exists a w', c w = Some (a, w') /\ R w w'.

(** The same, with the object [j] freed on the way. *)
Definition job_freed (j : jobid) (w w' : World) : Prop :=
  jobs w' = jobs w /\
  next_jid w' = next_jid w /\
  map jid (heap w') = map jid (heap_free (heap w) j) /\
  map label (heap w') = map label (heap_free (heap w) j) /\
  map ldj (heap w') = map ldj (heap_free (heap w) j).

(** What job_remove does to the registry: the job off the queue, its
    object freed, every other object where it was. *)
Definition job_removed (j : jobid) (w w' : World) : Prop :=
  jobs w' = remove_jid (jobs w) j /\
  next_jid w' = next_jid w /\
  map jid (heap w') = map jid (heap_free (heap w) j) /\
  map label (heap w') = map label (heap_free (heap w) j) /\
  map ldj (heap w') = map ldj (heap_free (heap w) j).


(** The computation does not return from any world where the job is
    live. *)
Definition never (j : jobid) (lbl : string) (d : launch_data) {A : Type}
  (c : M A) : Prop :=
  forall w, job_is j lbl d w -> c w = None.









(** The verbs whose handler reads neither its argument, nor a job, nor a
    connection, nor the environment. *)
Definition answers_always (v : verb) : bool :=
  match v with
  | V_RELOADTTYS | V_GETRESOURCELIMITS | V_SETRESOURCELIMITS
  | V_GETLOGMASK | V_GETUMASK | V_GETRUSAGESELF | V_GETRUSAGECHILDREN
  | V_BATCHQUERY => true
  | _ => false
  end.

(** The jobs of a queue that carry the label. *)
Definition labelled (h : list jobcb) (s : string) (l : list jobid)
  : list jobid :=
  filter (fun k => match heap_find h k with
                   | Some y => String.eqb (label y) s
                   | None => false
                   end) l.

End Launchd.

(* ===================================================================== *)
(** * Properties                                                         *)
(* ===================================================================== *)

Import LaunchData.

(** ** Two-pass routing (launchctl.c) *)

Section Routing.
Import Launchctl.

Lemma delay_to_second_pass2_eq o key res :
  delay_to_second_pass2 o key res =
  if key_is_bonjour key then true
  else match o with
       | LD_DICTIONARY kv => dtsp_iterate kv res
       | LD_ARRAY a => dtsp_loop a res
       | _ => res
       end.
Proof.
  destruct o; reflexivity.
Qed.

(** Once set, the flag stays set. *)
Lemma delay_to_second_pass2_sticky o :
  forall key, delay_to_second_pass2 o key true = true.
Proof.
  induction o using launch_data_deep_ind; intro key;
    rewrite delay_to_second_pass2_eq; destruct (key_is_bonjour key); auto.
  - induction H as [|[k v] t Hv _ IH]; simpl; auto.
    simpl in Hv. rewrite Hv. exact IH.
  - induction H as [|v t Hv _ IH]; simpl; auto.
    rewrite Hv. exact IH.
  - destruct o; simpl in *; auto; discriminate.
Qed.

Lemma dtsp_iterate_true l : dtsp_iterate l true = true.
Proof.
  induction l as [|[k v] t IH]; simpl; auto.
  now rewrite delay_to_second_pass2_sticky.
Qed.

Lemma dtsp_loop_true l : dtsp_loop l true = true.
Proof.
  induction l as [|v t IH]; simpl; auto.
  now rewrite delay_to_second_pass2_sticky.
Qed.

Lemma key_is_bonjour_Some k :
  key_is_bonjour (Some k) = true <-> k = LAUNCH_JOBSOCKETKEY_BONJOUR.
Proof. simpl. apply String.eqb_eq. Qed.

Lemma delay_to_second_pass2_key v k res :
  delay_to_second_pass2 v (Some k) res =
  if String.eqb k LAUNCH_JOBSOCKETKEY_BONJOUR then true
  else delay_to_second_pass2 v None res.
Proof. now rewrite !delay_to_second_pass2_eq. Qed.

Lemma dtsp_iterate_spec l :
  Forall (fun e => delay_to_second_pass2 (snd e) None false = true <->
                   has_key_within LAUNCH_JOBSOCKETKEY_BONJOUR (snd e)) l ->
  dtsp_iterate l false = true <->
  exists k v, In (k, v) l /\
    (k = LAUNCH_JOBSOCKETKEY_BONJOUR \/
     has_key_within LAUNCH_JOBSOCKETKEY_BONJOUR v).
Proof.
  induction 1 as [|[k v] t Hv _ IH]; simpl.
  - split; [discriminate|]. intros (k & v & [] & _).
  - simpl in Hv. rewrite delay_to_second_pass2_key.
    destruct (String.eqb_spec k LAUNCH_JOBSOCKETKEY_BONJOUR) as [E|E].
    + rewrite dtsp_iterate_true. split; [intros _|reflexivity].
      exists k, v. auto.
    + destruct (delay_to_second_pass2 v None false) eqn:Ev.
      * rewrite dtsp_iterate_true. split; [intros _|reflexivity].
        exists k, v. split; [now left|right; now apply Hv].
      * rewrite IH. split; intros (k' & v' & Hin & Hk).
        -- exists k', v'. split; [now right|assumption].
        -- destruct Hin as [Heq|Hin].
           ++ inversion Heq; subst k' v'. destruct Hk as [Hk|Hk];
                [contradiction|]. apply Hv in Hk. discriminate.
           ++ exists k', v'. auto.
Qed.

Lemma dtsp_loop_spec l :
  Forall (fun v => delay_to_second_pass2 v None false = true <->
                   has_key_within LAUNCH_JOBSOCKETKEY_BONJOUR v) l ->
  dtsp_loop l false = true <->
  exists v, In v l /\ has_key_within LAUNCH_JOBSOCKETKEY_BONJOUR v.
Proof.
  induction 1 as [|v t Hv _ IH]; simpl.
  - split; [discriminate|]. intros (v & [] & _).
  - destruct (delay_to_second_pass2 v None false) eqn:Ev.
    + rewrite dtsp_loop_true. split; [intros _|reflexivity].
      exists v. split; [now left|now apply Hv].
    + rewrite IH. split; intros (v' & Hin & Hk).
      * exists v'. split; [now right|assumption].
      * destruct Hin as [Heq|Hin].
        -- subst v'. apply Hv in Hk. discriminate.
        -- exists v'. auto.
Qed.

(** From a cleared flag, the walk sets it exactly when a Bonjour key lies
    somewhere under the value. *)
Lemma delay_to_second_pass2_spec o :
  delay_to_second_pass2 o None false = true <->
  has_key_within LAUNCH_JOBSOCKETKEY_BONJOUR o.
Proof.
  induction o using launch_data_deep_ind;
    rewrite delay_to_second_pass2_eq; simpl.
  - rewrite dtsp_iterate_spec by assumption.
    split.
    + intros (k & v & Hin & [Hk|Hk]).
      * subst k. eapply hk_here; eassumption.
      * eapply hk_dict; eassumption.
    + intro K. inversion K; subst; eauto.
  - rewrite dtsp_loop_spec by assumption.
    split.
    + intros (v & Hin & Hk). eapply hk_array; eassumption.
    + intro K. inversion K; subst; eauto.
  - destruct o; simpl in *; try discriminate;
      (split; [discriminate|intro K; inversion K]).
Qed.

(** C6, as the code has it: a description goes to pass 2 exactly when its
    Sockets value holds, at some depth, a dictionary entry keyed Bonjour
    (whatever the value of the entry); every other description, one
    without a Sockets key included, goes to pass 1. *)
Theorem delay_to_second_pass_iff_bonjour_key (thejob : launch_data)
  (lus : load_unload_state) :
  (delay_to_second_pass thejob = true <->
   exists socks,
     launch_data_dict_lookup thejob LAUNCH_JOBKEY_SOCKETS = Some socks /\
     has_key_within LAUNCH_JOBSOCKETKEY_BONJOUR socks) /\
  readfile_route thejob lus =
    (if delay_to_second_pass thejob
     then {| pass1 := pass1 lus; pass2 := pass2 lus ++ [thejob] |}
     else {| pass1 := pass1 lus ++ [thejob]; pass2 := pass2 lus |}).
Proof.
  split; [|reflexivity].
  unfold delay_to_second_pass.
  destruct (launch_data_dict_lookup thejob LAUNCH_JOBKEY_SOCKETS)
    as [socks|] eqn:E.
  - split.
    + intro H. exists socks. split; [reflexivity|].
      now apply delay_to_second_pass2_spec.
    + intros (s & Hs & Hk). inversion Hs; subst s.
      now apply delay_to_second_pass2_spec.
  - split; [discriminate|].
    intros (s & Hs & _). discriminate.
Qed.

(** C6 as stated fails: a socket entry with Bonjour set to false is not a
    truthy Bonjour entry, yet the description is routed to pass 2. *)
Lemma delay_to_second_pass_false_bonjour :
  let thejob :=
    LD_DICTIONARY
      [("Label", LD_STRING "com.example.svc");
       ("ProgramArguments", LD_ARRAY [LD_STRING "/bin/cat"]);
       ("Sockets",
        LD_DICTIONARY
          [("Listener",
            LD_DICTIONARY [("SockServiceName", LD_STRING "7777");
                           ("Bonjour", LD_BOOL false)])])] in
  spec_routes_to_pass2 thejob = false /\
  delay_to_second_pass thejob = true /\
  ~ (delay_to_second_pass thejob = true <->
     spec_routes_to_pass2 thejob = true).
Proof.
  cbv zeta. split; [reflexivity|]. split; [reflexivity|].
  intros [H _]. specialize (H eq_refl). discriminate H.
Qed.

End Routing.

(** ** The path filter (launchctl.c) *)

Section PathGoodness.
Import Launchctl.

Lemma fnmatch_star_eq p s :
  fnmatch_casefold (String "*"%char p) s = fnmatch_star p s.
Proof. destruct s; reflexivity. Qed.

(** One literal character of the pattern, already in lower case. *)
Lemma fnmatch_literal_step c p x :
  (forall s, fnmatch_casefold (String c p) s =
             match s with
             | EmptyString => false
             | String c' s' =>
                 Ascii.eqb c (tolower c') && fnmatch_casefold p s'
             end) ->
  (forall s, fnmatch_casefold p s = true <-> lower s = x) ->
  forall s, fnmatch_casefold (String c p) s = true <-> lower s = String c x.
Proof.
  intros Hstep IH s. rewrite Hstep. destruct s as [|a s]; simpl.
  - split; discriminate.
  - destruct (Ascii.eqb_spec c (tolower a)) as [E|E]; simpl.
    + rewrite IH. split; intro K; [congruence|now inversion K].
    + split; [discriminate|]. intro K. inversion K. congruence.
Qed.

(** A literal pattern in lower case matches the names that fold to it. *)
Lemma fnmatch_plist_literal s :
  fnmatch_casefold ".plist" s = true <-> lower s = ".plist".
Proof.
  revert s.
  repeat (apply fnmatch_literal_step; [intros [|? ?]; reflexivity|]).
  intros [|a s]; simpl; split; congruence.
Qed.

(** "*.plist" matches the names with a suffix that folds to ".plist". *)
Lemma fnmatch_star_plist s :
  fnmatch_casefold "*.plist" s = true <->
  exists pre suf, s = (pre ++ suf)%string /\ lower suf = ".plist".
Proof.
  rewrite fnmatch_star_eq.
  induction s as [|a s IH].
  - split.
    + intro H. discriminate H.
    + intros (pre & suf & E & L). destruct pre; simpl in E;
        [subst suf; discriminate L|discriminate E].
  - change (fnmatch_star ".plist" (String a s))
      with (fnmatch_casefold ".plist" (String a s)
            || fnmatch_star ".plist" s).
    rewrite Bool.orb_true_iff, IH, fnmatch_plist_literal. split.
    + intros [L|(pre & suf & E & L)].
      * exists EmptyString, (String a s). auto.
      * exists (String a pre), suf. simpl. split; congruence.
    + intros (pre & suf & E & L). destruct pre as [|b pre]; simpl in E.
      * left. now subst suf.
      * right. inversion E; subst. eauto.
Qed.

(** C8, as the code has it: a path is accepted exactly when stat succeeds
    and either force is set, or the path is not group- or other-writable,
    is owned by uid 0 or by the invoking user, is a regular file or a
    directory, and, when not a directory, has a name that ends in .plist
    in any letter case.  Force lifts every check after stat. *)
Theorem path_goodness_check_iff (stat_of : string -> option stat_t)
  (getuid : Z) (path : string) (forceload : bool) :
  path_goodness_check stat_of getuid path forceload = true <->
  exists sb,
    stat_of path = Some sb /\
    (forceload = true \/
     (Z.land (st_mode sb) (Z.lor S_IWOTH S_IWGRP) = 0 /\
      (st_uid sb = 0 \/ st_uid sb = getuid) /\
      (S_ISREG (st_mode sb) = true \/ S_ISDIR (st_mode sb) = true) /\
      (S_ISDIR (st_mode sb) = true \/
       exists pre suf, path = (pre ++ suf)%string /\ lower suf = ".plist"))).
Proof.
  unfold path_goodness_check.
  pose proof (fnmatch_star_plist path) as Hf.
  destruct (fnmatch_casefold "*.plist" path) eqn:Ef.
  all: destruct (stat_of path) as [sb|];
    [|split; [discriminate|]; intros (sb & E & _); discriminate].
  all: destruct forceload;
    [split; [intros _; exists sb; auto|reflexivity]|].
  all: destruct (Z.eqb_spec (Z.land (st_mode sb) (Z.lor S_IWOTH S_IWGRP)) 0)
    as [Ew|Ew]; cbn [negb andb orb];
    [|split; [discriminate|];
      intros (sb' & E & [F|(W & _)]); inversion E; subst;
      [discriminate|contradiction]].
  all: destruct (Z.eqb_spec (st_uid sb) 0) as [E0|E0];
    destruct (Z.eqb_spec (st_uid sb) getuid) as [Eu|Eu]; cbn [negb andb orb];
    destruct (S_ISREG (st_mode sb)) eqn:Er;
    destruct (S_ISDIR (st_mode sb)) eqn:Ed; cbn [negb andb orb];
    (split;
     [ first
         [ discriminate
         | intros _; exists sb; split; [reflexivity|right];
           repeat split; auto; right; apply Hf; reflexivity ]
     | first
         [ reflexivity
         | intros (sb' & E & H); inversion E; subst sb';
           destruct H as [F|(_ & U & R & D)]; [discriminate F|];
           destruct U as [U|U]; destruct R as [R|R]; destruct D as [D|D];
           try congruence; apply Hf in D; congruence ] ]).
Qed.

(** C8 as stated fails: with force set, a file that belongs to another
    user is accepted, though it is owned neither by uid 0 nor by the
    invoking user. *)
Lemma path_goodness_force_skips_owner :
  let stat_of := fun path : string =>
    if String.eqb path "/Library/LaunchDaemons/job.plist"
    then Some {| st_mode := 33188; st_uid := 501 |} else None in
  spec_path_goodness stat_of 502 "/Library/LaunchDaemons/job.plist" true
    = false /\
  path_goodness_check stat_of 502 "/Library/LaunchDaemons/job.plist" true
    = true.
Proof. split; reflexivity. Qed.

End PathGoodness.

(** ** The calendar and the cron emulation (launchd.c:2238-2400) *)

Section Calendar.
Import Cron.

Ltac zdiv := Z.div_mod_to_equations; lia.

Ltac tm_simpl :=
  cbn [tm_sec tm_min tm_hour tm_mday tm_mon tm_year tm_wday tm_yday tm_isdst
       set_tm_sec set_tm_min set_tm_hour set_tm_mday set_tm_mon set_tm_year
       set_tm_isdst fst snd] in *.

Lemma dfc_cfd z :
  let '(y, m, d) := civil_from_days z in days_from_civil y m d = z.
Proof.
  unfold civil_from_days, days_from_civil.
  repeat match goal with |- context [if ?c then _ else _] => destruct c eqn:? end;
  rewrite ?Z.ltb_lt, ?Z.ltb_ge, ?Z.leb_le, ?Z.leb_gt in *;
  zdiv.
Qed.

Lemma civil_range z :
  let '(y, m, d) := civil_from_days z in 1 <= m <= 12 /\ 1 <= d <= 31.
Proof.
  unfold civil_from_days.
  repeat match goal with |- context [if ?c then _ else _] => destruct c eqn:? end;
  rewrite ?Z.ltb_lt, ?Z.ltb_ge, ?Z.leb_le, ?Z.leb_gt in *;
  zdiv.
Qed.

Lemma dfc_day y m d :
  days_from_civil y m d = days_from_civil y m 1 + (d - 1).
Proof. unfold days_from_civil. cbv zeta. lia. Qed.

Lemma gmtime_on_day D s :
  0 <= s < 86400 -> s mod 60 = 0 -> on_day D (gmtime (D * 86400 + s)).
Proof.
  intros Hs Hm. unfold on_day, gmtime.
  assert (Hd : (D * 86400 + s) / 86400 = D) by zdiv.
  assert (Hr : (D * 86400 + s) mod 86400 = s) by zdiv.
  rewrite Hd, Hr.
  destruct (civil_from_days D) as [[y m] d]. tm_simpl.
  replace (1900 + (y - 1900)) with y by lia.
  replace (m - 1 + 1) with m by lia.
  repeat split; zdiv.
Qed.

Lemma gmtime_clock D s :
  0 <= s < 86400 ->
  tm_hour (gmtime (D * 86400 + s)) = s / 3600 /\
  tm_min (gmtime (D * 86400 + s)) = (s / 60) mod 60.
Proof.
  intros Hs. unfold gmtime.
  assert (Hr : (D * 86400 + s) mod 86400 = s) by zdiv.
  rewrite Hr.
  destruct (civil_from_days ((D * 86400 + s) / 86400)) as [[y m] d]. tm_simpl.
  split; reflexivity.
Qed.

(** timegm of a structure that carries the date of day [D], its day of
    the month moved by [k]. *)
Lemma timegm_shift D w w' k :
  on_day D w ->
  tm_year w' = tm_year w -> tm_mon w' = tm_mon w ->
  tm_mday w' = tm_mday w + k -> tm_sec w' = 0 ->
  timegm w' = (D + k) * 86400 + tm_hour w' * 3600 + tm_min w' * 60.
Proof.
  intros (Hc & _ & _ & _) Hy Hm Hd Hs. unfold timegm.
  pose proof (civil_range D) as Hr. pose proof (dfc_cfd D) as Hi.
  rewrite Hc in Hr, Hi. destruct Hr as [Hr _].
  rewrite Hy, Hm, Hd, Hs.
  assert (E1 : tm_mon w / 12 = 0) by zdiv.
  assert (E2 : tm_mon w mod 12 + 1 = tm_mon w + 1) by zdiv.
  rewrite E1, E2, !Z.add_0_r.
  rewrite dfc_day in Hi. lia.
Qed.

Lemma cronemu_min_cases w min :
  cron_field 0 59 min ->
  (cronemu_min w min = (false, w) /\ 0 <= min < tm_min w) \/
  (exists w', cronemu_min w min = (true, w') /\
              (w' = w \/ w' = set_tm_min w min) /\
              (min = -1 \/ tm_min w' = min)).
Proof.
  intros Hv. unfold cronemu_min.
  destruct (Z.eqb_spec min (-1)) as [E|E].
  - right. exists w. auto.
  - destruct Hv as [Hv|Hv]; [contradiction|].
    destruct (Z.ltb_spec min (tm_min w)).
    + left. split; [reflexivity|lia].
    + destruct (Z.ltb_spec (tm_min w) min).
      * right. exists (set_tm_min w min). auto.
      * right. exists w. split; [reflexivity|]. split; [auto|right; lia].
Qed.

Lemma cronemu_min_zero w min :
  cron_field 0 59 min -> tm_min w = 0 ->
  cronemu_min w min = (true, if 0 <? min then set_tm_min w min else w).
Proof.
  intros Hv H0. unfold cronemu_min. rewrite H0.
  destruct (Z.eqb_spec min (-1)) as [E|E]; [subst; reflexivity|].
  destruct Hv as [Hv|Hv]; [contradiction|].
  destruct (Z.ltb_spec min 0); [lia|].
  destruct (0 <? min); reflexivity.
Qed.

Lemma cronemu_hour_loop_true fuel w min w' :
  cronemu_min w min = (true, w') ->
  cronemu_hour_loop fuel w min = Some (Some w').
Proof.
  intro H. destruct fuel; cbn [cronemu_hour_loop]; rewrite H; reflexivity.
Qed.

Lemma on_day_set_min D w v : on_day D w -> on_day D (set_tm_min w v).
Proof. exact (fun H => H). Qed.

Lemma on_day_set_hour D w v :
  on_day D w -> 0 <= v <= 23 -> on_day D (set_tm_hour w v).
Proof. intros (H1 & H2 & H3 & _) Hv. repeat split; tm_simpl; auto; lia. Qed.

(** cronemu_hour, started within day [D]. *)
Lemma cronemu_hour_on_day n D w hour min :
  on_day D w -> cron_field 0 23 hour -> cron_field 0 59 min ->
  exists b w',
    cronemu_hour (S n) w hour min = Some (b, w') /\ on_day D w' /\
    (b = true -> matches_clock w' hour min).
Proof.
  intros Hw Hh Hm. unfold cronemu_hour.
  destruct (Z.eqb_spec hour (-1)) as [E|E].
  - (* every hour *)
    destruct (cronemu_min_cases w min Hm) as [[Hf Hlt]|(w' & Ht & Hw' & Hmm)].
    + cbn [cronemu_hour_loop]. rewrite Hf. cbv zeta.
      set (w1 := set_tm_min (set_tm_hour w (tm_hour w + 1)) 0).
      assert (Ht : timegm w1 = D * 86400 + (tm_hour w + 1) * 3600).
      { rewrite (timegm_shift D w w1 0 Hw); subst w1; tm_simpl;
          try reflexivity; try lia. destruct Hw as (_ & _ & Hs & _). exact Hs. }
      unfold mktime. tm_simpl. rewrite Ht.
      destruct Hw as (Hc & Hwd & Hs & Hr).
      destruct (Z.eq_dec (tm_hour w) 23) as [E23|E23].
      * (* carry into the next day *)
        replace (D * 86400 + (tm_hour w + 1) * 3600)
          with ((D + 1) * 86400 + 0) by lia.
        destruct (gmtime_clock (D + 1) 0 ltac:(lia)) as [Eh _].
        rewrite Eh. subst w1. tm_simpl.
        destruct (Z.eqb_spec (tm_hour w + 1) (0 / 3600)) as [F|F];
          [change (0 / 3600) with 0 in F; lia|].
        simpl. exists false, w. split; [reflexivity|].
        split; [repeat split; auto; lia|discriminate].
      * destruct (gmtime_clock D ((tm_hour w + 1) * 3600) ltac:(lia))
          as [Eh Em].
        rewrite Eh. subst w1. tm_simpl.
        assert (Eq : (tm_hour w + 1) * 3600 / 3600 = tm_hour w + 1) by zdiv.
        rewrite Eq, Z.eqb_refl. simpl.
        set (w2 := gmtime (D * 86400 + (tm_hour w + 1) * 3600)) in *.
        assert (Hw2 : on_day D w2).
        { apply gmtime_on_day; [lia|zdiv]. }
        assert (Hm2 : tm_min w2 = 0) by (rewrite Em; zdiv).
        rewrite (cronemu_hour_loop_true n w2 min _
                   (cronemu_min_zero w2 min Hm Hm2)).
        exists true. eexists. split; [reflexivity|]. split.
        -- destruct (0 <? min); [apply on_day_set_min|]; exact Hw2.
        -- intros _. split; [left; exact E|].
           destruct (Z.ltb_spec 0 min); tm_simpl; [right; reflexivity|].
           destruct Hm as [Hm|Hm]; [left; exact Hm|right; lia].
    + rewrite (cronemu_hour_loop_true (S n) w min w' Ht).
      exists true, w'. split; [reflexivity|]. split.
      * destruct Hw' as [->| ->]; [|apply on_day_set_min]; exact Hw.
      * intros _. split; [left; exact E|exact Hmm].
  - destruct Hh as [Hh|Hh]; [contradiction|].
    destruct (Z.ltb_spec hour (tm_hour w)).
    + exists false, w. split; [reflexivity|].
      split; [exact Hw|discriminate].
    + set (w1 := if tm_hour w <? hour
                 then set_tm_min (set_tm_hour w hour) 0 else w).
      assert (Hw1 : on_day D w1 /\ tm_hour w1 = hour).
      { subst w1. destruct (Z.ltb_spec (tm_hour w) hour).
        - split; [|reflexivity]. apply on_day_set_min.
          apply on_day_set_hour; [exact Hw|lia].
        - split; [exact Hw|lia]. }
      destruct Hw1 as [Hw1 Hh1].
      destruct (cronemu_min_cases w1 min Hm)
        as [[Hf Hlt]|(w' & Ht & Hw' & Hmm)].
      * rewrite Hf. exists false, w1. split; [reflexivity|].
        split; [exact Hw1|discriminate].
      * rewrite Ht. exists true, w'. split; [reflexivity|].
        assert (Hd : on_day D w' /\ tm_hour w' = hour).
        { destruct Hw' as [->| ->]; split; auto. }
        destruct Hd as [Hd1 Hd2]. split; [exact Hd1|].
        intros _. split; [right; exact Hd2|exact Hmm].
Qed.

Lemma cronemu_hour_midnight n w hour min :
  tm_hour w = 0 -> tm_min w = 0 ->
  cron_field 0 23 hour -> cron_field 0 59 min ->
  cronemu_hour n w hour min = Some (true, settle w hour min).
Proof.
  intros H0 M0 Hh Hm. unfold cronemu_hour, settle.
  destruct (Z.eqb_spec hour (-1)) as [E|E].
  - subst hour. change (0 <? -1) with false. cbv iota.
    rewrite (cronemu_hour_loop_true n w min _ (cronemu_min_zero w min Hm M0)).
    reflexivity.
  - destruct Hh as [Hh|Hh]; [contradiction|]. rewrite H0.
    destruct (Z.ltb_spec hour 0); [lia|].
    destruct (0 <? hour).
    + rewrite cronemu_min_zero; [reflexivity|exact Hm|reflexivity].
    + rewrite cronemu_min_zero; [reflexivity|exact Hm|exact M0].
Qed.

Lemma settle_fields w hour min :
  tm_hour w = 0 -> tm_min w = 0 ->
  cron_field 0 23 hour -> cron_field 0 59 min ->
  tm_year (settle w hour min) = tm_year w /\
  tm_mon (settle w hour min) = tm_mon w /\
  tm_mday (settle w hour min) = tm_mday w /\
  tm_sec (settle w hour min) = tm_sec w /\
  tm_hour (settle w hour min) = Z.max 0 hour /\
  tm_min (settle w hour min) = Z.max 0 min.
Proof.
  intros H0 M0 Hh Hm. unfold settle.
  destruct (Z.ltb_spec 0 hour); destruct (Z.ltb_spec 0 min); tm_simpl;
    repeat split; try reflexivity; unfold cron_field in *; lia.
Qed.

(** One round of the weekday loop's body, from any hour of day [D]: the
    first matching minute of day [D + 1]. *)
Lemma next_day_ready n D w hour min :
  on_day D w -> cron_field 0 23 hour -> cron_field 0 59 min ->
  let w1 := set_tm_min (set_tm_hour (set_tm_mday w (tm_mday w + 1)) 0) 0 in
  cronemu_hour n w1 hour min = Some (true, settle w1 hour min) /\
  timegm (settle w1 hour min) =
    (D + 1) * 86400 + Z.max 0 hour * 3600 + Z.max 0 min * 60 /\
  ready (D + 1) (snd (mktime (settle w1 hour min))) hour min.
Proof.
  intros Hw Hh Hm w1.
  assert (H0 : tm_hour w1 = 0) by reflexivity.
  assert (M0 : tm_min w1 = 0) by reflexivity.
  destruct (settle_fields w1 hour min H0 M0 Hh Hm)
    as (Fy & Fm & Fd & Fs & Fh & Fn).
  assert (Ht : timegm (settle w1 hour min) =
               (D + 1) * 86400 + Z.max 0 hour * 3600 + Z.max 0 min * 60).
  { rewrite (timegm_shift D w (settle w1 hour min) 1 Hw).
    - now rewrite Fh, Fn.
    - now rewrite Fy.
    - now rewrite Fm.
    - now rewrite Fd.
    - rewrite Fs. subst w1. tm_simpl. apply Hw. }
  split; [now apply cronemu_hour_midnight|]. split; [exact Ht|].
  unfold mktime. tm_simpl. rewrite Ht.
  assert (Hb : 0 <= Z.max 0 hour <= 23 /\ 0 <= Z.max 0 min <= 59)
    by (unfold cron_field in *; lia).
  set (h := Z.max 0 hour) in *. set (m := Z.max 0 min) in *.
  replace ((D + 1) * 86400 + h * 3600 + m * 60)
    with ((D + 1) * 86400 + (h * 3600 + m * 60)) by lia.
  destruct (gmtime_clock (D + 1) (h * 3600 + m * 60) ltac:(lia)) as [Eh Em].
  split; [apply gmtime_on_day; [lia|zdiv]|].
  rewrite Eh, Em. split; zdiv.
Qed.

Lemma cronemu_hour_ready n D w hour min :
  ready D w hour min -> cron_field 0 23 hour -> cron_field 0 59 min ->
  cronemu_hour n w hour min = Some (true, w).
Proof.
  intros (Hw & Eh & Em) Hh Hm. unfold cronemu_hour.
  assert (Hmin : cronemu_min w min = (true, w)).
  { unfold cronemu_min. destruct (Z.eqb_spec min (-1)); [reflexivity|].
    destruct Hm as [Hm|Hm]; [contradiction|].
    destruct (Z.ltb_spec min (tm_min w)); [lia|].
    destruct (Z.ltb_spec (tm_min w) min); [lia|reflexivity]. }
  destruct (Z.eqb_spec hour (-1)) as [E|E].
  - now rewrite (cronemu_hour_loop_true n w min w Hmin).
  - destruct Hh as [Hh|Hh]; [contradiction|].
    destruct (Z.ltb_spec hour (tm_hour w)); [lia|].
    destruct (Z.ltb_spec (tm_hour w) hour); [lia|]. now rewrite Hmin.
Qed.

Lemma ready_matches D w hour min :
  ready D w hour min -> cron_field 0 23 hour -> cron_field 0 59 min ->
  matches_clock w hour min.
Proof.
  intros (_ & Eh & Em) Hh Hm. unfold matches_clock, cron_field in *. lia.
Qed.

Lemma cronemu_wday_loop_ready n hour min wday :
  cron_field 0 23 hour -> cron_field 0 59 min ->
  forall (k fuel : nat) D w,
    ready D w hour min -> (k <= fuel)%nat ->
    (D + Z.of_nat k + 4) mod 7 = wday ->
    (forall i, (i < k)%nat -> (D + Z.of_nat i + 4) mod 7 <> wday) ->
    exists w',
      cronemu_wday_loop n fuel w wday hour min = Some w' /\
      ready (D + Z.of_nat k) w' hour min.
Proof.
  intros Hh Hm. induction k as [|k IH]; intros fuel D w Hr Hk Hd Hmin.
  - exists w. replace (D + Z.of_nat 0) with D in * by lia.
    split; [|exact Hr].
    assert (Hw : (tm_wday w =? wday) = true).
    { apply Z.eqb_eq. destruct Hr as ((_ & Hw & _) & _). congruence. }
    destruct fuel; cbn [cronemu_wday_loop]; rewrite Hw;
      rewrite (cronemu_hour_ready n D w hour min Hr Hh Hm); reflexivity.
  - destruct fuel as [|fuel]; [lia|].
    assert (Hw : (tm_wday w =? wday) = false).
    { apply Z.eqb_neq. destruct Hr as ((_ & Hw & _) & _). rewrite Hw.
      specialize (Hmin 0%nat ltac:(lia)). now rewrite Z.add_0_r in Hmin. }
    cbn [cronemu_wday_loop]. rewrite Hw. cbn [negb]. cbv zeta.
    destruct Hr as (Hon & _).
    destruct (next_day_ready n D w hour min Hon Hh Hm) as (E1 & _ & Hr1).
    cbv zeta in E1, Hr1. rewrite E1.
    destruct (IH fuel (D + 1) _ Hr1 ltac:(lia)) as (w' & E2 & Hr2).
    + rewrite <- Hd. f_equal. lia.
    + intros i Hi. specialize (Hmin (S i) ltac:(lia)).
      intro F. apply Hmin. rewrite <- F. f_equal. lia.
    + exists w'. split; [exact E2|].
      replace (D + Z.of_nat (S k)) with (D + 1 + Z.of_nat k) by lia.
      exact Hr2.
Qed.

Lemma next_weekday D wday :
  0 <= wday <= 6 ->
  exists k : nat,
    (k <= 6)%nat /\ (D + Z.of_nat k + 4) mod 7 = wday /\
    forall i, (i < k)%nat -> (D + Z.of_nat i + 4) mod 7 <> wday.
Proof.
  intro Hw. exists (Z.to_nat ((wday - (D + 4)) mod 7)).
  assert (Hk : 0 <= (wday - (D + 4)) mod 7 < 7) by (apply Z.mod_pos_bound; lia).
  repeat split.
  - lia.
  - rewrite Z2Nat.id by lia. zdiv.
  - intros i Hi. assert (Hi' : Z.of_nat i < (wday - (D + 4)) mod 7) by lia.
    clear Hi. revert Hi'. generalize (Z.of_nat i) (Nat2Z.is_nonneg i).
    intros z Hz Hlt. zdiv.
Qed.

Lemma on_day_start now : on_day (now / 86400) (cronemu_start now).
Proof.
  unfold on_day, cronemu_start, localtime, gmtime. cbv zeta.
  destruct (civil_from_days (now / 86400)) as [[y m] d]. tm_simpl.
  replace (1900 + (y - 1900)) with y by lia.
  replace (m - 1 + 1) with m by lia.
  repeat split; zdiv.
Qed.

Lemma timegm_ready D w hour min :
  ready D w hour min ->
  timegm w = D * 86400 + Z.max 0 hour * 3600 + Z.max 0 min * 60.
Proof.
  intros (Hw & Eh & Em).
  rewrite (timegm_shift D w w 0 Hw); try reflexivity; try lia.
  apply Hw.
Qed.

(** The weekday loop once it has left its first day. *)
Lemma cronemu_wday_loop_advance n fuel D w wday hour min :
  on_day D w -> (6 <= fuel)%nat -> 0 <= wday <= 6 ->
  cron_field 0 23 hour -> cron_field 0 59 min ->
  let w1 := set_tm_min (set_tm_hour (set_tm_mday w (tm_mday w + 1)) 0) 0 in
  exists k wt,
    match cronemu_hour n w1 hour min with
    | None => None
    | Some (_, w2) =>
        cronemu_wday_loop n fuel (snd (mktime w2)) wday hour min
    end = Some wt /\
    1 <= k <= 7 /\ ready (D + k) wt hour min /\
    (D + k + 4) mod 7 = wday /\
    (forall i, 1 <= i < k -> (D + i + 4) mod 7 <> wday).
Proof.
  intros Hw Hf Hwd Hh Hm w1.
  destruct (next_day_ready n D w hour min Hw Hh Hm) as (E1 & _ & Hr1).
  cbv zeta in E1, Hr1. subst w1. rewrite E1.
  destruct (next_weekday (D + 1) wday Hwd) as (k & Hk & Hd & Hmin).
  destruct (cronemu_wday_loop_ready n hour min wday Hh Hm k fuel (D + 1) _
              Hr1 ltac:(lia) Hd Hmin) as (wt & E2 & Hr2).
  exists (1 + Z.of_nat k), wt. split; [exact E2|]. split; [lia|].
  replace (D + (1 + Z.of_nat k)) with (D + 1 + Z.of_nat k) by lia.
  split; [exact Hr2|]. split; [exact Hd|].
  intros i Hi. specialize (Hmin (Z.to_nat (i - 1)) ltac:(lia)).
  rewrite Z2Nat.id in Hmin by lia.
  replace (D + i) with (D + 1 + (i - 1)) by lia. exact Hmin.
Qed.

(** The search of cronemu_wday: it ends, on the start day or on the first
    later day of the wanted weekday. *)
Lemma cronemu_wday_search n wday hour min now :
  (7 <= n)%nat -> 0 <= wday <= 6 ->
  cron_field 0 23 hour -> cron_field 0 59 min ->
  exists k wt,
    cronemu_wday_loop n n (cronemu_start now) wday hour min = Some wt /\
    0 <= k <= 7 /\
    on_day (now / 86400 + k) wt /\
    tm_wday wt = wday /\ matches_clock wt hour min /\
    (0 < k ->
     timegm wt = (now / 86400 + k) * 86400
                 + Z.max 0 hour * 3600 + Z.max 0 min * 60) /\
    (forall i, 0 < i < k -> (now / 86400 + i + 4) mod 7 <> wday).
Proof.
  intros Hn Hwd Hh Hm.
  destruct n as [|n]; [lia|].
  pose proof (on_day_start now) as Hs.
  set (D := now / 86400) in *. set (s := cronemu_start now) in *.
  assert (Hlater : forall w, on_day D w ->
    exists k wt,
      match cronemu_hour (S n)
              (set_tm_min (set_tm_hour (set_tm_mday w (tm_mday w + 1)) 0) 0)
              hour min with
      | None => None
      | Some (_, w2) =>
          cronemu_wday_loop (S n) n (snd (mktime w2)) wday hour min
      end = Some wt /\
      0 <= k <= 7 /\ on_day (D + k) wt /\
      tm_wday wt = wday /\ matches_clock wt hour min /\
      (0 < k ->
       timegm wt = (D + k) * 86400
                   + Z.max 0 hour * 3600 + Z.max 0 min * 60) /\
      (forall i, 0 < i < k -> (D + i + 4) mod 7 <> wday)).
  { intros w Hw.
    destruct (cronemu_wday_loop_advance (S n) n D w wday hour min Hw
                ltac:(lia) Hwd Hh Hm) as (k & wt & E & Hk & Hr & Hd & Hmin).
    exists k, wt. split; [exact E|]. split; [lia|].
    split; [apply Hr|]. split.
    - destruct Hr as ((_ & Hw' & _) & _). congruence.
    - split; [exact (ready_matches _ _ _ _ Hr Hh Hm)|].
      split; [intros _; exact (timegm_ready _ _ _ _ Hr)|].
      intros i Hi. apply Hmin. lia. }
  cbn [cronemu_wday_loop].
  destruct (Z.eqb_spec (tm_wday s) wday) as [Ew|Ew]; cbn [negb].
  - destruct (cronemu_hour_on_day n D s hour min Hs Hh Hm)
      as (b & w' & E & Hw' & Hb).
    rewrite E. destruct b; cbn [negb].
    + exists 0, w'. split; [reflexivity|]. split; [lia|].
      rewrite Z.add_0_r. split; [exact Hw'|]. split.
      * destruct Hw' as (_ & Hx & _). destruct Hs as (_ & Hy & _). congruence.
      * split; [auto|]. split; intros; lia.
    + apply Hlater. exact Hw'.
  - apply Hlater. exact Hs.
Qed.

Lemma cfd_dfc_jan1 y : civil_from_days (days_from_civil y 1 1) = (y, 1, 1).
Proof.
  unfold days_from_civil. cbn [Z.leb Z.ltb Z.compare Pos.compare Pos.compare_cont].
  change ((153 * (1 + 9) + 2) / 5 + 1 - 1) with 306.
  set (era := (y - 1) / 400). set (yoe := y - 1 - era * 400).
  assert (Hy : 0 <= yoe <= 399) by (subst yoe era; zdiv).
  set (doe := yoe * 365 + yoe / 4 - yoe / 100 + 306).
  assert (Hd : 0 <= doe < 146097) by (subst doe; zdiv).
  unfold civil_from_days.
  assert (He : (era * 146097 + doe - 719468 + 719468) / 146097 = era) by zdiv.
  rewrite He.
  replace (era * 146097 + doe - 719468 + 719468 - era * 146097) with doe by ring.
  assert (Hyoe : (doe - doe / 1460 + doe / 36524 - doe / 146096) / 365 = yoe).
  { subst doe. zdiv. }
  rewrite Hyoe.
  replace (doe - (365 * yoe + yoe / 4 - yoe / 100)) with 306 by (subst doe; ring).
  change ((5 * 306 + 2) / 153) with 10. cbn.
  f_equal. f_equal. subst yoe. lia.
Qed.

Lemma gmtime_midnight T :
  on_day T (gmtime (T * 86400)) /\
  tm_hour (gmtime (T * 86400)) = 0 /\ tm_min (gmtime (T * 86400)) = 0.
Proof.
  rewrite <- (Z.add_0_r (T * 86400)).
  destruct (gmtime_clock T 0 ltac:(lia)) as [Eh Em].
  split; [apply gmtime_on_day; [lia|reflexivity]|].
  rewrite Eh, Em. split; reflexivity.
Qed.

Lemma cronemu_mday_loop_true n fuel w hour min w' :
  cronemu_hour n w hour min = Some (true, w') ->
  cronemu_mday_loop n fuel w hour min = Some (Some w').
Proof.
  intro H. destruct fuel; cbn [cronemu_mday_loop]; rewrite H; reflexivity.
Qed.

Lemma cronemu_mon_loop_true n fuel w mday hour min w' :
  cronemu_mday n w mday hour min = Some (true, w') ->
  cronemu_mon_loop n fuel w mday hour min = Some (Some w').
Proof.
  intro H. destruct fuel; cbn [cronemu_mon_loop]; rewrite H; reflexivity.
Qed.

Lemma cronemu_loop_true n fuel w mon mday hour min w' :
  cronemu_mon n w mon mday hour min = Some (true, w') ->
  cronemu_loop n fuel w mon mday hour min = Some w'.
Proof.
  intro H. destruct fuel; cbn [cronemu_loop]; rewrite H; reflexivity.
Qed.

Section Search.
Variables mon mday hour min : Z.
Hypothesis Hmon : cron_field 0 11 mon.
Hypothesis Hmday : cron_field 1 31 mday.
Hypothesis Hhour : cron_field 0 23 hour.
Hypothesis Hmin : cron_field 0 59 min.

Lemma cronemu_mday_midnight n w :
  tm_hour w = 0 -> tm_min w = 0 -> tm_mday w = 1 ->
  exists w', cronemu_mday n w mday hour min = Some (true, w').
Proof.
  intros H0 M0 D1. unfold cronemu_mday.
  destruct (Z.eqb_spec mday (-1)) as [E|E].
  - rewrite (cronemu_mday_loop_true n n w hour min _
               (cronemu_hour_midnight n w hour min H0 M0 Hhour Hmin)).
    eauto.
  - destruct Hmday as [F|F]; [contradiction|]. rewrite D1.
    destruct (Z.ltb_spec mday 1); [lia|].
    destruct (1 <? mday);
      (rewrite cronemu_hour_midnight; [eauto|auto..]).
Qed.

Lemma cronemu_mday_on_day n D w :
  on_day D w ->
  exists b w',
    cronemu_mday (S n) w mday hour min = Some (b, w') /\
    (b = false ->
     tm_year w' = tm_year w /\ tm_mon w' = tm_mon w /\ tm_sec w' = 0).
Proof.
  intros Hw. unfold cronemu_mday.
  assert (Hkeep : forall w', on_day D w' ->
            tm_year w' = tm_year w /\ tm_mon w' = tm_mon w /\ tm_sec w' = 0).
  { intros w' (Hc' & _ & Hs' & _). destruct Hw as (Hc & _).
    rewrite Hc in Hc'.
    pose proof (f_equal (fun p => fst (fst p)) Hc') as Ey.
    pose proof (f_equal (fun p => snd (fst p)) Hc') as Em.
    cbn [fst snd] in Ey, Em. repeat split; [lia|lia|exact Hs']. }
  destruct (Z.eqb_spec mday (-1)) as [E|E].
  - cbn [cronemu_mday_loop].
    destruct (cronemu_hour_on_day n D w hour min Hw Hhour Hmin)
      as (b & w1 & E1 & Hw1 & _).
    rewrite E1. destruct b.
    + exists true, w1. split; [reflexivity|discriminate].
    + cbv zeta. unfold mktime. tm_simpl.
      set (w2 := set_tm_min (set_tm_hour (set_tm_mday w1 (tm_mday w1 + 1)) 0) 0).
      assert (Ht : timegm w2 = (D + 1) * 86400).
      { rewrite (timegm_shift D w1 w2 1 Hw1); subst w2; tm_simpl;
          try reflexivity; try lia. apply Hw1. }
      rewrite Ht.
      destruct (negb (tm_mday w1 + 1 =? tm_mday (gmtime ((D + 1) * 86400)))).
      * exists false, w. split; [reflexivity|]. intros _. now apply Hkeep.
      * destruct (gmtime_midnight (D + 1)) as (_ & G0 & G1).
        rewrite (cronemu_mday_loop_true (S n) n _ hour min _
                   (cronemu_hour_midnight (S n) _ hour min G0 G1 Hhour Hmin)).
        eexists true, _. split; [reflexivity|discriminate].
  - destruct Hmday as [F|F]; [contradiction|].
    destruct (Z.ltb_spec mday (tm_mday w)).
    + exists false, w. split; [reflexivity|]. intros _. now apply Hkeep.
    + destruct (Z.ltb_spec (tm_mday w) mday).
      * rewrite cronemu_hour_midnight; auto.
        eexists true, _. split; [reflexivity|discriminate].
      * destruct (cronemu_hour_on_day n D w hour min Hw Hhour Hmin)
          as (b & w1 & E1 & Hw1 & _).
        rewrite E1. exists b, w1. split; [reflexivity|].
        intros _. now apply Hkeep.
Qed.

Lemma cronemu_mon_loop_ends n fuel : forall D w,
  on_day D w -> 11 - tm_mon w < Z.of_nat fuel ->
  exists r, cronemu_mon_loop (S n) fuel w mday hour min = Some r.
Proof.
  induction fuel as [|fuel IH]; intros D w Hw Hf.
  - pose proof (civil_range D) as Hr. destruct Hw as (Hc & _).
    rewrite Hc in Hr. lia.
  - cbn [cronemu_mon_loop].
    destruct (cronemu_mday_on_day n D w Hw) as (b & w1 & E1 & Hk).
    rewrite E1. destruct b; [eauto|].
    destruct (Hk eq_refl) as (Ky & Km & Ks). cbv zeta.
    unfold mktime. tm_simpl.
    set (w2 := set_tm_min
                 (set_tm_hour (set_tm_mday (set_tm_mon w1 (tm_mon w1 + 1)) 1) 0)
                 0).
    assert (Ht : exists T, timegm w2 = T * 86400).
    { unfold timegm. subst w2. tm_simpl. rewrite Ks. eexists.
      rewrite !Z.add_0_r. reflexivity. }
    destruct Ht as (T & Ht). rewrite Ht.
    destruct (gmtime_midnight T) as (G & _).
    destruct (Z.eqb_spec (tm_mon w1 + 1) (tm_mon (gmtime (T * 86400))))
      as [Ec|Ec]; cbn [negb]; [|eauto].
    apply (IH T _ G). lia.
Qed.

Lemma cronemu_mon_first n w :
  tm_hour w = 0 -> tm_min w = 0 -> tm_mday w = 1 -> tm_mon w = 0 ->
  exists w', cronemu_mon n w mon mday hour min = Some (true, w').
Proof.
  intros H0 M0 D1 N0. unfold cronemu_mon.
  destruct (Z.eqb_spec mon (-1)) as [E|E].
  - destruct (cronemu_mday_midnight n w H0 M0 D1) as (w' & E1).
    rewrite (cronemu_mon_loop_true n n w mday hour min w' E1). eauto.
  - destruct Hmon as [F|F]; [contradiction|]. rewrite N0.
    destruct (Z.ltb_spec mon 0); [lia|].
    destruct (0 <? mon); apply cronemu_mday_midnight; auto.
Qed.

Lemma cronemu_mon_on_day n D w :
  (11 <= n)%nat -> on_day D w ->
  exists b w',
    cronemu_mon (S n) w mon mday hour min = Some (b, w') /\
    (b = false -> tm_sec w' = 0).
Proof.
  intros Hn Hw. unfold cronemu_mon.
  assert (Hs : tm_sec w = 0) by apply Hw.
  assert (Hr : 0 <= tm_mon w <= 11).
  { pose proof (civil_range D) as Hr. destruct Hw as (Hc & _).
    rewrite Hc in Hr. lia. }
  destruct (Z.eqb_spec mon (-1)) as [E|E].
  - destruct (cronemu_mon_loop_ends n (S n) D w Hw ltac:(lia)) as (r & Er).
    rewrite Er. destruct r as [w'|].
    + exists true, w'. split; [reflexivity|discriminate].
    + exists false, w. split; [reflexivity|auto].
  - destruct Hmon as [F|F]; [contradiction|].
    destruct (Z.ltb_spec mon (tm_mon w)).
    + exists false, w. split; [reflexivity|auto].
    + destruct (Z.ltb_spec (tm_mon w) mon).
      * destruct (cronemu_mday_midnight (S n)
                    (set_tm_min
                       (set_tm_hour (set_tm_mday (set_tm_mon w mon) 1) 0) 0)
                    eq_refl eq_refl eq_refl) as (w' & E1).
        rewrite E1. exists true, w'. split; [reflexivity|discriminate].
      * destruct (cronemu_mday_on_day n D w Hw) as (b & w1 & E1 & Hk).
        rewrite E1. exists b, w1. split; [reflexivity|].
        intro Hb. now apply Hk.
Qed.

(** cronemu ends: in the year of now, or on the first of January after. *)
Lemma cronemu_ends n now :
  (12 <= n)%nat ->
  exists wt,
    cronemu_loop n n (cronemu_start now) mon mday hour min = Some wt /\
    cronemu n mon mday hour min now = Some (timegm wt).
Proof.
  intro Hn. destruct n as [|n]; [lia|].
  assert (Hl : exists wt,
            cronemu_loop (S n) (S n) (cronemu_start now) mon mday hour min
            = Some wt).
  { cbn [cronemu_loop].
    destruct (cronemu_mon_on_day n _ _ ltac:(lia) (on_day_start now))
      as (b & w1 & E1 & Hk).
    rewrite E1. destruct b; [eauto|].
    specialize (Hk eq_refl). cbv zeta. unfold mktime. tm_simpl.
    set (w2 := set_tm_min
                 (set_tm_hour
                    (set_tm_mday
                       (set_tm_mon (set_tm_year w1 (tm_year w1 + 1)) 0) 1) 0)
                 0).
    assert (Ht : timegm w2 =
                 days_from_civil (1900 + (tm_year w1 + 1)) 1 1 * 86400).
    { unfold timegm. subst w2. tm_simpl. rewrite Hk.
      change (0 / 12) with 0. change (0 mod 12 + 1) with 1.
      change (1 - 1) with 0.
      rewrite (Z.add_0_r (1900 + (tm_year w1 + 1))).
      generalize (days_from_civil (1900 + (tm_year w1 + 1)) 1 1).
      intro z. lia. }
    rewrite Ht.
    destruct (gmtime_midnight
                (days_from_civil (1900 + (tm_year w1 + 1)) 1 1))
      as ((Hc & _) & G0 & G1).
    rewrite cfd_dfc_jan1 in Hc.
    pose proof (f_equal (fun p => snd (fst p)) Hc) as Em.
    pose proof (f_equal snd Hc) as Ed.
    cbn [fst snd] in Em, Ed.
    assert (Fd : tm_mday (gmtime (days_from_civil (1900 + (tm_year w1 + 1)) 1 1
                                  * 86400)) = 1) by (symmetry; exact Ed).
    assert (Fm : tm_mon (gmtime (days_from_civil (1900 + (tm_year w1 + 1)) 1 1
                                 * 86400)) = 0) by (clear - Em; lia).
    destruct (cronemu_mon_first (S n) _ G0 G1 Fd Fm) as (w' & E2).
    rewrite (cronemu_loop_true (S n) n _ mon mday hour min w' E2). eauto. }
  destruct Hl as (wt & Hl). exists wt. split; [exact Hl|].
  unfold cronemu. rewrite Hl. reflexivity.
Qed.

End Search.

Lemma gmtime_hour_min t :
  tm_hour (gmtime t) = (t mod 86400) / 3600 /\
  tm_min (gmtime t) = ((t mod 86400) / 60) mod 60.
Proof.
  unfold gmtime. destruct (civil_from_days (t / 86400)) as [[y m] d].
  split; reflexivity.
Qed.

Lemma cronemu_start_time now :
  timegm (cronemu_start now) = (now / 60 + 1) * 60.
Proof.
  rewrite (timegm_shift (now / 86400) _ (cronemu_start now) 0
             (on_day_start now)); try reflexivity; try lia.
  destruct (gmtime_hour_min now) as [Eh Em].
  unfold cronemu_start, localtime. tm_simpl. rewrite Eh, Em. zdiv.
Qed.

(** A search whose hour is free, or is the hour of now, ends where it
    starts. *)
Lemma cronemu_immediate n now hour :
  hour = -1 \/ hour = tm_hour (localtime now) ->
  cronemu n (-1) (-1) hour (-1) now = Some ((now / 60 + 1) * 60).
Proof.
  intro Hh. unfold cronemu.
  assert (E : cronemu_hour n (cronemu_start now) hour (-1)
              = Some (true, cronemu_start now)).
  { unfold cronemu_hour. destruct Hh as [->| ->].
    - change (-1 =? -1) with true. cbv iota.
      now rewrite (cronemu_hour_loop_true n _ (-1) (cronemu_start now)).
    - change (tm_hour (cronemu_start now)) with (tm_hour (localtime now)).
      destruct (gmtime_hour_min now) as [Eh _]. unfold localtime.
      destruct (Z.eqb_spec (tm_hour (gmtime now)) (-1)) as [F|_];
        [rewrite Eh in F; zdiv|].
      rewrite Z.ltb_irrefl. reflexivity. }
  assert (E2 : cronemu_mday n (cronemu_start now) (-1) hour (-1)
               = Some (true, cronemu_start now)).
  { unfold cronemu_mday. change (-1 =? -1) with true. cbv iota.
    now rewrite (cronemu_mday_loop_true n n _ hour (-1) _ E). }
  assert (E3 : cronemu_mon n (cronemu_start now) (-1) (-1) hour (-1)
               = Some (true, cronemu_start now)).
  { unfold cronemu_mon. change (-1 =? -1) with true. cbv iota.
    now rewrite (cronemu_mon_loop_true n n _ (-1) hour (-1) _ E2). }
  rewrite (cronemu_loop_true n n _ (-1) (-1) hour (-1) _ E3).
  unfold mktime. cbn [fst]. now rewrite cronemu_start_time.
Qed.

(** C1: what cronemu returns at the end of an hour.  With every field
    free the result is the start of the next whole minute, later than now
    (the fourth law and the first hold there).  When now is in minute 59
    and the spec names the hour of now, leaving the minute free, the
    result is again the start of the next minute, which lies in the next
    hour: its local-time decomposition does not match the hour of the
    spec. *)
Theorem cronemu_minute_carry n now :
  (cronemu n (-1) (-1) (-1) (-1) now = Some ((now / 60 + 1) * 60) /\
   now < (now / 60 + 1) * 60 <= now + 60) /\
  (tm_min (localtime now) = 59 ->
   let hour := tm_hour (localtime now) in
   cronemu n (-1) (-1) hour (-1) now = Some ((now / 60 + 1) * 60) /\
   tm_hour (localtime ((now / 60 + 1) * 60)) <> hour).
Proof.
  split.
  - split; [apply cronemu_immediate; now left|zdiv].
  - intros Hm hour. split; [apply cronemu_immediate; now right|].
    subst hour. unfold localtime in *.
    destruct (gmtime_hour_min now) as [Eh Em].
    destruct (gmtime_hour_min ((now / 60 + 1) * 60)) as [Eh' _].
    rewrite Eh, Eh'. rewrite Em in Hm. zdiv.
Qed.

Lemma cronemu_minute_carry_witness :
  tm_min (localtime 21570) = 59 /\
  tm_hour (localtime 21570) = 5 /\
  cronemu cron_fuel (-1) (-1) 5 (-1) 21570 = Some 21600 /\
  tm_hour (localtime 21600) <> 5.
Proof.
  destruct (cronemu_minute_carry cron_fuel 21570) as [_ H].
  destruct (H eq_refl) as [H1 H2].
  split; [reflexivity|]. split; [reflexivity|]. split; [exact H1|exact H2].
Defined.

(** A day of the month the month does not have is carried the same way:
    asked on 15 April 2024 for the 31st, cronemu answers 1 May. *)
Example cronemu_day_31_in_april :
  cronemu cron_fuel (-1) 31 (-1) (-1) 1713182400 = Some 1714521600 /\
  tm_mon (localtime 1714521600) = 4 /\
  tm_mday (localtime 1714521600) = 1.
Proof. repeat split; vm_compute; reflexivity. Qed.


(** *** The same carry in the weekday search. *)

Lemma cronemu_hour_immediate n now hour :
  hour = -1 \/ hour = tm_hour (localtime now) ->
  cronemu_hour n (cronemu_start now) hour (-1)
  = Some (true, cronemu_start now).
Proof.
  intro Hh. unfold cronemu_hour. destruct Hh as [->| ->].
  - change (-1 =? -1) with true. cbv iota.
    now rewrite (cronemu_hour_loop_true n _ (-1) (cronemu_start now)).
  - change (tm_hour (cronemu_start now)) with (tm_hour (localtime now)).
    destruct (gmtime_hour_min now) as [Eh _]. unfold localtime.
    destruct (Z.eqb_spec (tm_hour (gmtime now)) (-1)) as [F|_];
      [rewrite Eh in F; zdiv|].
    rewrite Z.ltb_irrefl. reflexivity.
Qed.

(** A weekday search for the weekday of now whose hour is free, or is the
    hour of now, ends where it starts. *)
Lemma cronemu_wday_immediate n now wday hour :
  (if wday =? 7 then 0 else wday) = tm_wday (localtime now) ->
  hour = -1 \/ hour = tm_hour (localtime now) ->
  cronemu_wday n wday hour (-1) now = Some ((now / 60 + 1) * 60).
Proof.
  intros Hw Hh. unfold cronemu_wday. rewrite Hw.
  assert (L : forall fuel,
            cronemu_wday_loop n fuel (cronemu_start now)
              (tm_wday (localtime now)) hour (-1)
            = Some (cronemu_start now)).
  { intro fuel. destruct fuel; cbn [cronemu_wday_loop];
      change (tm_wday (cronemu_start now)) with (tm_wday (localtime now));
      rewrite Z.eqb_refl; cbn [negb];
      rewrite (cronemu_hour_immediate n now hour Hh); reflexivity. }
  rewrite L. unfold mktime. cbn [fst]. now rewrite cronemu_start_time.
Qed.

Lemma gmtime_wday t : tm_wday (gmtime t) = (t / 86400 + 4) mod 7.
Proof.
  unfold gmtime. destruct (civil_from_days (t / 86400)) as [[y m] d].
  reflexivity.
Qed.

(** The minute after minute 59 lies in another hour, and after 23:59 on
    another day of the week. *)
Lemma minute_carry_hour now :
  tm_min (localtime now) = 59 ->
  tm_hour (localtime ((now / 60 + 1) * 60)) <> tm_hour (localtime now).
Proof.
  intro Hm. unfold localtime in *.
  destruct (gmtime_hour_min now) as [Eh Em].
  destruct (gmtime_hour_min ((now / 60 + 1) * 60)) as [Eh' _].
  rewrite Eh, Eh'. rewrite Em in Hm. zdiv.
Qed.

Lemma minute_carry_wday now :
  tm_min (localtime now) = 59 -> tm_hour (localtime now) = 23 ->
  tm_wday (localtime ((now / 60 + 1) * 60)) <> tm_wday (localtime now).
Proof.
  intros Hm Hh. unfold localtime in *.
  destruct (gmtime_hour_min now) as [Eh Em]. rewrite Em in Hm.
  rewrite Eh in Hh. rewrite !gmtime_wday.
  assert (E : (now / 60 + 1) * 60 / 86400 = now / 86400 + 1) by zdiv.
  rewrite E. zdiv.
Qed.

(** *** A minute below -1. *)

Lemma gmtime_min_nonneg t : 0 <= tm_min (gmtime t).
Proof. destruct (gmtime_hour_min t) as [_ ->]. zdiv. Qed.

Lemma cronemu_min_never w min :
  min < -1 -> 0 <= tm_min w -> cronemu_min w min = (false, w).
Proof.
  intros Hm Hw. unfold cronemu_min.
  destruct (Z.eqb_spec min (-1)); [lia|].
  destruct (Z.ltb_spec min (tm_min w)); [reflexivity|lia].
Qed.

Lemma cronemu_hour_loop_never min fuel :
  min < -1 -> forall w, 0 <= tm_min w ->
  cronemu_hour_loop fuel w min = None \/
  cronemu_hour_loop fuel w min = Some None.
Proof.
  intro Hm. induction fuel as [|fuel IH]; intros w Hw;
    cbn [cronemu_hour_loop]; rewrite (cronemu_min_never w min Hm Hw).
  - now left.
  - cbv zeta. unfold mktime. cbn [snd].
    match goal with |- context [if ?b then _ else _] => destruct b end;
      [now right|].
    apply IH, gmtime_min_nonneg.
Qed.

Lemma cronemu_hour_never n w hour min :
  min < -1 -> 0 <= tm_min w ->
  cronemu_hour n w hour min = None \/
  exists w', cronemu_hour n w hour min = Some (false, w').
Proof.
  intros Hm Hw. unfold cronemu_hour. destruct (hour =? -1).
  - destruct (cronemu_hour_loop_never min n Hm w Hw) as [-> | ->];
      [now left|right; now exists w].
  - destruct (hour <? tm_hour w); [right; now exists w|].
    right. destruct (tm_hour w <? hour).
    + eexists. now rewrite cronemu_min_never by (tm_simpl; lia).
    + eexists. now rewrite cronemu_min_never.
Qed.

Lemma cronemu_mday_loop_never n hour min fuel :
  min < -1 -> forall w, 0 <= tm_min w ->
  cronemu_mday_loop n fuel w hour min = None \/
  cronemu_mday_loop n fuel w hour min = Some None.
Proof.
  intro Hm. induction fuel as [|fuel IH]; intros w Hw;
    cbn [cronemu_mday_loop];
    destruct (cronemu_hour_never n w hour min Hm Hw) as [-> | (w' & ->)];
    try (now left).
  cbv zeta. unfold mktime. cbn [snd].
  match goal with |- context [if ?b then _ else _] => destruct b end;
    [now right|].
  apply IH, gmtime_min_nonneg.
Qed.

Lemma cronemu_mday_never n w mday hour min :
  min < -1 -> 0 <= tm_min w ->
  cronemu_mday n w mday hour min = None \/
  exists w', cronemu_mday n w mday hour min = Some (false, w').
Proof.
  intros Hm Hw. unfold cronemu_mday. destruct (mday =? -1).
  - destruct (cronemu_mday_loop_never n hour min n Hm w Hw) as [-> | ->];
      [now left|right; now exists w].
  - destruct (mday <? tm_mday w); [right; now exists w|].
    destruct (tm_mday w <? mday); apply cronemu_hour_never; tm_simpl; lia.
Qed.

Lemma cronemu_mon_loop_never n mday hour min fuel :
  min < -1 -> forall w, 0 <= tm_min w ->
  cronemu_mon_loop n fuel w mday hour min = None \/
  cronemu_mon_loop n fuel w mday hour min = Some None.
Proof.
  intro Hm. induction fuel as [|fuel IH]; intros w Hw;
    cbn [cronemu_mon_loop];
    destruct (cronemu_mday_never n w mday hour min Hm Hw) as [-> | (w' & ->)];
    try (now left).
  cbv zeta. unfold mktime. cbn [snd].
  match goal with |- context [if ?b then _ else _] => destruct b end;
    [now right|].
  apply IH, gmtime_min_nonneg.
Qed.

Lemma cronemu_mon_never n w mon mday hour min :
  min < -1 -> 0 <= tm_min w ->
  cronemu_mon n w mon mday hour min = None \/
  exists w', cronemu_mon n w mon mday hour min = Some (false, w').
Proof.
  intros Hm Hw. unfold cronemu_mon. destruct (mon =? -1).
  - destruct (cronemu_mon_loop_never n mday hour min n Hm w Hw) as [-> | ->];
      [now left|right; now exists w].
  - destruct (mon <? tm_mon w); [right; now exists w|].
    destruct (tm_mon w <? mon); apply cronemu_mday_never; tm_simpl; lia.
Qed.

Lemma cronemu_loop_never n mon mday hour min fuel :
  min < -1 -> forall w, 0 <= tm_min w ->
  cronemu_loop n fuel w mon mday hour min = None.
Proof.
  intro Hm. induction fuel as [|fuel IH]; intros w Hw;
    cbn [cronemu_loop];
    destruct (cronemu_mon_never n w mon mday hour min Hm Hw)
      as [-> | (w' & ->)]; try reflexivity.
  cbv zeta. unfold mktime. cbn [snd]. apply IH, gmtime_min_nonneg.
Qed.

Lemma cronemu_wday_loop_never n wday hour min fuel :
  min < -1 -> forall w, 0 <= tm_min w ->
  cronemu_wday_loop n fuel w wday hour min = None.
Proof.
  intro Hm. induction fuel as [|fuel IH]; intros w Hw;
    cbn [cronemu_wday_loop]; cbv zeta.
  - destruct (negb (tm_wday w =? wday)); [reflexivity|].
    now destruct (cronemu_hour_never n w hour min Hm Hw) as [-> | (w' & ->)].
  - assert (Hnext : forall v,
              match cronemu_hour n
                      (set_tm_min (set_tm_hour
                                     (set_tm_mday v (tm_mday v + 1)) 0) 0)
                      hour min with
              | None => None
              | Some (_, w2) =>
                  cronemu_wday_loop n fuel (snd (mktime w2)) wday hour min
              end = None).
    { intro v.
      destruct (cronemu_hour n _ hour min) as [[b w2]|]; [|reflexivity].
      unfold mktime. cbn [snd]. apply IH, gmtime_min_nonneg. }
    destruct (negb (tm_wday w =? wday)); [apply Hnext|].
    destruct (cronemu_hour_never n w hour min Hm Hw) as [-> | (w' & ->)];
      [reflexivity|]. cbn [negb]. apply Hnext.
Qed.

Lemma cronemu_start_min now : 0 <= tm_min (cronemu_start now).
Proof.
  unfold cronemu_start, localtime. tm_simpl.
  pose proof (gmtime_min_nonneg now). lia.
Qed.

(** X16: a calendar minute below -1 is never matched.  However many
    rounds its loops are given, neither cronemu nor cronemu_wday finds a
    time: no round of the year loop of cronemu, and no round of the day
    loop of cronemu_wday, succeeds. *)
Theorem cronemu_negative_minute_never_ends n mon mday wday hour min now :
  min < -1 ->
  cronemu n mon mday hour min now = None /\
  cronemu_wday n wday hour min now = None.
Proof.
  intro Hm. unfold cronemu, cronemu_wday. cbv zeta.
  rewrite (cronemu_loop_never n mon mday hour min n Hm _
             (cronemu_start_min now)).
  rewrite (cronemu_wday_loop_never n _ hour min n Hm _
             (cronemu_start_min now)).
  split; reflexivity.
Qed.

Lemma cronemu_negative_minute_never_ends_witness :
  cronemu cron_fuel (-1) (-1) (-1) (-5) 1000 = None /\
  cronemu_wday cron_fuel 3 (-1) (-5) 1000 = None.
Proof.
  apply (cronemu_negative_minute_never_ends cron_fuel (-1) (-1) 3 (-1) (-5)
           1000).
  lia.
Defined.


Lemma cronemu_never n mon mday hour min now :
  min < -1 -> cronemu n mon mday hour min now = None.
Proof.
  intro Hm. unfold cronemu.
  now rewrite (cronemu_loop_never n mon mday hour min n Hm _
                 (cronemu_start_min now)).
Qed.


(** *** The day after, and the first time at a clock reading. *)

Lemma days_check_spec n : forall z,
  days_check n z (civil_from_days z) = true ->
  forall i, 0 <= i < Z.of_nat n ->
    next_civil (civil_from_days (z + i)) (civil_from_days (z + i + 1)) = true.
Proof.
  induction n as [|n IH]; intros z H i Hi; [lia|].
  cbn [days_check] in H. cbv zeta in H.
  apply andb_prop in H. destruct H as [H1 H2].
  destruct (Z.eq_dec i 0) as [->|N].
  - now rewrite Z.add_0_r.
  - replace (z + i) with (z + 1 + (i - 1)) by lia.
    apply (IH (z + 1) H2). lia.
Qed.

Lemma era_checked :
  days_check (Z.to_nat 146097) (-719468) (civil_from_days (-719468)) = true.
Proof. vm_compute. reflexivity. Qed.

Lemma civil_from_days_era z k :
  civil_from_days (z + 146097 * k)
  = let '(y, m, d) := civil_from_days z in (y + 400 * k, m, d).
Proof.
  unfold civil_from_days. cbv zeta.
  replace (z + 146097 * k + 719468) with (z + 719468 + k * 146097) by lia.
  rewrite Z.div_add by lia.
  set (e := (z + 719468) / 146097).
  replace (z + 719468 + k * 146097 - (e + k) * 146097)
    with (z + 719468 - e * 146097) by lia.
  set (doe := z + 719468 - e * 146097).
  set (yoe := (doe - doe / 1460 + doe / 36524 - doe / 146096) / 365).
  set (doy := doe - (365 * yoe + yoe / 4 - yoe / 100)).
  set (mp := (5 * doy + 2) / 153).
  destruct (mp <? 10); match goal with
                       | |- context [if ?b then _ else _] => destruct b
                       end; f_equal; f_equal; lia.
Qed.

Lemma next_civil_era c c' k :
  next_civil c c' = true ->
  next_civil (let '(y, m, d) := c in (y + 400 * k, m, d))
             (let '(y, m, d) := c' in (y + 400 * k, m, d)) = true.
Proof.
  destruct c as [[y m] d], c' as [[y2 m2] d2]. unfold next_civil.
  assert (E1 : (y2 + 400 * k =? y + 400 * k) = (y2 =? y)).
  { destruct (Z.eqb_spec y2 y), (Z.eqb_spec (y2 + 400 * k) (y + 400 * k));
      lia || reflexivity. }
  assert (E2 : (y2 + 400 * k =? y + 400 * k + 1) = (y2 =? y + 1)).
  { destruct (Z.eqb_spec y2 (y + 1)),
      (Z.eqb_spec (y2 + 400 * k) (y + 400 * k + 1)); lia || reflexivity. }
  now rewrite E1, E2.
Qed.

Lemma civil_successor D :
  next_civil (civil_from_days D) (civil_from_days (D + 1)) = true.
Proof.
  set (k := (D + 719468) / 146097).
  set (i := (D + 719468) mod 146097).
  assert (Hi : 0 <= i < 146097) by (apply Z.mod_pos_bound; lia).
  assert (HD : D = -719468 + i + 146097 * k).
  { unfold i, k. pose proof (Z.div_mod (D + 719468) 146097). lia. }
  rewrite HD.
  replace (-719468 + i + 146097 * k + 1)
    with (-719468 + i + 1 + 146097 * k) by lia.
  rewrite !civil_from_days_era.
  apply next_civil_era.
  apply (days_check_spec (Z.to_nat 146097) (-719468) era_checked).
  rewrite Z2Nat.id; lia.
Qed.

Section DailySearch.
Variables hour min : Z.
Hypothesis Hhour : cron_field 0 23 hour.
Hypothesis Hmin : cron_field 0 59 min.

Lemma midnight_mday n w :
  tm_hour w = 0 -> tm_min w = 0 ->
  cronemu_mday n w (-1) hour min = Some (true, settle w hour min).
Proof.
  intros H0 M0. unfold cronemu_mday. change (-1 =? -1) with true. cbv iota.
  now rewrite (cronemu_mday_loop_true n n w hour min _
                 (cronemu_hour_midnight n w hour min H0 M0 Hhour Hmin)).
Qed.

Lemma midnight_mon n w :
  tm_hour w = 0 -> tm_min w = 0 ->
  cronemu_mon n w (-1) (-1) hour min = Some (true, settle w hour min).
Proof.
  intros H0 M0. unfold cronemu_mon. change (-1 =? -1) with true. cbv iota.
  now rewrite (cronemu_mon_loop_true n n w (-1) hour min _
                 (midnight_mday n w H0 M0)).
Qed.

Lemma next_day_search n D s :
  on_day D s ->
  cronemu_hour (S n) s hour min = Some (false, s) ->
  cronemu_loop (S n) (S n) s (-1) (-1) hour min
  = Some (settle (gmtime ((D + 1) * 86400)) hour min).
Proof.
  intros Hs Hfalse.
  set (w2 := gmtime ((D + 1) * 86400)).
  destruct (gmtime_midnight (D + 1)) as (Hod2 & Hh2 & Hm2). fold w2 in Hod2, Hh2, Hm2.
  pose proof (civil_successor D) as Hsucc.
  pose proof Hs as (Hc & _ & Hsec & _).
  pose proof Hod2 as (Hc2 & _).
  rewrite Hc, Hc2 in Hsucc. unfold next_civil in Hsucc.
  pose proof (dfc_cfd (D + 1)) as Hdfc. rewrite Hc2 in Hdfc.
  pose proof (civil_range D) as Hr. rewrite Hc in Hr.
  (* the day after, by day *)
  assert (N1 : snd (mktime (set_tm_min (set_tm_hour
                 (set_tm_mday s (tm_mday s + 1)) 0) 0)) = w2).
  { unfold mktime. cbn [snd].
    rewrite (timegm_shift D s _ 1 Hs); try reflexivity; [|exact Hsec].
    tm_simpl. unfold w2. f_equal. lia. }
  (* the day after, by month *)
  assert (N2 : tm_mday s + 1 <> tm_mday w2 ->
               snd (mktime (set_tm_min (set_tm_hour
                 (set_tm_mday (set_tm_mon s (tm_mon s + 1)) 1) 0) 0)) = w2
               /\ (tm_mon s + 1 <> tm_mon w2 ->
                   snd (mktime (set_tm_min (set_tm_hour
                     (set_tm_mday (set_tm_mon
                        (set_tm_year s (tm_year s + 1)) 0) 1) 0) 0)) = w2)).
  { intro Hne.
    assert (Hcase : tm_mday w2 = 1 /\
             ((tm_year w2 = tm_year s /\ tm_mon w2 = tm_mon s + 1
               /\ tm_mon s + 1 < 12)
              \/ (tm_year w2 = tm_year s + 1 /\ tm_mon w2 = 0
                  /\ tm_mon s + 1 = 12))).
    { destruct (Z.eqb_spec (tm_mday w2) (tm_mday s + 1)) as [F|_];
        [lia|].
      rewrite Bool.andb_false_r in Hsucc. cbn [orb negb andb] in Hsucc.
      destruct (Z.eqb_spec (tm_mday w2) 1) as [E1|]; [|discriminate].
      split; [exact E1|]. cbn [andb] in Hsucc.
      apply Bool.orb_true_iff in Hsucc. destruct Hsucc as [Hb|Hb];
        [left|right]; rewrite !Bool.andb_true_iff in Hb;
        rewrite ?Z.eqb_eq, ?Z.ltb_lt in Hb; lia. }
    destruct Hcase as (Hd1 & Hcase).
    split.
    - unfold mktime. cbn [snd]. unfold w2. f_equal.
      unfold timegm. tm_simpl.
      destruct Hcase as [(Hy & Hm & Hlt)|(Hy & Hm & Heq)].
      + assert (E1 : (tm_mon s + 1) / 12 = 0) by zdiv.
        assert (E2 : (tm_mon s + 1) mod 12 + 1 = tm_mon w2 + 1) by zdiv.
        assert (E : days_from_civil (1900 + tm_year s + (tm_mon s + 1) / 12)
                      ((tm_mon s + 1) mod 12 + 1) 1 = D + 1).
        { rewrite E1, E2.
          replace (1900 + tm_year s + 0) with (1900 + tm_year w2) by lia.
          rewrite Hd1 in Hdfc. exact Hdfc. }
        rewrite E, Hsec. lia.
      + assert (E : days_from_civil (1900 + tm_year s + (tm_mon s + 1) / 12)
                      ((tm_mon s + 1) mod 12 + 1) 1 = D + 1).
        { rewrite Heq. change (12 / 12) with 1.
          change (12 mod 12 + 1) with 1.
          replace (1900 + tm_year s + 1) with (1900 + tm_year w2) by lia.
          rewrite Hd1, Hm in Hdfc. exact Hdfc. }
        rewrite E, Hsec. lia.
    - intro Hnm. destruct Hcase as [(Hy & Hm & Hlt)|(Hy & Hm & Heq)];
        [lia|].
      unfold mktime. cbn [snd]. unfold w2. f_equal.
      unfold timegm. tm_simpl.
      assert (E : days_from_civil (1900 + (tm_year s + 1) + 0 / 12)
                    (0 mod 12 + 1) 1 = D + 1).
      { change (0 / 12) with 0. change (0 mod 12 + 1) with 1.
        replace (1900 + (tm_year s + 1) + 0) with (1900 + tm_year w2)
          by lia.
        rewrite Hd1, Hm in Hdfc. exact Hdfc. }
      rewrite E, Hsec. lia. }
  (* the three searches *)
  assert (Hmday : cronemu_mday (S n) s (-1) hour min
                  = if negb (tm_mday s + 1 =? tm_mday w2)
                    then Some (false, s)
                    else Some (true, settle w2 hour min)).
  { unfold cronemu_mday. change (-1 =? -1) with true. cbv iota.
    cbn [cronemu_mday_loop]. rewrite Hfalse. cbv zeta. rewrite N1.
    tm_simpl.
    destruct (negb (tm_mday s + 1 =? tm_mday w2)); [reflexivity|].
    now rewrite (cronemu_mday_loop_true (S n) n w2 hour min _
                   (cronemu_hour_midnight (S n) w2 hour min Hh2 Hm2
                      Hhour Hmin)). }
  cbn [cronemu_loop].
  unfold cronemu_mon at 1. change (-1 =? -1) with true. cbv iota.
  cbn [cronemu_mon_loop]. rewrite Hmday.
  destruct (Z.eqb_spec (tm_mday s + 1) (tm_mday w2)) as [Ed|Ed];
    cbn [negb]; [reflexivity|].
  destruct (N2 Ed) as (N2a & N2b). cbv zeta. rewrite N2a. tm_simpl.
  destruct (Z.eqb_spec (tm_mon s + 1) (tm_mon w2)) as [Em|Em]; cbn [negb].
  - now rewrite (cronemu_mon_loop_true (S n) n w2 (-1) hour min _
                   (midnight_mday (S n) w2 Hh2 Hm2)).
  - rewrite (N2b Em).
    now rewrite (cronemu_loop_true (S n) n w2 (-1) (-1) hour min _
                   (midnight_mon (S n) w2 Hh2 Hm2)).
Qed.

End DailySearch.

Lemma clock_match_at D hh mm hour :
  0 <= hh <= 23 -> 0 <= mm <= 59 -> hour = -1 \/ hh = hour ->
  clock_match hour mm (D * 86400 + hh * 3600 + mm * 60).
Proof.
  intros Hh Hm Hc. unfold clock_match.
  split; [zdiv|]. split; [zdiv|].
  destruct Hc as [Hc|Hc]; [now left|right]. subst hour. zdiv.
Qed.

Lemma clock_match_form hour mm u :
  clock_match hour mm u ->
  exists Du hu, u = Du * 86400 + hu * 3600 + mm * 60 /\
                0 <= hu <= 23 /\ 0 <= mm <= 59 /\ (hour = -1 \/ hu = hour).
Proof.
  intros (H1 & H2 & H3).
  exists (u / 86400), ((u mod 86400) / 3600).
  split; [zdiv|]. split; [zdiv|]. split; [zdiv|]. exact H3.
Qed.

Lemma now_form now :
  exists sec,
    now = (now / 86400) * 86400 + tm_hour (cronemu_start now) * 3600
          + (tm_min (cronemu_start now) - 1) * 60 + sec /\
    0 <= sec < 60 /\
    0 <= tm_hour (cronemu_start now) <= 23 /\
    1 <= tm_min (cronemu_start now) <= 60.
Proof.
  destruct (gmtime_hour_min now) as [Eh Em].
  unfold cronemu_start, localtime. tm_simpl. rewrite Eh, Em.
  exists (now mod 60). repeat split; zdiv.
Qed.

Lemma cronemu_min_at w min :
  0 <= min -> tm_min w <= min ->
  exists w', cronemu_min w min = (true, w') /\
             tm_min w' = min /\ tm_hour w' = tm_hour w /\
             tm_year w' = tm_year w /\ tm_mon w' = tm_mon w /\
             tm_mday w' = tm_mday w /\ tm_sec w' = tm_sec w.
Proof.
  intros H0 Hle. unfold cronemu_min.
  destruct (Z.eqb_spec min (-1)); [lia|].
  destruct (Z.ltb_spec min (tm_min w)); [lia|].
  destruct (Z.ltb_spec (tm_min w) min).
  - eexists. split; [reflexivity|]. tm_simpl. repeat split.
  - exists w. split; [reflexivity|]. repeat split. lia.
Qed.

Lemma cronemu_min_past w min :
  0 <= min -> min < tm_min w -> cronemu_min w min = (false, w).
Proof.
  intros H0 Hlt. unfold cronemu_min.
  destruct (Z.eqb_spec min (-1)); [lia|].
  destruct (Z.ltb_spec min (tm_min w)); [reflexivity|lia].
Qed.

Lemma timegm_same_day D w w' :
  on_day D w ->
  tm_year w' = tm_year w -> tm_mon w' = tm_mon w ->
  tm_mday w' = tm_mday w -> tm_sec w' = tm_sec w ->
  timegm w' = D * 86400 + tm_hour w' * 3600 + tm_min w' * 60.
Proof.
  intros Hw Hy Hm Hd Hs.
  rewrite (timegm_shift D w w' 0 Hw Hy Hm); [f_equal; f_equal; lia|lia|].
  destruct Hw as (_ & _ & H0 & _). congruence.
Qed.

Lemma clock_on_the_hour D h :
  0 <= h <= 24 ->
  (D * 86400 + h * 3600) mod 86400 / 3600 = (if h =? 24 then 0 else h) /\
  ((D * 86400 + h * 3600) mod 86400 / 60) mod 60 = 0.
Proof.
  intro Hh. destruct (Z.eqb_spec h 24) as [->|N]; split; zdiv.
Qed.

Lemma start_hour n hour min now :
  cron_field 0 23 hour -> 0 <= min <= 59 ->
  let s := cronemu_start now in
  (exists w' hh,
     cronemu_hour (S n) s hour min = Some (true, w') /\
     timegm w' = (now / 86400) * 86400 + hh * 3600 + min * 60 /\
     0 <= hh <= 23 /\ (hour = -1 \/ hh = hour) /\
     ((hh = tm_hour s /\ tm_min s <= min) \/
      (hh = tm_hour s + 1 /\ hour = -1 /\ min < tm_min s) \/
      (tm_hour s < hh /\ hh = hour)))
  \/
  (cronemu_hour (S n) s hour min = Some (false, s) /\
   ((hour = -1 /\ tm_hour s = 23 /\ min < tm_min s) \/
    (hour <> -1 /\
     (hour < tm_hour s \/ (hour = tm_hour s /\ min < tm_min s))))).
Proof.
  intros Hh Hm s.
  pose proof (on_day_start now) as Hs. fold s in Hs.
  pose proof Hs as (_ & _ & Hsec & Hhr).
  clearbody s.
  unfold cronemu_hour.
  destruct (Z.eqb_spec hour (-1)) as [E|E].
  - (* any hour *)
    cbn [cronemu_hour_loop].
    destruct (Z.lt_ge_cases min (tm_min s)) as [Hlt|Hge].
    + rewrite (cronemu_min_past s min) by lia. cbv zeta.
      set (w1 := set_tm_min (set_tm_hour s (tm_hour s + 1)) 0).
      assert (Ht : timegm w1 = (now / 86400) * 86400
                               + (tm_hour s + 1) * 3600).
      { rewrite (timegm_same_day (now / 86400) s w1 Hs);
          try reflexivity. unfold w1. tm_simpl. lia. }
      unfold mktime. cbn [snd]. rewrite Ht.
      destruct (gmtime_hour_min
                  ((now / 86400) * 86400 + (tm_hour s + 1) * 3600))
        as [Eh2 Em2].
      change (tm_hour w1) with (tm_hour s + 1).
      destruct (Z.eq_dec (tm_hour s) 23) as [E23|N23].
      * right.
        destruct (clock_on_the_hour (now / 86400) (tm_hour s + 1))
          as [Eh3 _]; [lia|].
        rewrite E23 in Eh3 at 2. change (23 + 1 =? 24) with true in Eh3.
        rewrite Eh2, Eh3.
        destruct (Z.eqb_spec (tm_hour s + 1) 0) as [F|_]; [lia|].
        cbn [negb]. split; [reflexivity|]. left. auto.
      * left.
        destruct (clock_on_the_hour (now / 86400) (tm_hour s + 1))
          as [Eh3 Em3]; [lia|].
        assert (E24 : (tm_hour s + 1 =? 24) = false)
          by (apply Z.eqb_neq; lia).
        rewrite E24 in Eh3.
        rewrite Eh2, Eh3, Z.eqb_refl. cbn [negb].
        set (w2 := gmtime ((now / 86400) * 86400 + (tm_hour s + 1) * 3600))
          in *.
        assert (Hod2 : on_day (now / 86400) w2).
        { apply gmtime_on_day; [lia|].
          generalize (tm_hour s). intro h. zdiv. }
        destruct (cronemu_min_at w2 min) as (w' & Ec & F1 & F2 & F3 & F4
                                              & F5 & F6); [lia|lia|].
        rewrite (cronemu_hour_loop_true n w2 min w' Ec).
        exists w', (tm_hour s + 1). split; [reflexivity|].
        split.
        { rewrite (timegm_same_day (now / 86400) w2 w' Hod2);
            try assumption. rewrite F1, F2, Eh2, Eh3. lia. }
        split; [lia|]. split; [now left|]. right. left. auto.
    + left.
      destruct (cronemu_min_at s min) as (w' & Ec & F1 & F2 & F3 & F4
                                          & F5 & F6); [lia|lia|].
      rewrite Ec. exists w', (tm_hour s). split; [reflexivity|].
      split.
      { rewrite (timegm_same_day (now / 86400) s w' Hs); try assumption.
        rewrite F1, F2. lia. }
      split; [lia|]. split; [now left|]. left. auto.
  - (* a given hour *)
    destruct Hh as [Hh|Hh]; [contradiction|].
    destruct (Z.ltb_spec hour (tm_hour s)) as [Hlt|Hge].
    + right. split; [reflexivity|]. right. split; [exact E|]. now left.
    + destruct (Z.ltb_spec (tm_hour s) hour) as [Hlt2|Hge2].
      * left.
        set (w1 := set_tm_min (set_tm_hour s hour) 0).
        destruct (cronemu_min_at w1 min) as (w' & Ec & F1 & F2 & F3 & F4
                                              & F5 & F6);
          [lia|unfold w1; tm_simpl; lia|].
        rewrite Ec. exists w', hour. split; [reflexivity|].
        split.
        { rewrite (timegm_same_day (now / 86400) s w' Hs); try assumption.
          rewrite F1, F2. unfold w1. tm_simpl. lia. }
        split; [lia|]. split; [now right|]. right. right. auto.
      * assert (Eq : hour = tm_hour s) by lia.
        destruct (Z.lt_ge_cases min (tm_min s)) as [Hlt3|Hge3].
        -- right. rewrite (cronemu_min_past s min) by lia.
           split; [reflexivity|]. right. split; [exact E|]. right. auto.
        -- left.
           destruct (cronemu_min_at s min) as (w' & Ec & F1 & F2 & F3 & F4
                                               & F5 & F6); [lia|lia|].
           rewrite Ec. exists w', hour. split; [reflexivity|].
           split.
           { rewrite (timegm_same_day (now / 86400) s w' Hs);
               try assumption. rewrite F1, F2. lia. }
           split; [lia|]. split; [now right|]. left. split; [exact Eq|lia].
Qed.

Lemma timegm_settle D hour min :
  cron_field 0 23 hour -> 0 <= min <= 59 ->
  timegm (settle (gmtime (D * 86400)) hour min)
  = D * 86400 + Z.max 0 hour * 3600 + min * 60.
Proof.
  intros Hh Hm.
  destruct (gmtime_midnight D) as (Hod & H0 & M0).
  assert (Hmf : cron_field 0 59 min) by (right; exact Hm).
  destruct (settle_fields (gmtime (D * 86400)) hour min H0 M0 Hh Hmf)
    as (F1 & F2 & F3 & F4 & F5 & F6).
  rewrite (timegm_same_day D (gmtime (D * 86400)) _ Hod F1 F2 F3 F4).
  rewrite F5, F6. lia.
Qed.

(** X27: the clock fields.  With the month and the day of the month
    free, a minute from 0 to 59 and the hour free or from 0 to 23, cronemu
    returns the first whole minute after now that shows the minute, and the
    hour when one is named: a time later than now that matches, with no
    matching whole minute in between.  One round of each loop is enough. *)
Theorem cronemu_clock_first n hour min now :
  cron_field 0 23 hour -> 0 <= min <= 59 ->
  exists t,
    cronemu (S n) (-1) (-1) hour min now = Some t /\
    now < t /\ clock_match hour min t /\
    forall u, now < u < t -> ~ clock_match hour min u.
Proof.
  intros Hh Hm.
  assert (Hmf : cron_field 0 59 min) by (right; exact Hm).
  destruct (now_form now) as (sec & Hnow & Hsec & HH & HM).
  pose proof (on_day_start now) as Hs.
  destruct (start_hour n hour min now Hh Hm)
    as [(w' & hh & Ec & Ht & Hhh & Hor & Hcase)
       |(Ec & Hcase)].
  - (* today *)
    assert (E1 : cronemu_mday (S n) (cronemu_start now) (-1) hour min
                 = Some (true, w')).
    { unfold cronemu_mday. change (-1 =? -1) with true. cbv iota.
      now rewrite (cronemu_mday_loop_true (S n) (S n) _ hour min _ Ec). }
    assert (E2 : cronemu_mon (S n) (cronemu_start now) (-1) (-1) hour min
                 = Some (true, w')).
    { unfold cronemu_mon. change (-1 =? -1) with true. cbv iota.
      now rewrite (cronemu_mon_loop_true (S n) (S n) _ (-1) hour min _ E1). }
    exists (timegm w'). split.
    { unfold cronemu.
      now rewrite (cronemu_loop_true (S n) (S n) _ (-1) (-1) hour min _ E2). }
    rewrite Ht. split; [|split].
    + generalize dependent (now / 86400). intros. lia.
    + now apply clock_match_at.
    + intros u Hu Hc.
      destruct (clock_match_form hour min u Hc)
        as (Du & hu & Eu & Hhu & _ & Hou).
      generalize dependent (now / 86400). intros. lia.
  - (* tomorrow *)
    exists (timegm (settle (gmtime ((now / 86400 + 1) * 86400)) hour min)).
    split.
    { unfold cronemu.
      now rewrite (next_day_search hour min Hh Hmf n (now / 86400) _ Hs Ec). }
    rewrite timegm_settle by assumption.
    split; [|split].
    + generalize dependent (now / 86400). intros. lia.
    + apply clock_match_at; [lia|lia|].
      destruct Hh as [->|Hh]; [now left|right; lia].
    + intros u Hu Hc.
      destruct (clock_match_form hour min u Hc)
        as (Du & hu & Eu & Hhu & _ & Hou).
      generalize dependent (now / 86400). intros. lia.
Qed.

Lemma cronemu_clock_first_witness :
  cronemu cron_fuel (-1) (-1) 3 15 1000000000 = Some 1000005300 /\
  1000000000 < 1000005300 /\ clock_match 3 15 1000005300.
Proof.
  destruct (cronemu_clock_first 63 3 15 1000000000) as (t & E & Hlt & Hc & _).
  - right. lia.
  - lia.
  - assert (Et : t = 1000005300).
    { change (cronemu (S 63)) with (cronemu cron_fuel) in E.
      vm_compute in E. now inversion E. }
    subst t. split; [exact E|]. split; assumption.
Defined.

End Calendar.

(** ** The supervisor (launchd.c) *)

Section Supervisor.
Import Cron Launchd.

(** *** Running a computation: weakest preconditions. *)

Lemma wp_run {A : Type} (c : M A) (Q : A -> World -> Prop) (w : World) :
  wp c Q w -> exists a w', c w = Some (a, w') /\ Q a w'.
Proof.
  unfold wp. destruct (c w) as [[a w']|]; [eauto|contradiction].
Qed.

Lemma wp_eq {A : Type} (c : M A) (a : A) (w w0 : World) :
  wp c (fun a' w' => (a', w') = (a, w0)) w -> c w = Some (a, w0).
Proof.
  unfold wp. destruct (c w) as [[a' w']|]; [congruence|contradiction].
Qed.


Lemma wp_ret {A : Type} (a : A) (Q : A -> World -> Prop) w :
  Q a w -> wp (ret a) Q w.
Proof. exact (fun H => H). Qed.

Lemma wp_bind {A B : Type} (c : M A) (k : A -> M B) Q w :
  wp c (fun a w' => wp (k a) Q w') w -> wp (bind c k) Q w.
Proof.
  unfold wp, bind. destruct (c w) as [[a w']|]; auto.
Qed.

Lemma wp_modify f (Q : unit -> World -> Prop) w :
  Q tt (f w) -> wp (modify f) Q w.
Proof. exact (fun H => H). Qed.

Lemma wp_emit e (Q : unit -> World -> Prop) w :
  Q tt (with_trace w (trace w ++ [e])) -> wp (emit e) Q w.
Proof. exact (fun H => H). Qed.

Lemma wp_get_world (Q : World -> World -> Prop) w :
  Q w w -> wp get_world Q w.
Proof. exact (fun H => H). Qed.

Lemma wp_get_job j x (Q : jobcb -> World -> Prop) w :
  heap_find (heap w) j = Some x -> Q x w -> wp (get_job j) Q w.
Proof. intros H HQ. unfold wp, get_job. now rewrite H. Qed.

Lemma wp_update_job j x f (Q : unit -> World -> Prop) w :
  heap_find (heap w) j = Some x ->
  Q tt (with_heap w (heap_put (heap w) (f x))) ->
  wp (update_job j f) Q w.
Proof.
  intros H HQ. unfold update_job. apply wp_bind.
  eapply wp_get_job; [eassumption|]. now apply wp_modify.
Qed.

Lemma wp_job_log j x pri msg (Q : unit -> World -> Prop) w :
  heap_find (heap w) j = Some x ->
  Q tt (with_trace w
          (trace w ++ [E_syslog pri (label x ++ ": " ++ msg)%string])) ->
  wp (job_log j pri msg) Q w.
Proof.
  intros H HQ. unfold job_log. apply wp_bind.
  eapply wp_get_job; [eassumption|]. now apply wp_emit.
Qed.

Lemma wp_job_log_error j x pri msg (Q : unit -> World -> Prop) w :
  heap_find (heap w) j = Some x ->
  Q tt (with_trace w
          (trace w
           ++ [E_syslog pri (label x ++ ": " ++ msg ++ ": %m")%string])) ->
  wp (job_log_error j pri msg) Q w.
Proof.
  intros H HQ. unfold job_log_error. apply wp_bind.
  eapply wp_get_job; [eassumption|]. now apply wp_emit.
Qed.

Lemma wp_when (b : bool) c (Q : unit -> World -> Prop) w :
  (b = true -> wp c Q w) -> (b = false -> Q tt w) -> wp (when b c) Q w.
Proof. destruct b; intros H1 H2; [apply H1|apply H2]; reflexivity. Qed.


Lemma wp_get_conn fd c (Q : conncb -> World -> Prop) w :
  conn_find (connections w) fd = Some c -> Q c w -> wp (get_conn fd) Q w.
Proof. intros H HQ. unfold wp, get_conn. now rewrite H. Qed.

Lemma wp_kevent_mod env i f fl ff d u (Q : bool -> World -> Prop) w :
  is_null u = false -> is_proc f = false ->
  Q (kevent_ok env i f fl)
    (with_trace w (trace w ++ [E_kevent i f fl ff d u])) ->
  wp (kevent_mod env i f fl ff d u) Q w.
Proof.
  intros U P HQ. unfold kevent_mod. rewrite U, P.
  rewrite Bool.andb_false_r. cbn [andb].
  rewrite Bool.andb_false_r. cbn [andb].
  apply wp_bind, wp_emit, wp_ret. exact HQ.
Qed.

(** *** The heap of job objects. *)

Lemma heap_find_jid h j x : heap_find h j = Some x -> jid x = j.
Proof.
  induction h as [|y t IH]; simpl; [discriminate|].
  destruct (Nat.eqb_spec (jid y) j); [congruence|exact IH].
Qed.

Lemma heap_find_put_same h j x0 x :
  heap_find h j = Some x0 -> jid x = j ->
  heap_find (heap_put h x) j = Some x.
Proof.
  intros H E. subst j. induction h as [|y t IH]; simpl in *; [discriminate|].
  destruct (Nat.eqb_spec (jid y) (jid x)) as [Ey|Ey]; simpl.
  - now rewrite Nat.eqb_refl.
  - destruct (Nat.eqb_spec (jid y) (jid x)); [contradiction|auto].
Qed.


Ltac world_simpl :=
  cbn [heap jobs connections next_jid total_children shutdown_in_progress
       batch_disabler_count environ logmask umask pending_stdout
       pending_stderr trace
       with_heap with_jobs with_connections with_next_jid
       with_total_children with_shutdown_in_progress
       with_batch_disabler_count with_environ with_logmask with_umask
       with_pending_stdout with_pending_stderr with_trace].

Ltac job_simpl :=
  cbn [jid label ldj p execfd start_time failed_exits vnodes qdirs
       start_interval start_cal_interval checkedin firstborn debug throttle
       set_ldj set_p set_execfd set_start_time set_failed_exits set_vnodes
       set_qdirs set_start_interval set_start_cal_interval set_checkedin
       set_firstborn set_debug set_throttle].

(** Where the job stands in the current world. *)
Ltac solve_job_at :=
  world_simpl;
  repeat first
    [ eassumption
    | eapply heap_find_put_same;
      [|job_simpl;
        first [reflexivity|eassumption|eapply heap_find_jid; eassumption]] ].

Ltac wp_step :=
  lazymatch goal with
  | |- wp (bind _ _) _ _ => apply wp_bind
  | |- wp (ret _) _ _ => apply wp_ret
  | |- wp (get_job _) _ _ => eapply wp_get_job; [solve_job_at|]
  | |- wp (update_job _ _) _ _ => eapply wp_update_job; [solve_job_at|]
  | |- wp (job_log _ _ _) _ _ => eapply wp_job_log; [solve_job_at|]
  | |- wp (job_log_error _ _ _) _ _ =>
      eapply wp_job_log_error; [solve_job_at|]
  | |- wp (emit _) _ _ => apply wp_emit
  | |- wp (modify _) _ _ => apply wp_modify
  | |- wp get_world _ _ => apply wp_get_world
  | |- wp (get_conn _) _ _ => eapply wp_get_conn; [world_simpl; eassumption|]
  end; world_simpl.



(** *** Steps that only write to the trace. *)

Lemma with_trace_id w : with_trace w (trace w ++ []) = w.
Proof. rewrite app_nil_r. now destruct w. Qed.

Lemma agrees_refl w : agrees w w.
Proof. now destruct w. Qed.

Lemma agrees_with_trace w0 w t : agrees w0 w -> agrees w0 (with_trace w t).
Proof. exact (fun H => H). Qed.

Lemma agrees_heap w0 w : agrees w0 w -> heap w = heap w0.
Proof. intro H. now rewrite <- H. Qed.

Lemma agrees_jobs w0 w : agrees w0 w -> jobs w = jobs w0.
Proof. intro H. now rewrite <- H. Qed.

Lemma agrees_shutdown w0 w :
  agrees w0 w -> shutdown_in_progress w = shutdown_in_progress w0.
Proof. intro H. now rewrite <- H. Qed.

Lemma logs_ret w0 {A : Type} (a : A) : logs_on w0 (ret a).
Proof.
  intros w _. exists a, []. rewrite with_trace_id. split; [reflexivity|].
  constructor.
Qed.

Lemma logs_emit w0 e : not_send e -> logs_on w0 (emit e).
Proof.
  intros He w _. exists tt, [e]. split; [reflexivity|]. now repeat constructor.
Qed.

Lemma logs_bind w0 {A B : Type} (c : M A) (k : A -> M B) :
  logs_on w0 c -> (forall a, logs_on w0 (k a)) -> logs_on w0 (bind c k).
Proof.
  intros Hc Hk w Hw. destruct (Hc w Hw) as (a & t1 & E1 & F1).
  destruct (Hk a (with_trace w (trace w ++ t1)) Hw) as (b & t2 & E2 & F2).
  exists b, (t1 ++ t2). unfold bind. rewrite E1, E2. world_simpl.
  rewrite app_assoc. split; [reflexivity|]. now apply Forall_app.
Qed.

Lemma logs_get_job_bind w0 {B : Type} j x (k : jobcb -> M B) :
  heap_find (heap w0) j = Some x -> logs_on w0 (k x) ->
  logs_on w0 (bind (get_job j) k).
Proof.
  intros Hj Hk w Hw. unfold bind, get_job.
  rewrite (agrees_heap _ _ Hw), Hj. now apply Hk.
Qed.


Lemma logs_when w0 (b : bool) c : logs_on w0 c -> logs_on w0 (when b c).
Proof. destruct b; [auto|intros _; apply logs_ret]. Qed.

Lemma logs_if w0 {A : Type} (b : bool) (c1 c2 : M A) :
  logs_on w0 c1 -> logs_on w0 c2 -> logs_on w0 (if b then c1 else c2).
Proof. now destruct b. Qed.

Lemma logs_job_log w0 j x pri msg :
  heap_find (heap w0) j = Some x -> logs_on w0 (job_log j pri msg).
Proof.
  intro Hj. unfold job_log. eapply logs_get_job_bind; [eassumption|].
  now apply logs_emit.
Qed.

Lemma logs_job_log_error w0 j x pri msg :
  heap_find (heap w0) j = Some x -> logs_on w0 (job_log_error j pri msg).
Proof.
  intro Hj. unfold job_log_error. eapply logs_get_job_bind; [eassumption|].
  now apply logs_emit.
Qed.

Lemma logs_assumes w0 b : logs_on w0 (assumes b).
Proof.
  destruct b; [apply logs_ret|].
  apply logs_bind; [now apply logs_emit|intro; apply logs_ret].
Qed.

Lemma logs_kevent_mod w0 env i f fl ff d u :
  logs_on w0 (kevent_mod env i f fl ff d u).
Proof.
  unfold kevent_mod. repeat apply logs_if.
  - apply logs_bind; [apply logs_assumes|intro; apply logs_ret].
  - apply logs_ret.
  - apply logs_bind; [now apply logs_emit|intro; apply logs_ret].
Qed.

Lemma logs_fd w0 fd : logs_on w0 (_fd fd).
Proof.
  unfold _fd. apply logs_if; [|apply logs_ret].
  apply logs_bind; [now apply logs_emit|intro; apply logs_ret].
Qed.


Lemma wp_logs_on {A : Type} (c : M A) (Q : A -> World -> Prop) w :
  logs_on w c ->
  (forall a t, Forall not_send t -> Q a (with_trace w (trace w ++ t))) ->
  wp c Q w.
Proof.
  intros Hc HQ. unfold wp. destruct (Hc w (agrees_refl w)) as (a & t & E & F).
  rewrite E. now apply HQ.
Qed.


Ltac solve_logs :=
  repeat first
    [ apply logs_ret | apply logs_emit; exact I | apply logs_assumes
    | apply logs_kevent_mod | apply logs_fd
    | apply logs_when | apply logs_if
    | eapply logs_job_log; solve_job_at
    | eapply logs_job_log_error; solve_job_at
    | apply logs_bind; [|intro] ].

Ltac wp_log :=
  lazymatch goal with
  | |- wp (bind _ _) _ _ => apply wp_bind
  | _ => idtac
  end;
  cbv zeta;
  eapply wp_logs_on; [solve_logs|intros ? ? ?; world_simpl].




(** *** The restart decision. *)









(** *** CheckIn. *)

Lemma assoc_lookup_insert kv v key :
  assoc_lookup (assoc_insert kv v key) key = Some v.
Proof.
  induction kv as [|[k x] t IH]; simpl.
  - now rewrite String.eqb_refl.
  - destruct (String.eqb k key) eqn:E; simpl; rewrite E; auto.
Qed.

Lemma assoc_lookup_insert_other kv v key key' :
  key' <> key ->
  assoc_lookup (assoc_insert kv v key) key' = assoc_lookup kv key'.
Proof.
  intro N. induction kv as [|[k x] t IH]; simpl.
  - destruct (String.eqb_spec key key'); [congruence|reflexivity].
  - destruct (String.eqb_spec k key) as [E|E]; simpl.
    + subst k. destruct (String.eqb_spec key key'); [congruence|reflexivity].
    + destruct (String.eqb k key'); auto.
Qed.




(** *** The dispatcher. *)

Lemma logs_close_fds w0 m : logs_on w0 (launch_data_close_fds m).
Proof.
  induction m using launch_data_deep_ind.
  - induction H as [|[k v] t Hv _ IH]; simpl; [apply logs_ret|].
    apply logs_bind; [exact Hv|intro; exact IH].
  - induction H as [|v t Hv _ IH]; simpl; [apply logs_ret|].
    apply logs_bind; [exact Hv|intro; exact IH].
  - destruct m; simpl in *; try discriminate; solve_logs.
Qed.

(** The table has no key twice: a command is a known verb exactly when it
    is in the table. *)
Lemma verb_of_cmd_table cmd v :
  verb_of_cmd cmd = Some v <-> In (cmd, v) verb_table.
Proof.
  split.
  - unfold verb_of_cmd. generalize verb_table.
    induction l as [|[k u] t IH]; simpl; [discriminate|].
    destruct (String.eqb_spec cmd k) as [E|E].
    + inversion 1; subst. now left.
    + intro H. right. now apply IH.
  - unfold verb_table. simpl.
    intro H.
    repeat (destruct H as [H|H]; [inversion H; subst; reflexivity|]).
    contradiction.
Qed.

Lemma ipc_readmsg2_done env data cmd cfd r w :
  ipc_readmsg2 env data cmd cfd (Some r) w = Some ((Some r, data), w).
Proof. reflexivity. Qed.

Lemma ipc_readmsg_iterate_done env kv cfd r w :
  ipc_readmsg_iterate env kv cfd (Some r) w = Some ((Some r, kv), w).
Proof.
  induction kv as [|[k v] t IH]; simpl; [reflexivity|].
  unfold bind. rewrite ipc_readmsg2_done. cbn [fst snd]. now rewrite IH.
Qed.

Lemma ipc_readmsg_iterate_unknown env kv cfd w :
  Forall (fun e => verb_of_cmd (fst e) = None) kv ->
  ipc_readmsg_iterate env kv cfd None w = Some ((None, kv), w).
Proof.
  induction 1 as [|[k v] t Hk _ IH]; simpl; [reflexivity|].
  simpl in Hk. unfold bind, ipc_readmsg2. cbn [is_some]. rewrite Hk.
  unfold ret. cbn [fst snd]. now rewrite IH.
Qed.

(** The first key that is a known verb decides; the keys before it are
    passed over, the keys after it are not looked at. *)
Lemma ipc_readmsg_iterate_first env pre cmd a post v cfd w :
  Forall (fun e => verb_of_cmd (fst e) = None) pre ->
  verb_of_cmd cmd = Some v ->
  ipc_readmsg_iterate env (pre ++ (cmd, a) :: post) cfd None w =
  (r <- handler env v (Some a) cfd ;;
   ret (Some (fst r),
        pre ++ (cmd, match snd r with Some a' => a' | None => a end) :: post))
    w.
Proof.
  intros Hpre Hv. revert w.
  induction Hpre as [|[k u] t Hk _ IH]; intro w; simpl.
  - unfold bind at 1. unfold ipc_readmsg2. cbn [is_some]. rewrite Hv.
    unfold bind. destruct (handler env v (Some a) cfd w) as [[r w1]|];
      [|reflexivity].
    unfold ret. cbn [fst snd]. now rewrite ipc_readmsg_iterate_done.
  - simpl in Hk. unfold bind at 1. unfold ipc_readmsg2. cbn [is_some].
    rewrite Hk. unfold ret at 1. cbn [fst snd].
    unfold bind at 1. rewrite IH. unfold bind.
    destruct (handler env v (Some a) cfd w) as [[r w1]|]; reflexivity.
Qed.


(** What a stretch of the run added to the trace, when it sent nothing. *)
Ltac solve_ext :=
  world_simpl; eexists; split;
  [ rewrite <- ?app_assoc; reflexivity
  | repeat (apply Forall_app; split); try assumption;
    repeat constructor ].

(** ipc_close runs on a connection that is open, and sends nothing. *)
Lemma ipc_close_quiet env cfd c w :
  conn_find (connections w) cfd = Some c ->
  exists w' t,
    ipc_close env cfd w = Some (tt, w') /\
    trace w' = trace w ++ t /\ Forall not_send t.
Proof.
  intro Hc.
  enough (H : wp (ipc_close env cfd)
            (fun _ w' => exists t, trace w' = trace w ++ t
                                   /\ Forall not_send t) w).
  { apply wp_run in H. destruct H as ([] & w' & E & t & Ht). eauto. }
  unfold ipc_close, batch_job_enable.
  do 5 wp_step.
  cbn [andb negb].
  destruct (disabled_batch c).
  - do 3 wp_step. unfold set_conn_disabled_batch. do 3 wp_step.
    eapply wp_logs_on; [solve_logs|]. intros [] t Ft. world_simpl.
    do 3 wp_step. solve_ext.
  - do 4 wp_step. solve_ext.
Qed.

Lemma wp_ipc_close env cfd c (Q : unit -> World -> Prop) w :
  conn_find (connections w) cfd = Some c ->
  (forall w' t, trace w' = trace w ++ t -> Forall not_send t -> Q tt w') ->
  wp (ipc_close env cfd) Q w.
Proof.
  intros Hc HQ. destruct (ipc_close_quiet env cfd c w Hc)
    as (w' & t & E & T & F).
  unfold wp. rewrite E. now apply (HQ w' t).
Qed.

(** The first half of the dispatcher.  A message that is neither a
    dictionary nor a string gets errno EINVAL.  A command (the string, or
    the first dictionary key that the table knows) that names no known
    verb gets errno ENOSYS.  Otherwise the first half is the handler of
    the first known verb, run on the argument under that key (no argument
    for a string); the keys before it are passed over and the keys after
    it are not run.  Once the first half has returned, ipc_readmsg hands
    its answer to launchd_msg_send, once. *)
Lemma ipc_readmsg_resp_dispatch (env : Env) (cfd : Z) (w : World) :
  (forall msg,
     launch_data_get_type msg <> LAUNCH_DATA_DICTIONARY ->
     launch_data_get_type msg <> LAUNCH_DATA_STRING ->
     ipc_readmsg_resp env msg cfd w = Some ((LD_ERRNO EINVAL, msg), w)) /\
  (forall cmd,
     verb_of_cmd cmd = None ->
     ipc_readmsg_resp env (LD_STRING cmd) cfd w
     = Some ((LD_ERRNO ENOSYS, LD_STRING cmd), w)) /\
  (forall kv,
     Forall (fun e => verb_of_cmd (fst e) = None) kv ->
     ipc_readmsg_resp env (LD_DICTIONARY kv) cfd w
     = Some ((LD_ERRNO ENOSYS, LD_DICTIONARY kv), w)) /\
  (forall cmd v,
     verb_of_cmd cmd = Some v ->
     ipc_readmsg_resp env (LD_STRING cmd) cfd w
     = (r <- handler env v None cfd ;; ret (fst r, LD_STRING cmd)) w) /\
  (forall pre cmd a post v,
     Forall (fun e => verb_of_cmd (fst e) = None) pre ->
     verb_of_cmd cmd = Some v ->
     ipc_readmsg_resp env (LD_DICTIONARY (pre ++ (cmd, a) :: post)) cfd w
     = (r <- handler env v (Some a) cfd ;;
        ret (fst r,
             LD_DICTIONARY
               (pre ++ (cmd, match snd r with Some a' => a' | None => a end)
                       :: post))) w) /\
  (forall cmd v, verb_of_cmd cmd = Some v <-> In (cmd, v) verb_table) /\
  (forall msg resp m w1 c,
     ipc_readmsg_resp env msg cfd w = Some ((resp, m), w1) ->
     conn_find (connections w1) cfd = Some c ->
     exists w2 t,
       ipc_readmsg env msg cfd w = Some (resp, w2) /\
       trace w2 = trace w1 ++ t /\
       filter is_send t = [E_send cfd resp]).
Proof.
  repeat apply conj.
  - intros msg Hd Hs. destruct msg; try reflexivity; contradiction.
  - intros cmd Hv. unfold ipc_readmsg_resp, bind, ipc_readmsg2.
    cbn [is_some]. now rewrite Hv.
  - intros kv Hkv. unfold ipc_readmsg_resp. unfold bind at 1 2.
    now rewrite ipc_readmsg_iterate_unknown.
  - intros cmd v Hv. unfold ipc_readmsg_resp, bind, ipc_readmsg2.
    cbn [is_some]. rewrite Hv. unfold bind.
    destruct (handler env v None cfd w) as [[r w1]|]; reflexivity.
  - intros pre cmd a post v Hpre Hv. unfold ipc_readmsg_resp.
    unfold bind at 1 2. rewrite (ipc_readmsg_iterate_first _ _ _ _ _ v);
      [|assumption|assumption].
    unfold bind. destruct (handler env v (Some a) cfd w) as [[r w1]|];
      reflexivity.
  - apply verb_of_cmd_table.
  - intros msg resp m w1 c E Hc.
    enough (H : wp (ipc_readmsg env msg cfd)
              (fun a w2 => a = resp /\ exists t,
                 trace w2 = trace w1 ++ t /\
                 filter is_send t = [E_send cfd resp]) w).
    { apply wp_run in H. destruct H as (a & w2 & E2 & -> & t & Ht).
      exists w2, t. auto. }
    unfold ipc_readmsg. apply wp_bind. unfold wp at 1. rewrite E.
    cbn [fst snd]. apply wp_bind.
    eapply wp_logs_on; [apply logs_close_fds|]. intros [] t1 F1.
    do 3 wp_step.
    assert (Hsend : forall t2, Forall not_send t2 ->
              filter is_send (t1 ++ [E_send cfd resp] ++ t2)
              = [E_send cfd resp]).
    { intros t2 F2. rewrite !filter_app.
      assert (N : forall l, Forall not_send l -> filter is_send l = []).
      { induction 1 as [|e l He _ IH]; [reflexivity|]. simpl.
        rewrite IH. now destruct e. }
      now rewrite (N t1 F1), (N t2 F2). }
    apply wp_when; intro Herr.
    + destruct (msg_send_errno env =? EAGAIN).
      * eapply wp_logs_on; [solve_logs|]. intros a t2 F2.
        split; [reflexivity|]. world_simpl.
        exists (t1 ++ [E_send cfd resp] ++ t2).
        split; [now rewrite <- !app_assoc|]. now apply Hsend.
      * do 2 wp_step.
        eapply wp_ipc_close; [world_simpl; exact Hc|].
        intros w2 t2 T2 F2. split; [reflexivity|].
        exists (t1 ++ [E_send cfd resp]
                ++ E_syslog LOG_DEBUG "launchd_msg_send() == -1: %m" :: t2).
        split.
        -- rewrite T2. world_simpl. now rewrite <- !app_assoc.
        -- apply Hsend. now constructor.
    + split; [reflexivity|]. world_simpl.
      exists (t1 ++ [E_send cfd resp] ++ []).
      split; [now rewrite app_nil_r, <- app_assoc|].
      apply Hsend. constructor.
Qed.


(** *** What leaves the registry alone. *)

Lemma same_registry_refl w : same_registry w w.
Proof. now repeat split. Qed.

Lemma same_registry_trans w1 w2 w3 :
  same_registry w1 w2 -> same_registry w2 w3 -> same_registry w1 w3.
Proof.
  intros (A1 & B1 & C1 & D1) (A2 & B2 & C2 & D2).
  repeat split; congruence.
Qed.

Lemma heap_put_jids h y : map jid (heap_put h y) = map jid h.
Proof.
  induction h as [|z t IH]; simpl; [reflexivity|].
  destruct (Nat.eqb_spec (jid z) (jid y)); simpl; congruence.
Qed.

Lemma heap_put_labels h x y :
  heap_find h (jid y) = Some x -> label y = label x ->
  map label (heap_put h y) = map label h.
Proof.
  intros Hx Hl. induction h as [|z t IH]; simpl in *; [reflexivity|].
  destruct (Nat.eqb_spec (jid z) (jid y)); simpl.
  - inversion Hx; subst. congruence.
  - now rewrite IH.
Qed.

Section Preserves.
Variable R : World -> World -> Prop.
Hypothesis R_refl : forall w, R w w.
Hypothesis R_trans : forall w1 w2 w3, R w1 w2 -> R w2 w3 -> R w1 w3.

Lemma p_ret {A : Type} (a : A) : preserves R (ret a).
Proof. intros w b w'. inversion 1. apply R_refl. Qed.

Lemma p_fault {A : Type} : preserves R (@fault A).
Proof. intros w b w'. discriminate. Qed.

Lemma p_bind {A B : Type} (c : M A) (k : A -> M B) :
  preserves R c -> (forall a, preserves R (k a)) -> preserves R (bind c k).
Proof.
  intros Hc Hk w b w'. unfold bind.
  destruct (c w) as [[a w1]|] eqn:E; [|discriminate].
  intro E2. eapply R_trans; [eapply Hc; eassumption|eapply Hk; eassumption].
Qed.

Lemma p_modify f : (forall w, R w (f w)) -> preserves R (modify f).
Proof. intros H w b w'. inversion 1. apply H. Qed.

Lemma p_get_world : preserves R get_world.
Proof. intros w b w'. inversion 1. apply R_refl. Qed.

Lemma p_get_job j : preserves R (get_job j).
Proof.
  intros w b w'. unfold get_job. destruct (heap_find (heap w) j);
    inversion 1. apply R_refl.
Qed.

Lemma p_get_conn fd : preserves R (get_conn fd).
Proof.
  intros w b w'. unfold get_conn. destruct (conn_find (connections w) fd);
    inversion 1. apply R_refl.
Qed.

Lemma p_when (b : bool) c : preserves R c -> preserves R (when b c).
Proof. destruct b; [auto|intros _; apply p_ret]. Qed.

Lemma p_if {A : Type} (b : bool) (c1 c2 : M A) :
  preserves R c1 -> preserves R c2 -> preserves R (if b then c1 else c2).
Proof. now destruct b. Qed.

Lemma p_mfor {A : Type} (l : list A) (body : A -> M unit) :
  (forall a, preserves R (body a)) -> preserves R (mfor l body).
Proof.
  intro H. induction l as [|a t IH]; simpl; [apply p_ret|].
  apply p_bind; [apply H|intro; exact IH].
Qed.

End Preserves.

Lemma p_emit e : preserves same_registry (emit e).
Proof. apply p_modify. intro w. now repeat split. Qed.

Lemma p_update_job j f :
  (forall x, jid (f x) = jid x /\ label (f x) = label x) ->
  preserves same_registry (update_job j f).
Proof.
  intros Hf w b w'. unfold update_job, bind, get_job.
  destruct (heap_find (heap w) j) as [x|] eqn:E; [|discriminate].
  inversion 1. destruct (Hf x) as [Hj Hl].
  repeat split; world_simpl.
  - apply heap_put_jids.
  - eapply heap_put_labels; [|exact Hl].
    rewrite Hj, (heap_find_jid _ _ _ E). exact E.
Qed.

Ltac sr := first [exact same_registry_refl|exact same_registry_trans].

Ltac p_prim :=
  first
    [ apply p_ret; sr
    | apply p_fault
    | apply p_emit
    | apply p_get_world; sr
    | apply p_get_job; sr
    | apply p_get_conn; sr
    | apply p_update_job; intro; split; reflexivity
    | apply p_modify; intro; repeat split ].

Ltac p_with known :=
  cbv zeta;
  repeat first
    [ known
    | p_prim
    | apply p_bind; [sr| |intro]
    | apply p_when; [sr|]
    | apply p_mfor; [sr|sr|intro]
    | match goal with
      | |- preserves _ (if ?x then _ else _) => destruct x
      | |- preserves _ (match ?x with Some _ => _ | None => _ end) =>
          destruct x
      | |- preserves _ (match ?x with (_, _) => _ end) => destruct x
      end ].

Ltac p_auto := p_with fail.

Lemma p_assumes b : preserves same_registry (assumes b).
Proof. unfold assumes. p_auto. Qed.

Lemma p_kevent_mod env i f fl ff d u :
  preserves same_registry (kevent_mod env i f fl ff d u).
Proof. unfold kevent_mod. p_auto; apply p_assumes. Qed.

Lemma p_fd fd : preserves same_registry (_fd fd).
Proof. unfold _fd. p_auto. Qed.

Lemma p_job_log j pri msg : preserves same_registry (job_log j pri msg).
Proof. unfold job_log. p_auto. Qed.

Lemma p_job_log_error j pri msg :
  preserves same_registry (job_log_error j pri msg).
Proof. unfold job_log_error. p_auto. Qed.


Ltac p_known :=
  first
    [ apply p_assumes | apply p_kevent_mod | apply p_fd
    | apply p_job_log | apply p_job_log_error ].

Ltac p_go := p_with p_known.

Lemma p_job_ignore_fds env j o :
  preserves same_registry (job_ignore_fds env j o).
Proof.
  induction o using launch_data_deep_ind.
  - induction H as [|[k v] t Hv _ IH]; simpl; [p_go|].
    apply p_bind; [sr|exact Hv|intro; exact IH].
  - induction H as [|v t Hv _ IH]; simpl; [p_go|].
    apply p_bind; [sr|exact Hv|intro; exact IH].
  - destruct o; simpl in *; try discriminate; p_go.
Qed.

Lemma p_job_watch_fds env j o :
  preserves same_registry (job_watch_fds env j o).
Proof.
  induction o using launch_data_deep_ind.
  - induction H as [|[k v] t Hv _ IH]; simpl; [p_go|].
    apply p_bind; [sr|exact Hv|intro; exact IH].
  - induction H as [|v t Hv _ IH]; simpl; [p_go|].
    apply p_bind; [sr|exact Hv|intro; exact IH].
  - destruct o; simpl in *; try discriminate; p_go.
Qed.

Lemma p_job_ignore env j : preserves same_registry (job_ignore env j).
Proof.
  unfold job_ignore. p_with ltac:(first [p_known|apply p_job_ignore_fds]).
Qed.

Lemma p_job_reap env j : preserves same_registry (job_reap env j).
Proof. unfold job_reap. p_go. Qed.

Lemma p_ipc_open env fd j : preserves same_registry (ipc_open env fd j).
Proof. unfold ipc_open. p_go. Qed.

Lemma p_job_start env j : preserves same_registry (job_start env j).
Proof.
  unfold job_start.
  p_with ltac:(first [ p_known | apply p_job_ignore | apply p_job_reap
                     | apply p_ipc_open ]).
Qed.

Lemma p_job_watch_probe env j start ld idx :
  preserves same_registry start ->
  preserves same_registry (job_watch_probe env j start ld idx).
Proof.
  intro Hs. induction idx as [|i t IH]; simpl; [p_go|].
  p_with ltac:(first [exact IH|exact Hs|p_known]).
Qed.

Lemma p_job_watch env j : preserves same_registry (job_watch env j).
Proof.
  unfold job_watch.
  p_with ltac:(first [ p_known | apply p_job_watch_fds
                     | apply p_job_watch_probe; apply p_job_start ]).
Qed.

Lemma p_job_set_alarm env j : preserves same_registry (job_set_alarm env j).
Proof. unfold job_set_alarm. p_go. Qed.

Lemma p_setenv k v : preserves same_registry (setenv k v).
Proof. unfold setenv. p_go. Qed.

Lemma p_setup_job_env e : preserves same_registry (setup_job_env e).
Proof.
  unfold setup_job_env. destruct (snd e);
    p_with ltac:(first [p_known|apply p_setenv]).
Qed.


(** *** The registry under load_job. *)

Lemma bind_inv {A B : Type} (c : M A) (k : A -> M B) w b w' :
  bind c k w = Some (b, w') ->
  exists a w1, c w = Some (a, w1) /\ k a w1 = Some (b, w').
Proof.
  unfold bind. destruct (c w) as [[a w1]|]; [eauto|discriminate].
Qed.

Lemma label_loaded_spec w l lbl :
  Forall (fun k => heap_find (heap w) k <> None) l ->
  label_loaded l lbl w =
  Some (existsb (fun k => match heap_find (heap w) k with
                          | Some y => String.eqb (label y) lbl
                          | None => false
                          end) l, w).
Proof.
  induction 1 as [|k t Hk _ IH]; simpl; [reflexivity|].
  unfold bind, get_job.
  destruct (heap_find (heap w) k) as [y|]; [|contradiction].
  destruct (String.eqb (label y) lbl); [reflexivity|exact IH].
Qed.

Lemma heap_find_same h h' k :
  map jid h' = map jid h -> map label h' = map label h ->
  match heap_find h' k with Some y => Some (label y) | None => None end =
  match heap_find h k with Some y => Some (label y) | None => None end.
Proof.
  revert h'. induction h as [|x t IH]; intros [|x' t']; simpl;
    try discriminate; [reflexivity|].
  intros Hj Hl. inversion Hj. inversion Hl.
  replace (jid x') with (jid x) by congruence.
  destruct (Nat.eqb (jid x) k); [congruence|auto].
Qed.

Lemma same_registry_label_of w w' k :
  same_registry w w' -> label_of w' k = label_of w k.
Proof.
  intros (_ & _ & Hj & Hl). unfold label_of. now apply heap_find_same.
Qed.

Lemma same_registry_queue_labels w w' :
  same_registry w w' -> queue_labels w' = queue_labels w.
Proof.
  intro H. unfold queue_labels. destruct H as (Hq & Hrest).
  rewrite Hq. apply map_ext. intro k.
  apply same_registry_label_of. now split.
Qed.

Lemma label_of_allocated w k :
  heap_find (heap w) k <> None <-> label_of w k <> None.
Proof.
  unfold label_of. destruct (heap_find (heap w) k); split; congruence.
Qed.

Lemma registry_ok_same w w' :
  registry_ok w -> same_registry w w' -> registry_ok w'.
Proof.
  intros (Hn & Ha & Hf) Hs. repeat split.
  - now rewrite (same_registry_queue_labels _ _ Hs).
  - unfold queue_allocated in *. destruct Hs as (Hq & Hx & Hj & Hl).
    rewrite Hq. eapply Forall_impl; [|exact Ha]. intros k Hk.
    apply label_of_allocated. apply label_of_allocated in Hk.
    rewrite (same_registry_label_of w w'); [exact Hk|now repeat split].
  - destruct Hs as (Hq & Hx & Hj & Hl). now rewrite Hx, Hj.
Qed.

Lemma heap_find_app_old h x k :
  heap_find h k <> None -> heap_find (h ++ [x]) k = heap_find h k.
Proof.
  induction h as [|y t IH]; simpl; [congruence|].
  destruct (Nat.eqb (jid y) k); auto.
Qed.

Lemma heap_find_app_new h x :
  Forall (fun i => (i < jid x)%nat) (map jid h) ->
  heap_find (h ++ [x]) (jid x) = Some x.
Proof.
  induction h as [|y t IH]; simpl.
  - now rewrite Nat.eqb_refl.
  - intro H. inversion H; subst.
    destruct (Nat.eqb_spec (jid y) (jid x)); [lia|auto].
Qed.

(** calloc: a new object at the next address. *)
Lemma registry_ok_alloc w lbl d :
  registry_ok w ->
  let wa := with_next_jid
              (with_heap w (heap w ++ [new_jobcb (next_jid w) lbl d]))
              (S (next_jid w)) in
  registry_ok wa /\
  queue_labels wa = queue_labels w /\
  label_of wa (next_jid w) = Some lbl.
Proof.
  intros (Hn & Ha & Hf) wa.
  assert (Hold : forall k, heap_find (heap w) k <> None ->
                           label_of wa k = label_of w k).
  { intros k Hk. unfold label_of, wa. world_simpl.
    now rewrite heap_find_app_old. }
  assert (Hq : queue_labels wa = queue_labels w).
  { unfold queue_labels. change (jobs wa) with (jobs w).
    apply map_ext_in. intros k Hk. apply Hold.
    unfold queue_allocated in Ha. rewrite Forall_forall in Ha. now apply Ha. }
  repeat split.
  - now rewrite Hq.
  - unfold queue_allocated in *. change (jobs wa) with (jobs w).
    eapply Forall_impl; [|exact Ha]. intros k Hk.
    apply label_of_allocated. rewrite Hold by exact Hk.
    now apply label_of_allocated.
  - unfold wa. world_simpl. rewrite map_app. apply Forall_app. split.
    + eapply Forall_impl; [|exact Hf]. intros i Hi. simpl in Hi. lia.
    + repeat constructor.
  - exact Hq.
  - unfold label_of, wa. world_simpl.
    pose proof (heap_find_app_new (heap w) (new_jobcb (next_jid w) lbl d) Hf)
      as Hnew.
    change (jid (new_jobcb (next_jid w) lbl d)) with (next_jid w) in Hnew.
    rewrite Hnew. reflexivity.
Qed.

(** TAILQ_INSERT_TAIL of an object whose label is not on the queue. *)
Lemma registry_ok_enqueue w j lbl :
  registry_ok w ->
  label_of w j = Some lbl ->
  ~ In (Some lbl) (queue_labels w) ->
  registry_ok (with_jobs w (jobs w ++ [j])).
Proof.
  intros (Hn & Ha & Hf) Hl Hnew. repeat split.
  - unfold queue_labels. world_simpl.
    change (label_of (with_jobs w (jobs w ++ [j]))) with (label_of w).
    rewrite map_app. simpl. rewrite Hl.
    apply NoDup_app.
    + exact Hn.
    + repeat constructor. intros [].
    + intros a Ha1 [Ha2|[]]. subst a. now apply Hnew.
  - unfold queue_allocated in *. world_simpl. apply Forall_app. split.
    + exact Ha.
    + repeat constructor. apply label_of_allocated. congruence.
  - exact Hf.
Qed.

Lemma label_in_false w lbl :
  label_in w lbl = false -> ~ In (Some lbl) (queue_labels w).
Proof.
  unfold label_in, queue_labels, label_of. intros H Hin.
  apply in_map_iff in Hin. destruct Hin as (k & Hk & Hin).
  assert (F : existsb (fun k => match heap_find (heap w) k with
                                | Some y => String.eqb (label y) lbl
                                | None => false
                                end) (jobs w) = true).
  { apply existsb_exists. exists k. split; [exact Hin|].
    destruct (heap_find (heap w) k) as [y|]; [|discriminate].
    inversion Hk. apply String.eqb_refl. }
  congruence.
Qed.


Ltac p_load :=
  p_with ltac:(first
    [ apply p_assumes | apply p_kevent_mod | apply p_fd
    | apply p_job_log | apply p_job_log_error
    | apply p_job_watch | apply p_job_start | apply p_job_set_alarm
    | apply p_setup_job_env
    | apply p_update_job; intro; split; reflexivity ]).

(** load_job up to its second validity check. *)
Lemma load_job_checks env pload w lbl :
  queue_allocated w ->
  job_get_string pload LAUNCH_JOBKEY_LABEL = Some lbl ->
  label_in w lbl = true \/
  (launch_data_dict_lookup pload LAUNCH_JOBKEY_PROGRAM = None /\
   launch_data_dict_lookup pload LAUNCH_JOBKEY_PROGRAMARGUMENTS = None) ->
  load_job env pload w =
  Some ((launch_data_new_errno (if label_in w lbl then EEXIST else EINVAL),
         pload), w).
Proof.
  intros Hq Hl Hc. unfold load_job. rewrite Hl.
  unfold bind at 1, get_world. unfold bind at 1.
  rewrite (label_loaded_spec w (jobs w) lbl Hq).
  change (existsb _ (jobs w)) with (label_in w lbl).
  destruct (label_in w lbl); [reflexivity|].
  destruct Hc as [Hc|[Hp Ha]]; [discriminate|].
  rewrite Hp, Ha. reflexivity.
Qed.

Lemma load_job_registry env pload w r w' :
  registry_ok w -> load_job env pload w = Some (r, w') -> registry_ok w'.
Proof.
  intros Hok H. pose proof Hok as (_ & Hq & _).
  unfold load_job in H.
  destruct (job_get_string pload LAUNCH_JOBKEY_LABEL) as [lbl|];
    [|inversion H; subst; exact Hok].
  unfold bind at 1, get_world in H. unfold bind at 1 in H.
  rewrite (label_loaded_spec w (jobs w) lbl Hq) in H.
  change (existsb _ (jobs w)) with (label_in w lbl) in H.
  destruct (label_in w lbl) eqn:Hin; [inversion H; subst; exact Hok|].
  match type of H with (if ?b then _ else _) _ = _ => destruct b end;
    [inversion H; subst; exact Hok|].
  cbv zeta in H.
  apply bind_inv in H. destruct H as ([] & wa & Ha & H).
  unfold modify in Ha. inversion Ha as [Hwa]. clear Ha.
  destruct (registry_ok_alloc w lbl (launch_data_copy pload) Hok)
    as (Hoka & Hqa & Hla).
  rewrite Hwa in Hoka, Hqa, Hla.
  apply bind_inv in H. destruct H as (x & w1 & Hx & H).
  unfold get_job in Hx.
  destruct (heap_find (heap wa) (next_jid w)); [|discriminate].
  inversion Hx; subst w1; clear Hx.
  apply bind_inv in H. destruct H as ([] & wb & Hb & H).
  assert (Hsb : same_registry wa wb).
  { revert Hb. apply (p_when same_registry same_registry_refl).
    apply p_update_job. intro; split; reflexivity. }
  apply bind_inv in H. destruct H as ([] & wc & Hc & H).
  unfold modify in Hc. inversion Hc as [Hwc]. clear Hc.
  assert (Hokc : registry_ok wc).
  { rewrite <- Hwc. apply registry_ok_enqueue with (lbl := lbl).
    - exact (registry_ok_same wa wb Hoka Hsb).
    - rewrite (same_registry_label_of wa wb _ Hsb). exact Hla.
    - rewrite (same_registry_queue_labels wa wb Hsb), Hqa.
      now apply label_in_false. }
  apply (registry_ok_same wc w' Hokc).
  match type of H with
  | ?c wc = _ => assert (Hp : preserves same_registry c) by p_load
  end.
  exact (Hp wc r w' H).
Qed.


(** C4: load_job returns errno EINVAL for a description without a Label
    and for one with neither Program nor ProgramArguments, and errno
    EEXIST for one whose label is already that of a registry entry; a
    description with both faults, a label that is on the queue and no
    program, gets the one of the two that load_job looks for first,
    EEXIST.  In each of these cases no entry is added to the registry:
    the description and the whole state are left as they were.  Whenever
    load_job returns, a registry that held no label twice still holds no
    label twice. *)
Theorem load_job_validation env pload w :
  queue_allocated w ->
  (job_get_string pload LAUNCH_JOBKEY_LABEL = None ->
   load_job env pload w = Some ((launch_data_new_errno EINVAL, pload), w)) /\
  (forall lbl,
     job_get_string pload LAUNCH_JOBKEY_LABEL = Some lbl ->
     label_in w lbl = true ->
     load_job env pload w = Some ((launch_data_new_errno EEXIST, pload), w)) /\
  (forall lbl,
     job_get_string pload LAUNCH_JOBKEY_LABEL = Some lbl ->
     launch_data_dict_lookup pload LAUNCH_JOBKEY_PROGRAM = None ->
     launch_data_dict_lookup pload LAUNCH_JOBKEY_PROGRAMARGUMENTS = None ->
     load_job env pload w
     = Some ((launch_data_new_errno
                (if label_in w lbl then EEXIST else EINVAL), pload), w)) /\
  (registry_ok w ->
   forall r w', load_job env pload w = Some (r, w') ->
     registry_ok w' /\ NoDup (queue_labels w')).
Proof.
  intro Hq. split; [|split; [|split]].
  - intro Hl. unfold load_job. rewrite Hl. reflexivity.
  - intros lbl Hl Hin.
    rewrite (load_job_checks env pload w lbl Hq Hl (or_introl Hin)).
    now rewrite Hin.
  - intros lbl Hl Hp Ha.
    exact (load_job_checks env pload w lbl Hq Hl (or_intror (conj Hp Ha))).
  - intros Hok r w' H.
    assert (Hok' : registry_ok w') by (eapply load_job_registry; eassumption).
    split; [exact Hok'|apply Hok'].
Qed.

Lemma load_job_validation_witness :
  let loaded := example_description in
  let fresh :=
    LD_DICTIONARY
      [("Label", LD_STRING "com.example.other");
       ("ProgramArguments", LD_ARRAY [LD_STRING "/usr/sbin/other"])] in
  let bare := LD_DICTIONARY [("Label", LD_STRING "com.example.bare")] in
  load_job example_env loaded example_world =
    Some ((launch_data_new_errno EEXIST, loaded), example_world) /\
  load_job example_env bare example_world =
    Some ((launch_data_new_errno EINVAL, bare), example_world) /\
  exists w',
    load_job example_env fresh example_world =
      Some ((launch_data_new_errno 0, fresh), w') /\
    queue_labels w' = [Some "com.example.daemon"; Some "com.example.other"] /\
    NoDup (queue_labels w').
Proof.
  intros loaded fresh bare.
  assert (Hq : queue_allocated example_world).
  { constructor; [discriminate|constructor]. }
  assert (Hok : registry_ok example_world).
  { repeat split.
    - constructor; [intros []|constructor].
    - exact Hq.
    - constructor; [simpl; lia|constructor]. }
  split; [|split].
  - destruct (load_job_validation example_env loaded example_world Hq)
      as (_ & H & _).
    exact (H "com.example.daemon" eq_refl eq_refl).
  - destruct (load_job_validation example_env bare example_world Hq)
      as (_ & _ & H & _).
    exact (H "com.example.bare" eq_refl eq_refl eq_refl).
  - destruct (load_job example_env fresh example_world) as [[r w']|] eqn:E;
      [|vm_compute in E; discriminate].
    exists w'.
    destruct (load_job_validation example_env fresh example_world Hq)
      as (_ & _ & _ & H).
    destruct (H Hok r w' E) as [_ Hn].
    assert (Hr : r = (launch_data_new_errno 0, fresh) /\
                 queue_labels w' =
                 [Some "com.example.daemon"; Some "com.example.other"]).
    { vm_compute in E. inversion E. split; reflexivity. }
    destruct Hr as [Hr Hl]. rewrite Hr. repeat split; assumption.
Defined.

(** *** The calendar alarm. *)

(** C5: what job_set_alarm arms for a calendar spec that names a weekday.
    It arms one absolute timer, at the weekday candidate of cronemu_wday
    when mday is -1 and at the smaller of the two candidates otherwise
    (and does not return when one of the two searches does not end);
    cronemu_wday reads weekday 7 as 0.  But the weekday candidate need
    not match the spec: cronemu_wday starts from the minute after now
    without normalising it, so in minute 59 of the spec's hour, on the
    spec's weekday, with the minute free, the search ends at once on
    minute 60 and the timer is armed at the start of the next hour, whose
    hour is not the spec's; at 23:59 that is the next day, whose weekday
    is not the spec's either. *)
Theorem job_set_alarm_weekday_carry env w j x sci :
  heap_find (heap w) j = Some x ->
  start_cal_interval x = Some sci ->
  tm_wday sci <> -1 ->
  let now := time_now env in
  let armed later :=
    Some (tt, with_trace w
                (trace w ++ [alarm_timer j later; alarm_log env j x])) in
  job_set_alarm env j w
  = match cronemu cron_fuel (tm_mon sci) (tm_mday sci) (tm_hour sci)
            (tm_min sci) now,
          cronemu_wday cron_fuel (tm_wday sci) (tm_hour sci) (tm_min sci)
            now with
    | Some later, Some otherlater =>
        armed (if tm_mday sci =? -1 then otherlater
               else Z.min later otherlater)
    | _, _ => None
    end /\
  cronemu_wday cron_fuel 7 (tm_hour sci) (tm_min sci) now
  = cronemu_wday cron_fuel 0 (tm_hour sci) (tm_min sci) now /\
  (tm_min (localtime now) = 59 ->
   tm_mon sci = -1 -> tm_mday sci = -1 -> tm_min sci = -1 ->
   tm_hour sci = tm_hour (localtime now) ->
   (if tm_wday sci =? 7 then 0 else tm_wday sci) = tm_wday (localtime now) ->
   let later := (now / 60 + 1) * 60 in
   job_set_alarm env j w = armed later /\
   tm_hour (localtime later) <> tm_hour sci /\
   (tm_hour sci = 23 ->
    tm_wday (localtime later) <> tm_wday (localtime now))).
Proof.
  intros Hj Hsci Hwd now armed.
  assert (G : job_set_alarm env j w
              = match cronemu cron_fuel (tm_mon sci) (tm_mday sci)
                        (tm_hour sci) (tm_min sci) now,
                      cronemu_wday cron_fuel (tm_wday sci) (tm_hour sci)
                        (tm_min sci) now with
                | Some later, Some otherlater =>
                    armed (if tm_mday sci =? -1 then otherlater
                           else Z.min later otherlater)
                | _, _ => None
                end).
  { unfold job_set_alarm. unfold bind at 1, get_job. rewrite Hj, Hsci.
    fold now.
    destruct (cronemu cron_fuel (tm_mon sci) (tm_mday sci) (tm_hour sci)
                (tm_min sci) now) as [l1|]; [|reflexivity].
    destruct (Z.eqb_spec (tm_wday sci) (-1)) as [F|_]; [contradiction|].
    cbn [negb].
    destruct (cronemu_wday cron_fuel (tm_wday sci) (tm_hour sci)
                (tm_min sci) now) as [l2|]; [|reflexivity].
    set (later := if tm_mday sci =? -1 then l2 else Z.min l1 l2).
    assert (Hl : (if negb (-1 =? tm_mday sci)
                  then ret (if l1 <? l2 then l1 else l2)
                  else ret l2) = (ret later : M Z)).
    { subst later. rewrite (Z.eqb_sym (-1)).
      destruct (tm_mday sci =? -1); cbn [negb]; [reflexivity|].
      f_equal. destruct (Z.ltb_spec l1 l2); lia. }
    rewrite Hl. unfold armed. apply wp_eq. do 3 wp_step.
    apply wp_kevent_mod; [reflexivity|reflexivity|].
    unfold alarm_log.
    destruct (kevent_ok env (KCalInterval j) EVFILT_TIMER EV_ADD);
      cbn [negb]; wp_step; world_simpl; now rewrite <- app_assoc. }
  split; [exact G|]. split; [reflexivity|].
  intros Hm59 Hmon Hmday Hmin Hhour Hw7 later.
  split; [|split].
  - rewrite G, Hmon, Hmday, Hmin.
    rewrite (cronemu_immediate cron_fuel now (tm_hour sci) (or_intror Hhour)).
    rewrite (cronemu_wday_immediate cron_fuel now (tm_wday sci) (tm_hour sci)
               Hw7 (or_intror Hhour)).
    reflexivity.
  - rewrite Hhour. now apply minute_carry_hour.
  - intro H23. apply minute_carry_wday; [exact Hm59|congruence].
Qed.

Lemma job_set_alarm_weekday_carry_witness :
  let sci := {| tm_sec := 0; tm_min := -1; tm_hour := 23; tm_mday := -1;
                tm_mon := -1; tm_year := 0; tm_wday := 0; tm_yday := 0;
                tm_isdst := 0 |} in
  let x := set_start_cal_interval example_job (Some sci) in
  let w := with_heap example_world [x] in
  let env := at_time example_env 345570 in
  tm_wday (localtime 345570) = 0 /\ tm_hour (localtime 345570) = 23 /\
  tm_min (localtime 345570) = 59 /\
  job_set_alarm env 0%nat w =
  Some (tt,
        with_trace w
          [alarm_timer 0%nat 345600;
           E_syslog LOG_INFO
             "com.example.daemon: scheduled to run again at: %s"]) /\
  tm_wday (localtime 345600) = 1 /\ tm_hour (localtime 345600) = 0.
Proof.
  intros sci x w env.
  destruct (job_set_alarm_weekday_carry env w 0%nat x sci eq_refl eq_refl
              ltac:(discriminate)) as (_ & _ & H).
  destruct (H eq_refl eq_refl eq_refl eq_refl eq_refl eq_refl) as (E & _).
  split; [reflexivity|]. split; [reflexivity|]. split; [reflexivity|].
  split; [exact E|]. split; reflexivity.
Defined.


(** *** Descriptors in the value tree (launchd.c:681-790). *)

Lemma writes_ret w0 {A : Type} (a : A) : writes w0 (ret a) a [].
Proof. intros w _. unfold ret. now rewrite with_trace_id. Qed.

Lemma writes_emit w0 e : writes w0 (emit e) tt [e].
Proof. intros w _. reflexivity. Qed.

Lemma writes_bind w0 {A B : Type} (c : M A) (k : A -> M B) a b t1 t2 :
  writes w0 c a t1 -> writes w0 (k a) b t2 ->
  writes w0 (bind c k) b (t1 ++ t2).
Proof.
  intros Hc Hk w Hw. unfold bind. rewrite (Hc w Hw).
  rewrite (Hk (with_trace w (trace w ++ t1)) Hw). world_simpl.
  now rewrite app_assoc.
Qed.

Lemma writes_get_job_bind w0 {B : Type} j x (k : jobcb -> M B) b t :
  heap_find (heap w0) j = Some x -> writes w0 (k x) b t ->
  writes w0 (bind (get_job j) k) b t.
Proof.
  intros Hj Hk w Hw. unfold bind, get_job.
  rewrite (agrees_heap _ _ Hw), Hj. now apply Hk.
Qed.


Lemma writes_assumes w0 b : writes w0 (assumes b) b (bug_unless b).
Proof.
  destruct b; [apply writes_ret|]. unfold assumes, bug_unless.
  exact (writes_bind w0 _ _ tt false _ [] (writes_emit w0 _)
           (writes_ret w0 false)).
Qed.


Lemma close_fds_writes w0 o :
  writes w0 (launch_data_close_fds o) tt (map E_close (live_fds o)).
Proof.
  induction o using launch_data_deep_ind.
  - induction H as [|[k v] t Hv _ IH]; simpl; [apply writes_ret|].
    rewrite map_app. eapply writes_bind; [exact Hv|exact IH].
  - induction H as [|v t Hv _ IH]; simpl; [apply writes_ret|].
    rewrite map_app. eapply writes_bind; [exact Hv|exact IH].
  - destruct o; simpl in *; try discriminate; try apply writes_ret.
    destruct (fd =? -1); simpl; [apply writes_ret|apply writes_emit].
Qed.

Lemma live_fds_revoke o : live_fds (launch_data_revoke_fds o) = [].
Proof.
  induction o using launch_data_deep_ind.
  - induction H as [|[k v] t Hv _ IH]; simpl in *; [reflexivity|].
    now rewrite Hv, IH.
  - induction H as [|v t Hv _ IH]; simpl in *; [reflexivity|].
    now rewrite Hv, IH.
  - destruct o; simpl in *; try discriminate; reflexivity.
Qed.

(** X1: launch_data_close_fds closes each descriptor the value holds, once,
    in traversal order, skipping those already revoked (-1); it returns and
    changes nothing else. *)
Theorem close_fds_closes_live_fds o w :
  launch_data_close_fds o w =
  Some (tt, with_trace w (trace w ++ map E_close (live_fds o))).
Proof. exact (close_fds_writes w o w (agrees_refl w)). Qed.

(** X2: launch_data_revoke_fds leaves no descriptor in the value, revoking
    twice is revoking once, and closing the descriptors of a revoked value
    closes nothing and leaves the state as it was. *)
Theorem revoke_fds_leaves_nothing_to_close o w :
  live_fds (launch_data_revoke_fds o) = [] /\
  launch_data_revoke_fds (launch_data_revoke_fds o)
    = launch_data_revoke_fds o /\
  launch_data_close_fds (launch_data_revoke_fds o) w = Some (tt, w).
Proof.
  split; [apply live_fds_revoke|]. split.
  - induction o using launch_data_deep_ind.
    + simpl. f_equal.
      induction H as [|[k v] t Hv _ IH]; simpl in *; [reflexivity|].
      now rewrite Hv, IH.
    + simpl. f_equal.
      induction H as [|v t Hv _ IH]; simpl in *; [reflexivity|].
      now rewrite Hv, IH.
    + destruct o; simpl in *; try discriminate; reflexivity.
  - rewrite (close_fds_writes w _ w (agrees_refl w)), live_fds_revoke.
    simpl. now rewrite with_trace_id.
Qed.






(** *** Verbs that look a job up by its label (launchd.c:938-964, 1228). *)

Lemma for_jobs_labelled_absent l s action w :
  Forall (fun k => heap_find (heap w) k <> None) l ->
  existsb (fun k => match heap_find (heap w) k with
                    | Some y => String.eqb (label y) s
                    | None => false
                    end) l = false ->
  for_jobs_labelled l (Some (LD_STRING s)) action None w = Some (None, w).
Proof.
  induction 1 as [|k t Hk _ IH]; simpl; [reflexivity|].
  unfold bind at 1, get_job.
  destruct (heap_find (heap w) k) as [y|] eqn:Ey; [|contradiction].
  intro E. apply Bool.orb_false_iff in E. destruct E as [E1 E2].
  unfold bind at 1. cbn [string_arg arg bind ret launch_data_get_string].
  rewrite E1. unfold bind, ret. rewrite Ey. now apply IH.
Qed.

(** X4: StartJob, StopJob and RemoveJob for a label that no job on the
    queue carries answer ESRCH; no job is started, signalled or removed
    and the state is left as it was. *)
Theorem unknown_label_is_esrch env w s cfd :
  queue_allocated w ->
  label_in w s = false ->
  let data := Some (LD_STRING s) in
  handler env V_STARTJOB data cfd w
    = Some ((launch_data_new_errno ESRCH, data), w) /\
  handler env V_STOPJOB data cfd w
    = Some ((launch_data_new_errno ESRCH, data), w) /\
  handler env V_REMOVEJOB data cfd w
    = Some ((launch_data_new_errno ESRCH, data), w).
Proof.
  intros Hq Hl data. unfold label_in in Hl.
  repeat split; unfold handler, bind at 1, get_world; unfold bind at 1;
    rewrite (for_jobs_labelled_absent (jobs w) s _ w Hq Hl); reflexivity.
Qed.

Lemma unknown_label_is_esrch_witness :
  handler example_env V_REMOVEJOB (Some (LD_STRING "com.example.absent")) 20
    example_world
  = Some ((LD_ERRNO ESRCH, Some (LD_STRING "com.example.absent")),
          example_world).
Proof.
  assert (Hq : queue_allocated example_world).
  { constructor; [discriminate|constructor]. }
  destruct (unknown_label_is_esrch example_env example_world
              "com.example.absent" 20 Hq eq_refl) as (_ & _ & H).
  exact H.
Defined.

Lemma get_jobs_which_spec l s acc w :
  Forall (fun k => heap_find (heap w) k <> None) l ->
  get_jobs_which l s acc w = Some (last_labelled (heap w) l s acc, w).
Proof.
  intro H. revert acc. induction H as [|k t Hk _ IH]; intro acc; simpl;
    [reflexivity|].
  unfold bind, get_job.
  destruct (heap_find (heap w) k) as [y|]; [|contradiction].
  apply IH.
Qed.

Lemma assoc_lookup_insert_eqb kv v key s :
  assoc_lookup (assoc_insert kv v key) s
  = if String.eqb s key then Some v else assoc_lookup kv s.
Proof.
  destruct (String.eqb_spec s key) as [->|N].
  - apply assoc_lookup_insert.
  - now apply assoc_lookup_insert_other.
Qed.

Lemma get_jobs_all_spec l w :
  Forall (fun k => heap_find (heap w) k <> None) l ->
  forall kv, exists kv',
    get_jobs_all l (LD_DICTIONARY kv) w = Some (LD_DICTIONARY kv', w) /\
    forall s, assoc_lookup kv' s
              = last_labelled (heap w) l s (assoc_lookup kv s).
Proof.
  induction 1 as [|k t Hk _ IH]; intro kv; simpl.
  - exists kv. split; reflexivity.
  - unfold bind, get_job.
    destruct (heap_find (heap w) k) as [y|]; [|contradiction].
    destruct (IH (assoc_insert kv (launch_data_copy (ldj y)) (label y)))
      as (kv' & E & Hl).
    exists kv'. split; [exact E|].
    intro s. rewrite Hl, assoc_lookup_insert_eqb. reflexivity.
Qed.

Lemma get_jobs_some_spec w s :
  queue_allocated w ->
  get_jobs (Some s) w
  = Some (match last_labelled (heap w) (jobs w) s None with
          | Some d => d
          | None => launch_data_new_errno ESRCH
          end, w).
Proof.
  intro Hq. unfold get_jobs, bind at 1, get_world. unfold bind.
  rewrite (get_jobs_which_spec (jobs w) s None w Hq).
  destruct (last_labelled (heap w) (jobs w) s None); reflexivity.
Qed.

Lemma get_jobs_none_spec w :
  queue_allocated w ->
  exists kv,
    get_jobs None w = Some (LD_DICTIONARY kv, w) /\
    forall s, assoc_lookup kv s = last_labelled (heap w) (jobs w) s None.
Proof.
  intro Hq. destruct (get_jobs_all_spec (jobs w) w Hq []) as (kv & E & Hl).
  exists kv. split; [|exact Hl]. unfold get_jobs, bind, get_world. exact E.
Qed.

(** X5: GetJobs and GetJob agree.  get_jobs(NULL) answers a dictionary,
    and for every label get_jobs(label) answers what that dictionary holds
    under the label, ESRCH when it holds nothing; neither changes the
    state. *)
Theorem get_jobs_dictionary_agrees w :
  queue_allocated w ->
  exists kv,
    get_jobs None w = Some (LD_DICTIONARY kv, w) /\
    forall s,
      get_jobs (Some s) w =
      Some (match assoc_lookup kv s with
            | Some d => d
            | None => launch_data_new_errno ESRCH
            end, w).
Proof.
  intro Hq. destruct (get_jobs_none_spec w Hq) as (kv & E & Hl).
  exists kv. split; [exact E|].
  intro s. now rewrite (get_jobs_some_spec w s Hq), Hl.
Qed.

Lemma get_jobs_dictionary_agrees_witness :
  get_jobs None example_world
    = Some (LD_DICTIONARY [("com.example.daemon", example_description)],
            example_world) /\
  get_jobs (Some "com.example.daemon") example_world
    = Some (example_description, example_world) /\
  get_jobs (Some "com.example.absent") example_world
    = Some (LD_ERRNO ESRCH, example_world).
Proof.
  assert (Hq : queue_allocated example_world).
  { constructor; [discriminate|constructor]. }
  destruct (get_jobs_dictionary_agrees example_world Hq) as (kv & E & H).
  assert (Ekv : kv = [("com.example.daemon", example_description)]).
  { vm_compute in E. now inversion E. }
  subst kv. split; [exact E|]. split; apply H.
Defined.

Lemma last_labelled_absent h l s acc :
  existsb (fun k => match heap_find h k with
                    | Some y => String.eqb (label y) s
                    | None => false
                    end) l = false ->
  last_labelled h l s acc = acc.
Proof.
  revert acc. induction l as [|k t IH]; intros acc E; simpl in *;
    [reflexivity|].
  apply Bool.orb_false_iff in E. destruct E as [E1 E2].
  rewrite (IH _ E2). destruct (heap_find h k) as [y|]; [|reflexivity].
  rewrite String.eqb_sym, E1. reflexivity.
Qed.

Lemma last_labelled_unique h l s acc k x :
  NoDup (map (fun k => match heap_find h k with
                       | Some y => Some (label y)
                       | None => None
                       end) l) ->
  In k l -> heap_find h k = Some x -> label x = s ->
  last_labelled h l s acc = Some (ldj x).
Proof.
  revert acc. induction l as [|k0 t IH]; intros acc Hn Hin Hk Hl;
    [contradiction|].
  simpl in Hn. inversion Hn as [|? ? Hnot Hn']; subst. simpl.
  destruct Hin as [->|Hin].
  - rewrite Hk, String.eqb_refl. apply last_labelled_absent.
    destruct (existsb _ t) eqn:E; [|reflexivity]. exfalso. apply Hnot.
    apply existsb_exists in E. destruct E as (k' & Hk' & E).
    apply in_map_iff. exists k'. split; [|exact Hk'].
    rewrite Hk. destruct (heap_find h k') as [y|]; [|discriminate].
    apply String.eqb_eq in E. now rewrite E.
  - now apply IH.
Qed.

(** X6: with no label twice on the queue, get_jobs(label) answers the
    description of the job that carries the label, and ESRCH exactly when
    no job on the queue carries it; the state is left as it was. *)
Theorem get_jobs_by_label w s :
  registry_ok w ->
  (label_in w s = false ->
   get_jobs (Some s) w = Some (launch_data_new_errno ESRCH, w)) /\
  (forall k x,
     In k (jobs w) -> heap_find (heap w) k = Some x -> label x = s ->
     get_jobs (Some s) w = Some (ldj x, w)).
Proof.
  intros (Hn & Hq & _).
  pose proof (get_jobs_some_spec w s Hq) as E.
  split.
  - intro Hl. rewrite E, last_labelled_absent; [reflexivity|exact Hl].
  - intros k x Hin Hk Hl. rewrite E.
    now rewrite (last_labelled_unique (heap w) (jobs w) s None k x Hn Hin Hk Hl).
Qed.

Lemma get_jobs_by_label_witness :
  get_jobs (Some "com.example.daemon") example_world
  = Some (ldj example_job, example_world).
Proof.
  assert (Hok : registry_ok example_world).
  { repeat split.
    - constructor; [intros []|constructor].
    - constructor; [discriminate|constructor].
    - constructor; [simpl; lia|constructor]. }
  destruct (get_jobs_by_label example_world "com.example.daemon" Hok)
    as [_ H].
  apply (H 0%nat example_job); [left; reflexivity|reflexivity|reflexivity].
Defined.

(** X7: the responses of GetJobs and of GetJob hold no descriptor: every
    descriptor of a job's description is replaced by -1 before the answer
    leaves, so sending and freeing the answer closes none of the job's
    sockets.  GetJobWithHandles answers the description as it is. *)
Theorem get_job_answers_without_fds env w s cfd :
  queue_allocated w ->
  let data := Some (LD_STRING s) in
  (exists r, handler env V_GETJOBS data cfd w = Some ((r, data), w)
             /\ live_fds r = []) /\
  (exists r, handler env V_GETJOB data cfd w = Some ((r, data), w)
             /\ live_fds r = []) /\
  (exists r, get_jobs (Some s) w = Some (r, w) /\
             handler env V_GETJOBWITHHANDLES data cfd w
               = Some ((r, data), w)).
Proof.
  intros Hq data.
  destruct (get_jobs_none_spec w Hq) as (kv & E & _).
  pose proof (get_jobs_some_spec w s Hq) as H.
  cbn [handler arg data bind ret launch_data_get_string].
  repeat split.
  - eexists. unfold bind. rewrite E. split; [reflexivity|].
    apply live_fds_revoke.
  - eexists. unfold bind at 1. cbn [arg ret]. unfold bind. rewrite H.
    split; [reflexivity|]. apply live_fds_revoke.
  - eexists. split; [exact H|]. unfold bind at 1. cbn [arg ret].
    unfold bind. rewrite H. reflexivity.
Qed.


Lemma get_job_answers_without_fds_witness :
  let d :=
    LD_DICTIONARY
      [("Label", LD_STRING "com.example.daemon");
       ("Sockets", LD_DICTIONARY [("Listeners", LD_ARRAY [LD_FD 5])])] in
  let w := with_heap example_world [set_ldj example_job d] in
  handler example_env V_GETJOB (Some (LD_STRING "com.example.daemon")) 20 w
  = Some ((LD_DICTIONARY
             [("Label", LD_STRING "com.example.daemon");
              ("Sockets",
               LD_DICTIONARY [("Listeners", LD_ARRAY [LD_FD (-1)])])],
           Some (LD_STRING "com.example.daemon")), w) /\
  handler example_env V_GETJOBWITHHANDLES
    (Some (LD_STRING "com.example.daemon")) 20 w
  = Some ((d, Some (LD_STRING "com.example.daemon")), w).
Proof.
  intros d w.
  assert (Hq : queue_allocated w).
  { constructor; [discriminate|constructor]. }
  destruct (get_job_answers_without_fds example_env w "com.example.daemon"
              20 Hq) as (_ & (r & E & _) & (r' & E1 & E2)).
  split.
  - rewrite E. vm_compute in E. inversion E. reflexivity.
  - rewrite E2. vm_compute in E1. inversion E1. reflexivity.
Defined.


(** *** Masks (launchd.c:1028-1039). *)

(** X8: SetUmask hands its argument to umask(2), which installs the
    bits of ALLPERMS (07777) of it, and answers the mask that was in
    force; a GetUmask that follows answers the mask just installed and
    leaves the state as it is, although it goes through umask(0) to read
    it. *)
Theorem umask_set_then_get env w n cfd data :
  let w1 := with_umask w (Z.land n ALLPERMS) in
  handler env V_SETUMASK (Some (LD_INTEGER n)) cfd w
    = Some ((LD_INTEGER (umask w), Some (LD_INTEGER n)), w1) /\
  handler env V_GETUMASK data cfd w1
    = Some ((LD_INTEGER (Z.land n ALLPERMS), data), w1).
Proof.
  intro w1. split; [reflexivity|].
  cbn [handler]. unfold do_umask, bind, get_world, modify, ret.
  cbn [fst snd]. subst w1. world_simpl.
  replace (Z.land (Z.land n ALLPERMS) ALLPERMS) with (Z.land n ALLPERMS).
  - reflexivity.
  - rewrite <- Z.land_assoc. reflexivity.
Qed.

Lemma umask_set_then_get_witness :
  handler example_env V_SETUMASK (Some (LD_INTEGER 4095)) 20 example_world
    = Some ((LD_INTEGER 18, Some (LD_INTEGER 4095)),
            with_umask example_world 4095) /\
  handler example_env V_GETUMASK None 20 (with_umask example_world 4095)
    = Some ((LD_INTEGER 4095, None), with_umask example_world 4095).
Proof. exact (umask_set_then_get example_env example_world 4095 20 None). Defined.

(** X9: GetLogMask answers the log mask and restores it: with a mask
    other than 0 the state is left as it was.  SetLogMask answers the
    mask that was in force and installs its argument, except that 0
    installs nothing and only reads. *)
Theorem logmask_get_and_set env w n cfd data :
  logmask w <> 0 ->
  handler env V_GETLOGMASK data cfd w
    = Some ((LD_INTEGER (logmask w), data), w) /\
  handler env V_SETLOGMASK (Some (LD_INTEGER n)) cfd w
    = Some ((LD_INTEGER (logmask w), Some (LD_INTEGER n)),
            if to_int n =? 0 then w else with_logmask w (to_int n)).
Proof.
  intro Hm. split.
  - cbn [handler]. unfold setlogmask, bind, get_world, ret.
    change (negb (LOG_UPTO LOG_DEBUG =? 0)) with true. cbn [when].
    unfold modify. world_simpl.
    destruct (Z.eqb_spec (logmask w) 0) as [E|_]; [contradiction|].
    cbn [negb when]. unfold modify. world_simpl. now destruct w.
  - cbn [handler]. unfold setlogmask, arg, bind, get_world, ret.
    cbn [launch_data_get_integer].
    destruct (to_int n =? 0); reflexivity.
Qed.

Lemma logmask_get_and_set_witness :
  handler example_env V_GETLOGMASK None 20 example_world
    = Some ((LD_INTEGER 255, None), example_world) /\
  handler example_env V_SETLOGMASK (Some (LD_INTEGER 0)) 20 example_world
    = Some ((LD_INTEGER 255, Some (LD_INTEGER 0)), example_world).
Proof.
  apply (logmask_get_and_set example_env example_world 0 20 None).
  discriminate.
Defined.

(** *** Shutdown (launchd.c:1760). *)

Lemma writes_kevent w0 env i f fl ff d u :
  (negb (Z.land fl EV_ADD =? 0) && is_null u) = false ->
  is_proc f = false ->
  writes w0
    (r <- kevent_mod env i f fl ff d u ;; _ <- assumes r ;; ret tt) tt
    (E_kevent i f fl ff d u :: bug_unless (kevent_ok env i f fl)).
Proof.
  intros Hg Hp. unfold kevent_mod. rewrite Hg, Hp.
  rewrite Bool.andb_false_r. cbn [andb].
  intros w Hw. unfold bind at 1. unfold bind at 1.
  unfold emit, modify, ret. unfold bind.
  rewrite (writes_assumes w0 (kevent_ok env i f fl)
             (with_trace w (trace w ++ [E_kevent i f fl ff d u])) Hw).
  world_simpl. now rewrite <- app_assoc.
Qed.

Lemma writes_job_stop_all w0 l :
  Forall (fun k => heap_find (heap w0) k <> None) l ->
  writes w0 (mfor l job_stop) tt (kills_of (heap w0) l).
Proof.
  induction 1 as [|k t Hk _ IH]; simpl; [apply writes_ret|].
  destruct (heap_find (heap w0) k) as [x|] eqn:E; [|contradiction].
  eapply writes_bind; [|exact IH].
  unfold job_stop. eapply writes_get_job_bind; [exact E|].
  destruct (p x =? 0); simpl; [apply writes_ret|apply writes_emit].
Qed.

Lemma writes_kevent_mod w0 env i f fl ff d u :
  (negb (Z.land fl EV_ADD =? 0) && is_null u) = false ->
  is_proc f = false ->
  writes w0 (kevent_mod env i f fl ff d u) (kevent_ok env i f fl)
    [E_kevent i f fl ff d u].
Proof.
  intros Hg Hp. unfold kevent_mod. rewrite Hg, Hp.
  rewrite Bool.andb_false_r. cbn [andb].
  apply (writes_bind w0 (emit (E_kevent i f fl ff d u))
           (fun _ => ret (kevent_ok env i f fl)) tt (kevent_ok env i f fl)
           [E_kevent i f fl ff d u] []);
    [apply writes_emit|apply writes_ret].
Qed.

Lemma writes_get_world_bind w0 {B : Type} (k : World -> M B) b t :
  (forall w, agrees w0 w -> writes w0 (k w) b t) ->
  writes w0 (bind get_world k) b t.
Proof. intros Hk w Hw. unfold bind, get_world. now apply Hk. Qed.

(** X10: do_shutdown sets the shutdown flag, disables the batch queue,
    and sends SIGTERM once to each job on the queue that has a process, in
    queue order, and to nothing else; as pid 1 it then starts the system
    shutdown.  No job is removed and no field of a job changes. *)
Theorem do_shutdown_signals_running_jobs env w :
  queue_allocated w ->
  do_shutdown env w =
  Some (tt,
        with_trace (with_shutdown_in_progress w true)
          (trace w
           ++ E_kevent KAsyncKq EVFILT_READ EV_DISABLE 0 0 UAsync
              :: bug_unless (kevent_ok env KAsyncKq EVFILT_READ EV_DISABLE)
              ++ kills_of (heap w) (jobs w)
              ++ (if getpid env =? 1 then [E_pid1_shutdown] else []))).
Proof.
  intro Hq. set (w1 := with_shutdown_in_progress w true).
  assert (W : writes w1
    (r <- kevent_mod env KAsyncKq EVFILT_READ EV_DISABLE 0 0 UAsync ;;
     _ <- assumes r ;;
     w0 <- get_world ;;
     mfor (jobs w0) job_stop ;;
     when (getpid env =? 1) (emit E_pid1_shutdown)) tt
    ([E_kevent KAsyncKq EVFILT_READ EV_DISABLE 0 0 UAsync]
     ++ bug_unless (kevent_ok env KAsyncKq EVFILT_READ EV_DISABLE)
     ++ kills_of (heap w1) (jobs w1)
     ++ (if getpid env =? 1 then [E_pid1_shutdown] else []))).
  { eapply writes_bind; [now apply writes_kevent_mod|].
    eapply writes_bind; [apply writes_assumes|].
    apply writes_get_world_bind. intros w0 Hw0.
    rewrite (agrees_jobs _ _ Hw0).
    eapply writes_bind; [apply writes_job_stop_all; exact Hq|].
    destruct (getpid env =? 1); [apply writes_emit|apply writes_ret]. }
  unfold do_shutdown, bind at 1, modify at 1.
  exact (W w1 (agrees_refl w1)).
Qed.

Lemma do_shutdown_signals_running_jobs_witness :
  do_shutdown example_env example_world =
  Some (tt,
        with_trace (with_shutdown_in_progress example_world true)
          [E_kevent KAsyncKq EVFILT_READ EV_DISABLE 0 0 UAsync;
           E_kill 4242 SIGTERM]).
Proof.
  apply (do_shutdown_signals_running_jobs example_env example_world).
  constructor; [discriminate|constructor].
Defined.


(** *** Batch control (launchd.c:1052-1057, 1083-1096, 1290). *)

Lemma to_int_small z : -2147483648 <= z < 2147483648 -> to_int z = z.
Proof. intro H. unfold to_int. Z.div_mod_to_equations. lia. Qed.

Lemma conn_find_some l cfd c :
  conn_find l cfd = Some c -> conn c = cfd /\ In c l.
Proof.
  induction l as [|h t IH]; simpl; [discriminate|].
  destruct (Z.eqb_spec (conn h) cfd) as [E|E].
  - inversion 1; subst. auto.
  - intro H. destruct (IH H). auto.
Qed.

Lemma conn_find_none l cfd :
  ~ In cfd (map conn l) -> conn_find l cfd = None.
Proof.
  induction l as [|h t IH]; simpl; [reflexivity|]. intro N.
  destruct (Z.eqb_spec (conn h) cfd) as [E|E]; [tauto|]. apply IH. tauto.
Qed.

Lemma set_batch_absent l cfd b :
  ~ In cfd (map conn l) ->
  map (fun c => if conn c =? cfd
                then {| conn := conn c; cj := cj c; disabled_batch := b |}
                else c) l = l.
Proof.
  induction l as [|h t IH]; simpl; [reflexivity|]. intro N.
  destruct (Z.eqb_spec (conn h) cfd) as [E|E]; [tauto|].
  rewrite IH; tauto.
Qed.

Lemma disabled_count_cons h t :
  disabled_count (h :: t) = Z.b2z (disabled_batch h) + disabled_count t.
Proof.
  unfold disabled_count. cbn [filter].
  destruct (disabled_batch h); cbn [List.length Z.b2z]; lia.
Qed.

Lemma disabled_count_bounds l :
  0 <= disabled_count l <= Z.of_nat (List.length l).
Proof.
  induction l as [|h t IH]; [unfold disabled_count; simpl; lia|].
  rewrite disabled_count_cons. cbn [List.length].
  destruct (disabled_batch h); cbn [Z.b2z]; lia.
Qed.

Lemma set_batch_spec l cfd c b :
  NoDup (map conn l) -> conn_find l cfd = Some c ->
  let l' := map (fun c => if conn c =? cfd
                          then {| conn := conn c; cj := cj c;
                                  disabled_batch := b |}
                          else c) l in
  disabled_count l'
    = disabled_count l - Z.b2z (disabled_batch c) + Z.b2z b /\
  map conn l' = map conn l /\
  conn_find l' cfd
    = Some {| conn := conn c; cj := cj c; disabled_batch := b |} /\
  (forall fd, fd <> cfd -> conn_find l' fd = conn_find l fd).
Proof.
  induction l as [|h t IH]; [discriminate|].
  intros Hn Hf. cbn [map conn_find] in *.
  inversion Hn as [|? ? Hnot Hn']; subst.
  destruct (Z.eqb_spec (conn h) cfd) as [E|E].
  - inversion Hf; subst h. rewrite E in Hnot.
    rewrite (set_batch_absent t cfd b Hnot).
    rewrite !disabled_count_cons. cbn [disabled_batch conn conn_find].
    rewrite E, Z.eqb_refl. repeat split; [lia|].
    intros fd Hfd. destruct (Z.eqb_spec cfd fd); [congruence|reflexivity].
  - destruct (IH Hn' Hf) as (H1 & H2 & H3 & H4).
    rewrite !disabled_count_cons. cbn [conn_find].
    destruct (Z.eqb_spec (conn h) cfd); [contradiction|].
    repeat split; [lia|now rewrite H2|exact H3|].
    intros fd Hfd. destruct (conn h =? fd); [reflexivity|now apply H4].
Qed.

Lemma drop_conn_spec l cfd c :
  NoDup (map conn l) -> conn_find l cfd = Some c ->
  let l' := filter (fun c => negb (conn c =? cfd)) l in
  disabled_count l' = disabled_count l - Z.b2z (disabled_batch c) /\
  NoDup (map conn l') /\ ~ In cfd (map conn l') /\
  (List.length l' <= List.length l)%nat /\
  (forall fd, fd <> cfd -> conn_find l' fd = conn_find l fd).
Proof.
  induction l as [|h t IH]; [discriminate|].
  intros Hn Hf. cbn [map conn_find filter] in *.
  inversion Hn as [|? ? Hnot Hn']; subst.
  destruct (Z.eqb_spec (conn h) cfd) as [E|E]; cbn [negb].
  - inversion Hf; subst h. rewrite E in Hnot.
    assert (Ht : filter (fun c0 => negb (conn c0 =? cfd)) t = t).
    { clear - Hnot. induction t as [|a t IH]; [reflexivity|].
      cbn [map In filter] in *.
      destruct (Z.eqb_spec (conn a) cfd); [tauto|].
      cbn [negb]. rewrite IH; tauto. }
    rewrite Ht, disabled_count_cons.
    repeat split; [lia|exact Hn'|exact Hnot|cbn [List.length]; lia|].
    intros fd Hfd. cbn [conn_find]. rewrite E.
    destruct (Z.eqb_spec cfd fd); [congruence|reflexivity].
  - destruct (IH Hn' Hf) as (H1 & H2 & H3 & H4 & H5).
    rewrite !disabled_count_cons. cbn [map In List.length conn_find].
    repeat split.
    + lia.
    + constructor; [|exact H2]. intro Hin. apply Hnot.
      apply in_map_iff in Hin. destruct Hin as (a & Ea & Hin).
      apply filter_In in Hin. apply in_map_iff. exists a. tauto.
    + intros [F|F]; [contradiction|tauto].
    + lia.
    + intros fd Hfd. destruct (conn h =? fd); [reflexivity|now apply H5].
Qed.

Lemma disabled_count_pos l c :
  In c l -> disabled_batch c = true -> 1 <= disabled_count l.
Proof.
  induction l as [|h t IH]; [contradiction|].
  intros Hin Ed. rewrite disabled_count_cons.
  pose proof (disabled_count_bounds t).
  destruct Hin as [->|Hin]; [rewrite Ed; cbn [Z.b2z]; lia|].
  specialize (IH Hin Ed). destruct (disabled_batch h); cbn [Z.b2z]; lia.
Qed.

Lemma batch_job_enable_spec env e cfd c w :
  batch_consistent w -> conn_find (connections w) cfd = Some c ->
  wp (batch_job_enable env e cfd)
     (fun _ w' =>
        batch_consistent w' /\
        conn_find (connections w') cfd
          = Some {| conn := conn c; cj := cj c; disabled_batch := negb e |} /\
        (forall fd, fd <> cfd ->
           conn_find (connections w') fd = conn_find (connections w) fd) /\
        map conn (connections w') = map conn (connections w) /\
        heap w' = heap w /\ jobs w' = jobs w) w.
Proof.
  intros (Hc & Hn & Hb) Hf. unfold batch_job_enable.
  pose proof (disabled_count_bounds (connections w)) as Hr.
  apply wp_bind. eapply wp_get_conn; [exact Hf|].
  do 2 wp_step.
  destruct e; cbn [andb negb].
  - destruct (disabled_batch c) eqn:Ed.
    + destruct (set_batch_spec (connections w) cfd c false Hn Hf)
        as (H1 & H2 & H3 & H4).
      rewrite Ed in H1. cbn [Z.b2z] in H1.
      pose proof (disabled_count_pos _ _ (proj2 (conn_find_some _ _ _ Hf)) Ed)
        as Hpos.
      do 2 wp_step. unfold set_conn_disabled_batch. do 2 wp_step.
      do 2 wp_step. wp_log.
      split; [|repeat split; world_simpl; assumption].
      repeat split; world_simpl.
      * rewrite Hc, to_int_small by lia. lia.
      * now rewrite H2.
      * now rewrite length_map.
    + wp_step. split; [repeat split; assumption|].
      repeat split; try reflexivity.
      rewrite Hf. destruct c; cbn [conn cj disabled_batch] in *.
      now rewrite Ed.
  - destruct (disabled_batch c) eqn:Ed; cbn [negb].
    + wp_step. split; [repeat split; assumption|].
      repeat split; try reflexivity.
      rewrite Hf. destruct c; cbn [conn cj disabled_batch] in *.
      now rewrite Ed.
    + destruct (set_batch_spec (connections w) cfd c true Hn Hf)
        as (H1 & H2 & H3 & H4).
      rewrite Ed in H1. cbn [Z.b2z] in H1.
      wp_log. do 2 wp_step. unfold set_conn_disabled_batch. wp_step.
      split; [|repeat split; world_simpl; assumption].
      repeat split; world_simpl.
      * rewrite Hc, to_int_small by lia. lia.
      * now rewrite H2.
      * now rewrite length_map.
Qed.

(** X11: batch_job_enable keeps the batch counter equal to the number of
    connections that hold batch jobs disabled.  It returns, leaves the
    calling connection's flag set exactly when batch jobs were disabled
    through it, touches no other connection and no job; enabling twice or
    disabling twice counts once.  BatchQuery then answers true exactly
    when no connection holds batch jobs disabled. *)
Theorem batch_counter_consistent env e cfd c w data :
  batch_consistent w -> conn_find (connections w) cfd = Some c ->
  exists w',
    handler env V_BATCHCONTROL (Some (LD_BOOL e)) cfd w
      = Some ((launch_data_new_errno 0, Some (LD_BOOL e)), w') /\
    batch_consistent w' /\
    conn_find (connections w') cfd
      = Some {| conn := conn c; cj := cj c; disabled_batch := negb e |} /\
    (forall fd, fd <> cfd ->
       conn_find (connections w') fd = conn_find (connections w) fd) /\
    heap w' = heap w /\ jobs w' = jobs w /\
    handler env V_BATCHQUERY data cfd w'
      = Some ((LD_BOOL (forallb (fun c => negb (disabled_batch c))
                          (connections w')), data), w').
Proof.
  intros Hc Hf.
  destruct (wp_run _ _ _ (batch_job_enable_spec env e cfd c w Hc Hf))
    as ([] & w' & E & Hc' & Hf' & Ho & _ & Hh & Hj).
  exists w'. cbn [handler]. unfold arg, bind at 1, ret at 1.
  cbn [launch_data_get_bool]. unfold bind at 1. rewrite E.
  split; [reflexivity|]. split; [exact Hc'|]. split; [exact Hf'|].
  split; [exact Ho|]. split; [exact Hh|]. split; [exact Hj|].
  unfold bind, get_world, ret. destruct Hc' as (Hcnt & _). rewrite Hcnt.
  do 3 f_equal. unfold launch_data_new_bool. f_equal.
  clear. induction (connections w') as [|h t IH]; [reflexivity|].
  rewrite disabled_count_cons. cbn [forallb].
  pose proof (disabled_count_bounds t) as Hb.
  destruct (disabled_batch h); cbn [Z.b2z negb andb].
  - apply Z.eqb_neq. lia.
  - exact IH.
Qed.

Lemma batch_counter_consistent_witness :
  exists w',
    handler example_env V_BATCHCONTROL (Some (LD_BOOL false)) 21 example_world
      = Some ((LD_ERRNO 0, Some (LD_BOOL false)), w') /\
    batch_disabler_count w' = 1 /\
    handler example_env V_BATCHQUERY None 21 w'
      = Some ((LD_BOOL false, None), w').
Proof.
  assert (Hc : batch_consistent example_world).
  { split; [reflexivity|]. split.
    - simpl. repeat constructor; simpl; intuition discriminate.
    - simpl. lia. }
  destruct (batch_counter_consistent example_env false 21
              {| conn := 21; cj := None; disabled_batch := false |}
              example_world None Hc eq_refl)
    as (w' & E & _ & _ & _ & _ & _ & Q).
  exists w'. split; [exact E|].
  vm_compute in E. inversion E; subst w'. split; [reflexivity|exact Q].
Defined.

(** X12: ipc_close releases what the connection held.  A connection that
    had disabled batch jobs gives its count back before it goes, so the
    counter still equals the number of remaining connections that hold
    batch jobs disabled; the connection is no longer found, the others
    stay, and no job is touched. *)
Theorem ipc_close_releases_batch env cfd c w :
  batch_consistent w -> conn_find (connections w) cfd = Some c ->
  exists w',
    ipc_close env cfd w = Some (tt, w') /\
    batch_consistent w' /\
    conn_find (connections w') cfd = None /\
    (forall fd, fd <> cfd ->
       conn_find (connections w') fd = conn_find (connections w) fd) /\
    heap w' = heap w /\ jobs w' = jobs w.
Proof.
  intros Hc Hf.
  destruct (wp_run _ _ _ (batch_job_enable_spec env true cfd c w Hc Hf))
    as ([] & w1 & E & (Hcnt & Hn & Hb) & Hf1 & Ho & Hm & Hh & Hj).
  destruct (drop_conn_spec (connections w1) cfd _ Hn Hf1)
    as (D1 & D2 & D3 & D4 & D5).
  cbn [disabled_batch negb Z.b2z] in D1.
  eexists. unfold ipc_close, bind at 1. rewrite E.
  split; [reflexivity|]. unfold batch_consistent, modify, emit.
  cbn [bind]. world_simpl. repeat split.
  - rewrite Hcnt. lia.
  - exact D2.
  - lia.
  - now apply conn_find_none.
  - intros fd Hfd. rewrite (D5 fd Hfd). now apply Ho.
  - exact Hh.
  - exact Hj.
Qed.

Lemma ipc_close_releases_batch_witness :
  let w := with_batch_disabler_count
             (with_connections example_world
                [{| conn := 20; cj := Some 0%nat; disabled_batch := false |};
                 {| conn := 21; cj := None; disabled_batch := true |}]) 1 in
  exists w',
    ipc_close example_env 21 w = Some (tt, w') /\
    batch_disabler_count w' = 0 /\
    connections w'
      = [{| conn := 20; cj := Some 0%nat; disabled_batch := false |}].
Proof.
  intro w.
  assert (Hc : batch_consistent w).
  { split; [reflexivity|]. split.
    - simpl. repeat constructor; simpl; intuition discriminate.
    - simpl. lia. }
  destruct (ipc_close_releases_batch example_env 21
              {| conn := 21; cj := None; disabled_batch := true |} w Hc
              eq_refl) as (w' & E & _).
  exists w'. split; [exact E|].
  vm_compute in E. inversion E; subst w'. split; reflexivity.
Defined.


(** *** The user environment (launchd.c:676, 981-997). *)

Lemma split_eq_append k v :
  split_eq k = None -> split_eq (k ++ "=" ++ v) = Some (k, v).
Proof.
  induction k as [|c t IH]; simpl in *; [reflexivity|].
  destruct (Ascii.eqb c "="); [discriminate|].
  destruct (split_eq t) as [[n u]|]; [discriminate|].
  intros _. now rewrite IH.
Qed.

Lemma valid_env_name_split k : valid_env_name k = true -> split_eq k = None.
Proof.
  unfold valid_env_name. intro H. apply Bool.andb_true_iff in H.
  destruct H as [_ H]. now destruct (split_eq k).
Qed.

Lemma environ_dict_spec w e : forall kv0,
  Forall readable_entry e ->
  exists kv',
    environ_dict e (LD_DICTIONARY kv0) w = Some (LD_DICTIONARY kv', w) /\
    forall k, assoc_lookup kv' k
              = match environ_last e k with
                | Some v => Some (LD_STRING v)
                | None => assoc_lookup kv0 k
                end.
Proof.
  induction e as [|s t IH]; intros kv0 He.
  - exists kv0. split; reflexivity.
  - inversion He as [|? ? (k1 & v1 & Es & Hlen) Ht]; subst.
    destruct (IH (assoc_insert kv0 (LD_STRING v1) k1) Ht) as (kv' & E & H).
    exists kv'. split.
    + cbn [environ_dict]. unfold bind, user_env_entry. rewrite Es.
      apply Nat.ltb_lt in Hlen. rewrite Hlen. exact E.
    + intro k. rewrite H. cbn [environ_last]. rewrite Es.
      destruct (environ_last t k); [reflexivity|].
      rewrite assoc_lookup_insert_eqb, String.eqb_sym.
      destruct (String.eqb k1 k); reflexivity.
Qed.

Lemma get_user_environment_spec env data cfd w :
  Forall readable_entry (environ w) ->
  exists d,
    handler env V_GETUSERENVIRONMENT data cfd w = Some ((d, data), w) /\
    forall k, launch_data_dict_lookup d k
              = match environ_last (environ w) k with
                | Some v => Some (LD_STRING v)
                | None => None
                end.
Proof.
  intro He. destruct (environ_dict_spec w (environ w) [] He) as (kv' & E & H).
  exists (LD_DICTIONARY kv'). split.
  - cbn [handler]. unfold bind at 1, get_world. unfold bind. now rewrite E.
  - intro k. simpl. rewrite H. now destruct (environ_last (environ w) k).
Qed.

Lemma environ_last_named e k v :
  environ_last e k = Some v -> In (Some k) (map entry_name e).
Proof.
  induction e as [|s t IH]; cbn [environ_last map In]; [discriminate|].
  destruct (environ_last t k) as [v'|].
  - intro E. right. now apply IH.
  - unfold entry_name. destruct (split_eq s) as [[n u]|]; [|discriminate].
    destruct (String.eqb_spec n k) as [->|]; [|discriminate].
    intros _. now left.
Qed.

Lemma environ_last_put e k v k' :
  split_eq k = None ->
  NoDup (map entry_name e) ->
  environ_last (env_put e k v) k'
  = if String.eqb k k' then Some v else environ_last e k'.
Proof.
  intros Hk. induction e as [|s t IH]; intro Hn; cbn [env_put].
  - cbn [environ_last]. now rewrite (split_eq_append k v Hk).
  - inversion Hn as [|? ? Hs Ht]; subst. unfold entry_named.
    destruct (split_eq s) as [[n u]|] eqn:Es.
    + destruct (String.eqb_spec n k) as [->|N].
      * cbn [environ_last]. rewrite (split_eq_append k v Hk), Es.
        destruct (String.eqb_spec k k') as [<-|N'].
        -- destruct (environ_last t k) as [v'|] eqn:El; [|reflexivity].
           exfalso. apply Hs. unfold entry_name at 1. rewrite Es.
           eapply environ_last_named; eassumption.
        -- reflexivity.
      * cbn [environ_last]. rewrite (IH Ht), Es.
        destruct (String.eqb_spec k k') as [<-|N']; [reflexivity|].
        reflexivity.
    + cbn [environ_last]. rewrite (IH Ht), Es.
      destruct (String.eqb k k'); [reflexivity|].
      now destruct (environ_last t k').
Qed.

Lemma environ_last_filter e k k' :
  environ_last (filter (fun s => negb (entry_named s k)) e) k'
  = if String.eqb k k' then None else environ_last e k'.
Proof.
  induction e as [|s t IH]; simpl.
  - destruct (String.eqb k k'); reflexivity.
  - unfold entry_named at 1. destruct (split_eq s) as [[n u]|] eqn:Es.
    + destruct (String.eqb_spec n k) as [->|N]; simpl.
      * rewrite IH. destruct (String.eqb k k'); [reflexivity|].
        destruct (environ_last t k'); reflexivity.
      * rewrite IH, Es. destruct (String.eqb_spec k k') as [->|N'].
        -- destruct (String.eqb_spec n k'); [contradiction|reflexivity].
        -- reflexivity.
    + simpl. rewrite IH, Es. destruct (String.eqb k k'); [reflexivity|].
      now destruct (environ_last t k').
Qed.

Lemma readable_put e k v :
  split_eq k = None -> (String.length k < 1024)%nat ->
  Forall readable_entry e -> Forall readable_entry (env_put e k v).
Proof.
  intros Hk Hlen. induction 1 as [|s t Hs Ht IH]; cbn [env_put].
  - constructor; [|constructor]. exists k, v.
    split; [now apply split_eq_append|exact Hlen].
  - destruct (entry_named s k).
    + constructor; [|assumption]. exists k, v.
      split; [now apply split_eq_append|exact Hlen].
    + now constructor.
Qed.

Lemma readable_filter (f : string -> bool) e :
  Forall readable_entry e -> Forall readable_entry (filter f e).
Proof.
  induction 1 as [|s t Hs _ IH]; simpl; [constructor|].
  destruct (f s); [now constructor|exact IH].
Qed.

(** X13: the user environment round trip, for a name that setenv takes
    (not empty, without '=') and that fits the key buffer of
    GetUserEnvironment (shorter than 1024 bytes), and a value that setenv
    stores as it is (one that does not begin with '='), in an environment
    whose entries GetUserEnvironment can read and that holds no name
    twice.
    After SetUserEnvironment with the name and a string, the dictionary
    GetUserEnvironment answers holds that string under that name and
    holds under every other name what it held before; after
    UnsetUserEnvironment of the name it holds nothing under it, and the
    other names are again untouched.  GetUserEnvironment itself changes
    nothing. *)
Theorem user_environment_round_trip env w k v cfd data :
  valid_env_name k = true ->
  (String.length k < 1024)%nat ->
  setenv_value v = v ->
  Forall readable_entry (environ w) ->
  NoDup (map entry_name (environ w)) ->
  let set := Some (LD_DICTIONARY [(k, LD_STRING v)]) in
  let unset := Some (LD_STRING k) in
  exists w1 w2 d d1 d2,
    handler env V_GETUSERENVIRONMENT data cfd w = Some ((d, data), w) /\
    handler env V_SETUSERENVIRONMENT set cfd w
      = Some ((launch_data_new_errno 0, set), w1) /\
    handler env V_GETUSERENVIRONMENT data cfd w1 = Some ((d1, data), w1) /\
    launch_data_dict_lookup d1 k = Some (LD_STRING v) /\
    (forall k', k' <> k ->
       launch_data_dict_lookup d1 k' = launch_data_dict_lookup d k') /\
    handler env V_UNSETUSERENVIRONMENT unset cfd w1
      = Some ((launch_data_new_errno 0, unset), w2) /\
    handler env V_GETUSERENVIRONMENT data cfd w2 = Some ((d2, data), w2) /\
    launch_data_dict_lookup d2 k = None /\
    (forall k', k' <> k ->
       launch_data_dict_lookup d2 k' = launch_data_dict_lookup d k').
Proof.
  intros Hv Hlen Hval He Hn set unset.
  pose proof (valid_env_name_split k Hv) as Hk.
  set (w1 := with_environ (with_trace w (trace w ++ [E_setenv k v]))
               (env_put (environ w) k v)).
  set (w2 := with_environ (with_trace w1 (trace w1 ++ [E_unsetenv k]))
               (filter (fun s => negb (entry_named s k)) (environ w1))).
  assert (He1 : Forall readable_entry (environ w1)).
  { unfold w1. world_simpl. now apply readable_put. }
  assert (He2 : Forall readable_entry (environ w2)).
  { unfold w2. world_simpl. now apply readable_filter. }
  destruct (get_user_environment_spec env data cfd w He) as (d & Ed & Hd).
  destruct (get_user_environment_spec env data cfd w1 He1) as (d1 & Ed1 & Hd1).
  destruct (get_user_environment_spec env data cfd w2 He2) as (d2 & Ed2 & Hd2).
  assert (H1 : forall k', launch_data_dict_lookup d1 k'
               = if String.eqb k k' then Some (LD_STRING v)
                 else launch_data_dict_lookup d k').
  { intro k'. rewrite Hd1, Hd. unfold w1. world_simpl.
    rewrite (environ_last_put _ k v k' Hk Hn).
    destruct (String.eqb k k'); reflexivity. }
  assert (H2 : forall k', launch_data_dict_lookup d2 k'
               = if String.eqb k k' then None
                 else launch_data_dict_lookup d1 k').
  { intro k'. rewrite Hd2, Hd1. unfold w2. world_simpl.
    rewrite environ_last_filter. destruct (String.eqb k k'); reflexivity. }
  exists w1, w2, d, d1, d2.
  split; [exact Ed|]. split.
  { cbn [handler]. unfold set. cbn [arg bind ret dict_entries mfor fst snd
      launch_data_get_string]. unfold setenv, bind, emit, modify, when.
    rewrite Hv, Hval. reflexivity. }
  split; [exact Ed1|]. split.
  { rewrite H1, String.eqb_refl. reflexivity. }
  split.
  { intros k' N. rewrite H1.
    destruct (String.eqb_spec k k'); [congruence|reflexivity]. }
  split.
  { cbn [handler]. unfold unset. cbn [arg bind ret launch_data_get_string].
    unfold unsetenv, bind, emit, modify, when. rewrite Hv. reflexivity. }
  split; [exact Ed2|]. split.
  { rewrite H2, String.eqb_refl. reflexivity. }
  intros k' N. rewrite H2.
  destruct (String.eqb_spec k k'); [congruence|].
  rewrite H1. destruct (String.eqb_spec k k'); [congruence|reflexivity].
Qed.

Lemma user_environment_round_trip_witness :
  let w := with_environ example_world ["PATH=/usr/bin:/bin"] in
  exists w1 w2 d1 d2,
    handler example_env V_SETUSERENVIRONMENT
      (Some (LD_DICTIONARY [("TMPDIR", LD_STRING "/var/tmp")])) 20 w
      = Some ((launch_data_new_errno 0,
               Some (LD_DICTIONARY [("TMPDIR", LD_STRING "/var/tmp")])), w1) /\
    handler example_env V_GETUSERENVIRONMENT None 20 w1
      = Some ((d1, None), w1) /\
    launch_data_dict_lookup d1 "TMPDIR" = Some (LD_STRING "/var/tmp") /\
    handler example_env V_GETUSERENVIRONMENT None 20 w2
      = Some ((d2, None), w2) /\
    launch_data_dict_lookup d2 "TMPDIR" = None.
Proof.
  intro w.
  assert (He : Forall readable_entry (environ w)).
  { constructor; [|constructor]. exists "PATH", "/usr/bin:/bin".
    split; [reflexivity|]. apply Nat.ltb_lt. reflexivity. }
  assert (Hn : NoDup (map entry_name (environ w))).
  { constructor; [intros []|constructor]. }
  assert (Hlen : (String.length "TMPDIR" < 1024)%nat).
  { apply Nat.ltb_lt. reflexivity. }
  destruct (user_environment_round_trip example_env w "TMPDIR" "/var/tmp" 20
              None eq_refl Hlen eq_refl He Hn)
    as (w1 & w2 & d & d1 & d2 & _ & E1 & G1 & L1 & _ & _ & G2 & L2 & _).
  exists w1, w2, d1, d2. repeat split; assumption.
Defined.


(** *** Handlers that run to their end on a live job. *)

Lemma same_jobs_refl w : same_jobs w w.
Proof. now repeat split. Qed.

Lemma same_jobs_trans w1 w2 w3 :
  same_jobs w1 w2 -> same_jobs w2 w3 -> same_jobs w1 w3.
Proof.
  intros (A1 & B1 & C1 & D1 & E1) (A2 & B2 & C2 & D2 & E2).
  repeat split; congruence.
Qed.


Lemma heap_find_same_jobs h h' k :
  map jid h' = map jid h -> map label h' = map label h ->
  map ldj h' = map ldj h ->
  match heap_find h' k with
  | Some y => Some (label y, ldj y) | None => None
  end =
  match heap_find h k with
  | Some y => Some (label y, ldj y) | None => None
  end.
Proof.
  revert h'. induction h as [|x t IH]; intros [|x' t']; simpl;
    try discriminate; [reflexivity|].
  intros Hj Hl Hd. injection Hj as Hj1 Hj2. injection Hl as Hl1 Hl2.
  injection Hd as Hd1 Hd2. rewrite Hj1.
  destruct (Nat.eqb (jid x) k); [now rewrite Hl1, Hd1|auto].
Qed.

Lemma same_jobs_job_is j lbl d w w' :
  same_jobs w w' -> job_is j lbl d w -> job_is j lbl d w'.
Proof.
  intros (_ & _ & Hj & Hl & Hd) (x & Hx & Lx & Dx).
  pose proof (heap_find_same_jobs (heap w) (heap w') j Hj Hl Hd) as H.
  rewrite Hx in H.
  destruct (heap_find (heap w') j) as [y|] eqn:Ey; [|discriminate].
  exists y. injection H as H1 H2.
  split; [exact Ey|]. split; [now rewrite H1|now rewrite H2].
Qed.

Lemma heap_put_ldjs h x y :
  heap_find h (jid y) = Some x -> ldj y = ldj x ->
  map ldj (heap_put h y) = map ldj h.
Proof.
  intros Hx Hl. induction h as [|z t IH]; simpl in *; [reflexivity|].
  destruct (Nat.eqb_spec (jid z) (jid y)); simpl.
  - inversion Hx; subst. congruence.
  - now rewrite IH.
Qed.

Section Runs.
Variables (j : jobid) (lbl : string) (d : launch_data).

Lemma r_ret {A : Type} (a : A) : runs j lbl d same_jobs (ret a).
Proof. intros w _. exists a, w. split; [reflexivity|apply same_jobs_refl]. Qed.

Lemma r_bind_gen (R : World -> World -> Prop) {A B : Type}
  (c : M A) (k : A -> M B) :
  (forall w1 w2 w3, same_jobs w1 w2 -> R w2 w3 -> R w1 w3) ->
  runs j lbl d same_jobs c -> (forall a, runs j lbl d R (k a)) ->
  runs j lbl d R (bind c k).
Proof.
  intros Ht Hc Hk w Hw. destruct (Hc w Hw) as (a & w1 & E1 & R1).
  destruct (Hk a w1 (same_jobs_job_is _ _ _ _ _ R1 Hw)) as (b & w2 & E2 & R2).
  exists b, w2. unfold bind. rewrite E1. split; [exact E2|].
  eapply Ht; eassumption.
Qed.

Lemma r_bind {A B : Type} (c : M A) (k : A -> M B) :
  runs j lbl d same_jobs c -> (forall a, runs j lbl d same_jobs (k a)) ->
  runs j lbl d same_jobs (bind c k).
Proof. apply r_bind_gen. exact same_jobs_trans. Qed.

Lemma r_get_job_bind (R : World -> World -> Prop) {B : Type}
  (k : jobcb -> M B) :
  (forall x, jid x = j -> label x = lbl -> ldj x = d ->
             runs j lbl d R (k x)) ->
  runs j lbl d R (bind (get_job j) k).
Proof.
  intros Hk w Hw. pose proof Hw as (x & Hx & Lx & Dx).
  unfold bind, get_job. rewrite Hx.
  apply (Hk x (heap_find_jid _ _ _ Hx) Lx Dx w Hw).
Qed.

Lemma r_get_job : runs j lbl d same_jobs (get_job j).
Proof.
  intros w (x & Hx & _). exists x, w. unfold get_job. rewrite Hx.
  split; [reflexivity|apply same_jobs_refl].
Qed.

Lemma r_get_world_bind (R : World -> World -> Prop) {B : Type}
  (k : World -> M B) :
  (forall w0, runs j lbl d R (k w0)) -> runs j lbl d R (bind get_world k).
Proof. intros Hk w Hw. unfold bind, get_world. now apply Hk. Qed.

Lemma r_modify f :
  (forall w, same_jobs w (f w)) -> runs j lbl d same_jobs (modify f).
Proof. intros H w _. exists tt, (f w). split; [reflexivity|apply H]. Qed.

Lemma r_emit e : runs j lbl d same_jobs (emit e).
Proof. apply r_modify. intro w. now repeat split. Qed.

Lemma r_update_job f :
  (forall x, jid (f x) = jid x /\ label (f x) = label x
             /\ ldj (f x) = ldj x) ->
  runs j lbl d same_jobs (update_job j f).
Proof.
  intros Hf w (x & Hx & _). unfold update_job, bind, get_job. rewrite Hx.
  eexists. eexists. split; [reflexivity|].
  destruct (Hf x) as (Hj & Hl & Hd).
  assert (Hx' : heap_find (heap w) (jid (f x)) = Some x).
  { rewrite Hj, (heap_find_jid _ _ _ Hx). exact Hx. }
  repeat split; world_simpl.
  - apply heap_put_jids.
  - eapply heap_put_labels; eassumption.
  - eapply heap_put_ldjs; eassumption.
Qed.

Lemma r_when (b : bool) c :
  runs j lbl d same_jobs c -> runs j lbl d same_jobs (when b c).
Proof. destruct b; [auto|intros _; apply r_ret]. Qed.

Lemma r_mfor {A : Type} (l : list A) (body : A -> M unit) :
  (forall a, runs j lbl d same_jobs (body a)) ->
  runs j lbl d same_jobs (mfor l body).
Proof.
  intro H. induction l as [|a t IH]; simpl; [apply r_ret|].
  apply r_bind; [apply H|intro; exact IH].
Qed.

End Runs.

Ltac r_prim :=
  first
    [ apply r_ret
    | apply r_emit
    | apply r_get_job
    | apply r_update_job; intro; repeat split
    | apply r_modify; intro; repeat split ].

Ltac r_with known :=
  cbv zeta;
  repeat first
    [ known
    | r_prim
    | match goal with
      | |- runs _ _ _ _ (bind (get_job _) _) =>
          apply r_get_job_bind;
          let x := fresh "x" in
          let Hj := fresh "Hj" in
          let Hl := fresh "Hl" in
          let Hd := fresh "Hd" in
          intros x Hj Hl Hd; try rewrite Hd
      | |- runs _ _ _ _ (bind get_world _) =>
          apply r_get_world_bind; intro
      | |- runs _ _ _ _ (bind _ _) => apply r_bind; [|intro]
      | |- runs _ _ _ _ (when _ _) => apply r_when
      | |- runs _ _ _ _ (mfor _ _) => apply r_mfor; intro
      | |- runs _ _ _ _ (if ?x then _ else _) => destruct x
      | |- runs _ _ _ _ (match ?x with Some _ => _ | None => _ end) =>
          destruct x
      | |- runs _ _ _ _ (match ?x with (_, _) => _ end) => destruct x
      end ].

Ltac r_auto := r_with fail.

Lemma r_assumes j lbl d b : runs j lbl d same_jobs (assumes b).
Proof. unfold assumes. r_auto. Qed.

Lemma r_kevent_mod j lbl d env i f fl ff dt u :
  runs j lbl d same_jobs (kevent_mod env i f fl ff dt u).
Proof. unfold kevent_mod. r_auto; apply r_assumes. Qed.

Lemma r_fd j lbl d fd : runs j lbl d same_jobs (_fd fd).
Proof. unfold _fd. r_auto. Qed.

Lemma r_job_log j lbl d pri msg : runs j lbl d same_jobs (job_log j pri msg).
Proof. unfold job_log. r_auto. Qed.

Lemma r_job_log_error j lbl d pri msg :
  runs j lbl d same_jobs (job_log_error j pri msg).
Proof. unfold job_log_error. r_auto. Qed.

Ltac r_known :=
  first
    [ apply r_assumes | apply r_kevent_mod | apply r_fd
    | apply r_job_log | apply r_job_log_error ].

Ltac r_go := r_with r_known.



Lemma r_close_fds j lbl d o :
  runs j lbl d same_jobs (launch_data_close_fds o).
Proof.
  induction o using launch_data_deep_ind.
  - induction H as [|[k v] t Hv _ IH]; simpl; [r_go|].
    apply r_bind; [exact Hv|intro; exact IH].
  - induction H as [|v t Hv _ IH]; simpl; [r_go|].
    apply r_bind; [exact Hv|intro; exact IH].
  - destruct o; simpl in *; try discriminate; r_go.
Qed.


Lemma r_job_stop j lbl d : runs j lbl d same_jobs (job_stop j).
Proof. unfold job_stop. r_go. Qed.

Lemma r_job_reap j lbl d env : runs j lbl d same_jobs (job_reap env j).
Proof. unfold job_reap. r_go. Qed.






Lemma r_unsetenv j lbl d k : runs j lbl d same_jobs (unsetenv k).
Proof. unfold unsetenv. r_go. Qed.


Lemma r_unsetup_job_env j lbl d e :
  runs j lbl d same_jobs (unsetup_job_env e).
Proof.
  unfold unsetup_job_env. destruct (snd e);
    r_with ltac:(first [r_known|apply r_unsetenv]).
Qed.


(** *** Removing a job (launchd.c:838). *)

Lemma r_seq j lbl d (R1 R2 R3 : World -> World -> Prop) {A B : Type}
  (c : M A) (k : A -> M B) :
  (forall w1 w2, R1 w1 w2 -> job_is j lbl d w1 -> job_is j lbl d w2) ->
  (forall w1 w2 w3, R1 w1 w2 -> R2 w2 w3 -> R3 w1 w3) ->
  runs j lbl d R1 c -> (forall a, runs j lbl d R2 (k a)) ->
  runs j lbl d R3 (bind c k).
Proof.
  intros Hi Ht Hc Hk w Hw. destruct (Hc w Hw) as (a & w1 & E1 & H1).
  destruct (Hk a w1 (Hi _ _ H1 Hw)) as (b & w2 & E2 & H2).
  exists b, w2. unfold bind. rewrite E1. split; [exact E2|].
  eapply Ht; eassumption.
Qed.

Lemma heap_free_map {B : Type} (f : jobcb -> B) h h' j :
  map jid h' = map jid h -> map f h' = map f h ->
  map f (heap_free h' j) = map f (heap_free h j).
Proof.
  revert h'. induction h as [|x t IH]; intros [|x' t']; simpl;
    try discriminate; [reflexivity|].
  intros Hj Hf. injection Hj as Hj1 Hj2. injection Hf as Hf1 Hf2.
  rewrite Hj1. destruct (Nat.eqb (jid x) j); [exact Hf2|].
  simpl. rewrite Hf1. f_equal. now apply IH.
Qed.

Lemma same_jobs_then_freed j w1 w2 w3 :
  same_jobs w1 w2 -> job_freed j w2 w3 -> job_freed j w1 w3.
Proof.
  intros (A1 & B1 & C1 & D1 & E1) (A2 & B2 & C2 & D2 & E2).
  repeat split; try congruence.
  - rewrite C2. now apply heap_free_map.
  - rewrite D2. now apply heap_free_map.
  - rewrite E2. now apply heap_free_map.
Qed.

Lemma r_freed_bind j lbl d {A B : Type} (c : M A) (k : A -> M B) :
  runs j lbl d same_jobs c -> (forall a, runs j lbl d (job_freed j) (k a)) ->
  runs j lbl d (job_freed j) (bind c k).
Proof.
  apply r_seq.
  - intros w1 w2 H. now apply same_jobs_job_is.
  - apply same_jobs_then_freed.
Qed.

Lemma r_job_remove j lbl d env :
  runs j lbl d (job_removed j) (job_remove env j).
Proof.
  unfold job_remove.
  apply (r_seq j lbl d same_jobs (job_removed j) (job_removed j)).
  { intros w1 w2 H. now apply same_jobs_job_is. }
  { intros w1 w2 w3 (A1 & B1 & C1 & D1 & E1) (A2 & B2 & C2 & D2 & E2).
    repeat split; try congruence.
    - rewrite C2. now apply heap_free_map.
    - rewrite D2. now apply heap_free_map.
    - rewrite E2. now apply heap_free_map. }
  { apply r_job_log. }
  intros _.
  apply (r_seq j lbl d
           (fun w w' => jobs w' = remove_jid (jobs w) j /\
                        next_jid w' = next_jid w /\ heap w' = heap w)
           (job_freed j) (job_removed j)).
  { intros w1 w2 (_ & _ & Hh) (x & Hx & Hl). exists x. now rewrite Hh. }
  { intros w1 w2 w3 (A1 & B1 & C1) (A2 & B2 & C2 & D2 & E2).
    repeat split; congruence. }
  { intros w _. exists tt. eexists. split; [reflexivity|].
    now repeat split. }
  intros _.
  repeat
    (apply r_freed_bind;
     [ r_with ltac:(first [ r_known | apply r_job_reap | apply r_job_stop
                          | apply r_close_fds | apply r_unsetup_job_env ])
     | intro ]).
  intros w _. exists tt. eexists. split; [reflexivity|].
  now repeat split.
Qed.



Lemma heap_find_absent h j :
  ~ In j (map jid h) -> heap_find h j = None.
Proof.
  induction h as [|y t IH]; simpl; [reflexivity|]. intro N.
  destruct (Nat.eqb_spec (jid y) j); [tauto|]. apply IH. tauto.
Qed.

Lemma heap_find_free_same h j :
  NoDup (map jid h) -> heap_find (heap_free h j) j = None.
Proof.
  induction h as [|y t IH]; simpl; [reflexivity|].
  intro Hn. inversion Hn as [|? ? Hnot Hn']; subst.
  destruct (Nat.eqb_spec (jid y) j) as [E|E].
  - apply heap_find_absent. now rewrite <- E.
  - simpl. destruct (Nat.eqb_spec (jid y) j); [contradiction|]. now apply IH.
Qed.






(** *** The answer of the dispatcher (launchd.c:884-1061). *)

Lemma job_remove_gone env j x w :
  NoDup (map jid (heap w)) -> heap_find (heap w) j = Some x ->
  exists w', job_remove env j w = Some (tt, w') /\
             heap_find (heap w') j = None /\
             jobs w' = remove_jid (jobs w) j.
Proof.
  intros Hh Hx.
  destruct (r_job_remove j (label x) (ldj x) env w)
    as ([] & w' & E & Hjobs & _ & Hjid & Hlab & Hldj).
  { exists x. auto. }
  exists w'. split; [exact E|]. split; [|exact Hjobs].
  pose proof (heap_find_same_jobs (heap_free (heap w) j) (heap w') j
                Hjid Hlab Hldj) as Hsame.
  rewrite (heap_find_free_same _ _ Hh) in Hsame.
  destruct (heap_find (heap w') j); [discriminate|reflexivity].
Qed.

(** The loop of RemoveJob does not get past the first job that carries
    the label: job_remove frees the job, and the loop reads it again to
    step to the next one. *)
Lemma for_jobs_labelled_remove env s w : forall l resp,
  NoDup (map jid (heap w)) ->
  Forall (fun k => heap_find (heap w) k <> None) l ->
  existsb (fun k => match heap_find (heap w) k with
                    | Some y => String.eqb (label y) s
                    | None => false
                    end) l = true ->
  for_jobs_labelled l (Some (LD_STRING s)) (job_remove env) resp w = None.
Proof.
  induction l as [|k t IH]; intros resp Hh Hl; [discriminate|].
  inversion Hl as [|? ? Hk Ht]; subst.
  cbn [for_jobs_labelled existsb].
  destruct (heap_find (heap w) k) as [y|] eqn:Ey; [|contradiction].
  unfold bind at 1, get_job at 1. rewrite Ey.
  unfold bind at 1. cbn [string_arg arg bind ret launch_data_get_string].
  destruct (String.eqb (label y) s) eqn:El.
  - intros _.
    destruct (job_remove_gone env k y w Hh Ey) as (w' & E & Hg & _).
    unfold bind, ret, get_job. rewrite E, Hg. reflexivity.
  - cbn [orb]. intro Ex. unfold bind, ret, get_job. rewrite Ey.
    now apply IH.
Qed.

(** Every verb has its command in the table. *)
Lemma verb_has_command v : exists cmd, verb_of_cmd cmd = Some v.
Proof.
  destruct v; eexists; apply verb_of_cmd_table; unfold verb_table;
    cbn [In]; repeat first [left; reflexivity|right].
Qed.

Lemma handler_answers_always env v data cfd w :
  answers_always v = true ->
  exists r w', handler env v data cfd w = Some ((r, data), w').
Proof.
  destruct v; try discriminate; intros _; cbn [handler];
    cbv [bind ret emit modify get_world setlogmask do_umask when];
    repeat match goal with
           | |- context [if ?b then _ else _] => destruct b
           end;
    eexists; eexists; reflexivity.
Qed.

(** C10: what the dispatcher answers.  A message that is neither a
    dictionary nor a string is answered with errno EINVAL, and a command
    that names no known verb with errno ENOSYS: ipc_readmsg returns, and
    hands that one value to launchd_msg_send, once.  For a known verb the
    answer is that of its handler, handed over once, when the handler
    returns; several verbs (ReloadTTYS, the resource limits, GetLogMask,
    GetUmask, the resource usages, BatchQuery) return for every argument
    and every state.  But not every message is answered: where the
    handler does not return, ipc_readmsg does not; and the handler of
    RemoveJob does not return for the label of a loaded job, since its
    loop steps on from the job that job_remove has just freed. *)
Theorem ipc_readmsg_response (env : Env) (cfd : Z) (c : conncb) (w : World) :
  conn_find (connections w) cfd = Some c ->
  let answered msg resp w0 :=
    exists w' t,
      ipc_readmsg env msg cfd w = Some (resp, w') /\
      trace w' = trace w0 ++ t /\
      filter is_send t = [E_send cfd resp] in
  (forall msg,
     launch_data_get_type msg <> LAUNCH_DATA_DICTIONARY ->
     launch_data_get_type msg <> LAUNCH_DATA_STRING ->
     answered msg (LD_ERRNO EINVAL) w) /\
  (forall cmd,
     verb_of_cmd cmd = None -> answered (LD_STRING cmd) (LD_ERRNO ENOSYS) w) /\
  (forall kv,
     Forall (fun e => verb_of_cmd (fst e) = None) kv ->
     answered (LD_DICTIONARY kv) (LD_ERRNO ENOSYS) w) /\
  (forall cmd v,
     verb_of_cmd cmd = Some v ->
     match handler env v None cfd w with
     | Some (r, w1) =>
         conn_find (connections w1) cfd <> None ->
         answered (LD_STRING cmd) (fst r) w1
     | None => ipc_readmsg env (LD_STRING cmd) cfd w = None
     end) /\
  (forall pre cmd a post v,
     Forall (fun e => verb_of_cmd (fst e) = None) pre ->
     verb_of_cmd cmd = Some v ->
     match handler env v (Some a) cfd w with
     | Some (r, w1) =>
         conn_find (connections w1) cfd <> None ->
         answered (LD_DICTIONARY (pre ++ (cmd, a) :: post)) (fst r) w1
     | None =>
         ipc_readmsg env (LD_DICTIONARY (pre ++ (cmd, a) :: post)) cfd w
         = None
     end) /\
  (forall v data,
     answers_always v = true ->
     (exists cmd, verb_of_cmd cmd = Some v) /\
     exists r w1, handler env v data cfd w = Some ((r, data), w1)) /\
  (forall s,
     NoDup (map jid (heap w)) -> queue_allocated w -> label_in w s = true ->
     verb_of_cmd LAUNCH_KEY_REMOVEJOB = Some V_REMOVEJOB /\
     handler env V_REMOVEJOB (Some (LD_STRING s)) cfd w = None /\
     ipc_readmsg env (LD_DICTIONARY [(LAUNCH_KEY_REMOVEJOB, LD_STRING s)])
       cfd w = None).
Proof.
  intros Hc answered.
  destruct (ipc_readmsg_resp_dispatch env cfd w)
    as (D1 & D2 & D3 & D4 & D5 & _ & D7).
  assert (Hans : forall msg resp m w1,
            ipc_readmsg_resp env msg cfd w = Some ((resp, m), w1) ->
            conn_find (connections w1) cfd <> None ->
            answered msg resp w1).
  { intros msg resp m w1 E Hc1.
    destruct (conn_find (connections w1) cfd) as [c1|] eqn:Ec1;
      [|contradiction].
    destruct (D7 msg resp m w1 c1 E Ec1) as (w2 & t & H).
    exists w2, t. exact H. }
  assert (Hnone : forall msg,
            ipc_readmsg_resp env msg cfd w = None ->
            ipc_readmsg env msg cfd w = None).
  { intros msg E. unfold ipc_readmsg, bind. now rewrite E. }
  assert (Hopen : conn_find (connections w) cfd <> None) by congruence.
  repeat apply conj.
  - intros msg Hd Hs. exact (Hans _ _ _ _ (D1 msg Hd Hs) Hopen).
  - intros cmd Hv. exact (Hans _ _ _ _ (D2 cmd Hv) Hopen).
  - intros kv Hkv. exact (Hans _ _ _ _ (D3 kv Hkv) Hopen).
  - intros cmd v Hv. specialize (D4 cmd v Hv). unfold bind in D4.
    destruct (handler env v None cfd w) as [[r w1]|].
    + intro Hc1. exact (Hans _ _ _ _ D4 Hc1).
    + exact (Hnone _ D4).
  - intros pre cmd a post v Hpre Hv.
    specialize (D5 pre cmd a post v Hpre Hv). unfold bind in D5.
    destruct (handler env v (Some a) cfd w) as [[r w1]|].
    + intro Hc1. exact (Hans _ _ _ _ D5 Hc1).
    + exact (Hnone _ D5).
  - intros v data Hv. split.
    + apply verb_has_command.
    + now apply handler_answers_always.
  - intros s Hh Hq Hl.
    assert (Hr : handler env V_REMOVEJOB (Some (LD_STRING s)) cfd w = None).
    { cbn [handler]. unfold bind at 1, get_world. unfold bind at 1.
      now rewrite (for_jobs_labelled_remove env s w (jobs w) None Hh Hq Hl). }
    split; [reflexivity|]. split; [exact Hr|].
    apply Hnone.
    pose proof (D5 [] LAUNCH_KEY_REMOVEJOB (LD_STRING s) [] V_REMOVEJOB
                  (Forall_nil _) eq_refl) as E.
    cbn [app] in E. rewrite E. unfold bind. now rewrite Hr.
Qed.

Lemma ipc_readmsg_response_witness :
  conn_find (connections example_world) 20 <> None /\
  label_in example_world "com.example.daemon" = true /\
  ipc_readmsg example_env
    (LD_DICTIONARY [("RemoveJob", LD_STRING "com.example.daemon")]) 20
    example_world = None /\
  exists w',
    ipc_readmsg example_env (LD_STRING "NoSuchVerb") 20 example_world
    = Some (LD_ERRNO ENOSYS, w') /\
    filter is_send (trace w') = [E_send 20 (LD_ERRNO ENOSYS)].
Proof.
  destruct (ipc_readmsg_response example_env 20
              {| conn := 20; cj := Some 0%nat; disabled_batch := false |}
              example_world eq_refl)
    as (_ & H2 & _ & _ & _ & _ & H7).
  split; [discriminate|]. split; [reflexivity|]. split.
  - apply (H7 "com.example.daemon").
    + simpl. constructor; [intros []|constructor].
    + constructor; [discriminate|constructor].
    + reflexivity.
  - destruct (H2 "NoSuchVerb" eq_refl) as (w' & t & E & T & F).
    exists w'. split; [exact E|]. rewrite T. exact F.
Defined.


(** *** A successful load (launchd.c:1127-1223). *)







(** *** What job_start leaves behind (launchd.c:1492-1574). *)












(** *** Starting and reaping (launchd.c:1311-1372, 1492-1574). *)






(** *** The report of a failed exec (launchd.c:1462-1489). *)






(** *** The restart after an exit (launchd.c:790-830, 1374-1424). *)




















(** *** A calendar minute that no time matches (launchd.c:1177-1200). *)

Lemma never_bind j lbl d {A B : Type} (c : M A) (k : A -> M B) :
  runs j lbl d same_jobs c -> (forall a, never j lbl d (k a)) ->
  never j lbl d (bind c k).
Proof.
  intros Hc Hk w Hw. destruct (Hc w Hw) as (a & w1 & E & S).
  unfold bind. rewrite E. apply Hk. exact (same_jobs_job_is _ _ _ _ _ S Hw).
Qed.

Lemma never_first j lbl d {A B : Type} (c : M A) (k : A -> M B) :
  never j lbl d c -> never j lbl d (bind c k).
Proof. intros Hc w Hw. unfold bind. now rewrite (Hc w Hw). Qed.

Lemma never_get_job_bind j lbl d {B : Type} (k : jobcb -> M B) :
  (forall x, ldj x = d -> never j lbl d (k x)) ->
  never j lbl d (bind (get_job j) k).
Proof.
  intros Hk w Hw. pose proof Hw as (x & Hx & Hl & Hd).
  unfold bind, get_job. rewrite Hx. now apply Hk.
Qed.

Lemma never_set_alarm env j lbl d sci :
  tm_min sci < -1 ->
  never j lbl d
    (update_job j (fun y => set_start_cal_interval y (Some sci)) ;;
     job_set_alarm env j).
Proof.
  intros Hm w (x & Hx & _).
  unfold bind at 1, update_job, bind, get_job, modify. rewrite Hx.
  unfold job_set_alarm, bind, get_job. world_simpl.
  rewrite (heap_find_put_same (heap w) j x _ Hx)
    by (job_simpl; eapply heap_find_jid; eassumption).
  job_simpl. now rewrite cronemu_never.
Qed.

(** X26: a job whose StartCalendarInterval names a minute below -1 is
    never loaded.  With a new label and a Program or ProgramArguments,
    load_job allocates the job and puts it on the queue, and then does
    not return: the search for the first alarm never ends, with however
    many rounds. *)
Theorem load_job_calendar_minute_never_matches env pload w lbl cal :
  registry_ok w ->
  job_get_string pload LAUNCH_JOBKEY_LABEL = Some lbl ->
  label_in w lbl = false ->
  is_some (launch_data_dict_lookup pload LAUNCH_JOBKEY_PROGRAM)
  || is_some (launch_data_dict_lookup pload LAUNCH_JOBKEY_PROGRAMARGUMENTS)
    = true ->
  launch_data_dict_lookup pload LAUNCH_JOBKEY_STARTCALENDARINTERVAL
    = Some cal ->
  tm_min (cal_interval_of cal) < -1 ->
  load_job env pload w = None /\
  forall n,
    cronemu n (tm_mon (cal_interval_of cal)) (tm_mday (cal_interval_of cal))
      (tm_hour (cal_interval_of cal)) (tm_min (cal_interval_of cal))
      (time_now env) = None.
Proof.
  intros Hok Hlbl Hnew Hprog Hcal Hmin.
  split; [|intro n; now apply cronemu_never].
  pose proof Hok as (Hn & Hq & Hf).
  set (d := if is_some (launch_data_dict_lookup pload LAUNCH_JOBKEY_ONDEMAND)
            then pload
            else launch_data_dict_insert pload (launch_data_new_bool true)
                   LAUNCH_JOBKEY_ONDEMAND).
  set (j := next_jid w).
  set (x0 := new_jobcb j lbl (launch_data_copy pload)).
  set (wa := with_next_jid (with_heap w (heap w ++ [x0])) (S (next_jid w))).
  assert (Hxa : heap_find (heap wa) j = Some x0).
  { exact (heap_find_app_new (heap w) x0 Hf). }
  set (wb := if negb (is_some (launch_data_dict_lookup pload
                                 LAUNCH_JOBKEY_ONDEMAND))
             then with_heap wa (heap_put (heap wa) (set_ldj x0 d))
             else wa).
  assert (Hwb : when (negb (is_some (launch_data_dict_lookup (ldj x0)
                                       LAUNCH_JOBKEY_ONDEMAND)))
                  (update_job j (fun y =>
                     set_ldj y (launch_data_dict_insert (ldj y)
                                  (launch_data_new_bool true)
                                  LAUNCH_JOBKEY_ONDEMAND))) wa
                = Some (tt, wb)).
  { unfold wb, d. cbn [ldj x0 new_jobcb]. unfold launch_data_copy.
    destruct (is_some (launch_data_dict_lookup pload LAUNCH_JOBKEY_ONDEMAND));
      cbn [negb when]; [reflexivity|].
    unfold update_job, bind, get_job. rewrite Hxa. reflexivity. }
  assert (Hjb : job_is j lbl d wb).
  { unfold wb, d.
    destruct (is_some (launch_data_dict_lookup pload LAUNCH_JOBKEY_ONDEMAND));
      cbn [negb].
    - exists x0. repeat split. exact Hxa.
    - exists (set_ldj x0 (launch_data_dict_insert pload
                            (launch_data_new_bool true)
                            LAUNCH_JOBKEY_ONDEMAND)).
      repeat split. world_simpl.
      eapply heap_find_put_same; [exact Hxa|reflexivity]. }
  set (wc := with_jobs wb (jobs wb ++ [j])).
  assert (Hjc : job_is j lbl d wc) by exact Hjb.
  assert (Hdcal : launch_data_dict_lookup d
                    LAUNCH_JOBKEY_STARTCALENDARINTERVAL = Some cal).
  { unfold d.
    destruct (is_some (launch_data_dict_lookup pload LAUNCH_JOBKEY_ONDEMAND));
      [exact Hcal|].
    destruct pload; try discriminate. simpl in *.
    rewrite assoc_lookup_insert_other; [exact Hcal|discriminate]. }
  unfold load_job. rewrite Hlbl.
  unfold bind at 1, get_world. unfold bind at 1.
  rewrite (label_loaded_spec w (jobs w) lbl Hq).
  change (existsb _ (jobs w)) with (label_in w lbl). rewrite Hnew.
  apply Bool.orb_true_iff in Hprog.
  assert (Hp : negb (is_some (launch_data_dict_lookup pload
                                LAUNCH_JOBKEY_PROGRAM))
               && negb (is_some (launch_data_dict_lookup pload
                                   LAUNCH_JOBKEY_PROGRAMARGUMENTS))
               = false).
  { destruct Hprog as [-> | ->]; [reflexivity|].
    apply Bool.andb_false_r. }
  rewrite Hp. cbv zeta.
  unfold bind at 1, modify at 1.
  change (with_next_jid
            (with_heap w (heap w ++ [new_jobcb (next_jid w) lbl
                                       (launch_data_copy pload)]))
            (S (next_jid w))) with wa.
  change (next_jid w) with j.
  unfold bind at 1, get_job at 1. rewrite Hxa.
  unfold bind at 1. rewrite Hwb.
  unfold bind at 1, modify at 1. fold wc.
  match goal with
  | |- ?t wc = None => enough (Ht : never j lbl d t) by exact (Ht wc Hjc)
  end.
  apply never_get_job_bind. intros x Hd. rewrite Hd, Hdcal.
  apply never_bind; [r_go|intros _].
  apply never_bind; [r_go|intros _].
  apply never_bind; [r_go|intros _].
  apply never_first. now apply never_set_alarm.
Qed.

Lemma load_job_calendar_minute_never_matches_witness :
  let hourly :=
    LD_DICTIONARY
      [("Label", LD_STRING "com.example.hourly");
       ("Program", LD_STRING "/usr/libexec/hourly");
       ("StartCalendarInterval",
        LD_DICTIONARY [("Minute", LD_INTEGER (-30))])] in
  load_job example_env hourly example_world = None.
Proof.
  intro hourly.
  assert (Hok : registry_ok example_world).
  { repeat split.
    - constructor; [intros []|constructor].
    - constructor; [discriminate|constructor].
    - constructor; [simpl; lia|constructor]. }
  apply (load_job_calendar_minute_never_matches example_env hourly
           example_world "com.example.hourly"
           (LD_DICTIONARY [("Minute", LD_INTEGER (-30))]) Hok
           eq_refl eq_refl eq_refl eq_refl).
  vm_compute. reflexivity.
Defined.


(** *** StopJob (launchd.c:947-955). *)

Lemma writes_stop_labelled w0 s l : forall resp,
  Forall (fun k => heap_find (heap w0) k <> None) l ->
  writes w0 (for_jobs_labelled l (Some (LD_STRING s)) job_stop resp)
    (if existsb (fun k => match heap_find (heap w0) k with
                          | Some y => String.eqb (label y) s
                          | None => false
                          end) l
     then Some (launch_data_new_errno 0) else resp)
    (kills_of (heap w0) (labelled (heap w0) s l)).
Proof.
  induction l as [|k t IH]; intros resp Hl; [apply writes_ret|].
  inversion Hl as [|? ? Hk Ht]; subst.
  cbn [for_jobs_labelled existsb labelled filter].
  destruct (heap_find (heap w0) k) as [y|] eqn:Ey; [|contradiction].
  eapply writes_get_job_bind; [exact Ey|].
  specialize (IH (Some (launch_data_new_errno 0)) Ht) as IH1.
  specialize (IH resp Ht) as IH2.
  change (string_arg (Some (LD_STRING s))) with (bind (ret (LD_STRING s))
    (fun d => match launch_data_get_string d with
              | Some s' => ret s'
              | None => fault
              end)).
  intros w Hw. unfold bind at 1 2. cbn [ret launch_data_get_string].
  revert w Hw.
  change (writes w0
            (resp' <- (if String.eqb (label y) s
                       then job_stop k ;; ret (Some (launch_data_new_errno 0))
                       else ret resp) ;;
             _ <- get_job k ;;
             for_jobs_labelled t (Some (LD_STRING s)) job_stop resp')
            (if String.eqb (label y) s
                || existsb (fun k => match heap_find (heap w0) k with
                                     | Some y => String.eqb (label y) s
                                     | None => false
                                     end) t
             then Some (launch_data_new_errno 0) else resp)
            (kills_of (heap w0)
               (if String.eqb (label y) s
                then k :: labelled (heap w0) s t
                else labelled (heap w0) s t))).
  destruct (String.eqb (label y) s) eqn:El.
  - cbn [orb kills_of flat_map]. rewrite Ey.
    fold (kills_of (heap w0) (labelled (heap w0) s t)).
    assert (Hs : writes w0 (job_stop k) tt
                   (if p y =? 0 then [] else [E_kill (p y) SIGTERM])).
    { unfold job_stop. eapply writes_get_job_bind; [exact Ey|].
      destruct (p y =? 0); simpl; [apply writes_ret|apply writes_emit]. }
    eapply writes_bind.
    + rewrite <- (app_nil_r (if p y =? 0 then [] else _)).
      eapply writes_bind; [exact Hs|apply writes_ret].
    + eapply writes_get_job_bind; [exact Ey|].
      now destruct (existsb _ t).
  - cbn [orb]. rewrite <- (app_nil_l (kills_of _ _)).
    eapply writes_bind; [apply writes_ret|].
    eapply writes_get_job_bind; [exact Ey|]. exact IH2.
Qed.

(** X28: StopJob sends SIGTERM to the process of each job on the queue
    that carries the label and has one, in queue order, and does nothing
    else: the jobs stay loaded and keep their state.  It answers 0 when
    some job carries the label, whether or not it had a process, and
    ESRCH when none does. *)
Theorem stopjob_signals_labelled env w s cfd :
  queue_allocated w ->
  handler env V_STOPJOB (Some (LD_STRING s)) cfd w
  = Some ((launch_data_new_errno (if label_in w s then 0 else ESRCH),
           Some (LD_STRING s)),
          with_trace w
            (trace w ++ kills_of (heap w) (labelled (heap w) s (jobs w)))).
Proof.
  intro Hq. cbn [handler]. unfold bind at 1, get_world. unfold bind at 1.
  rewrite (writes_stop_labelled w s (jobs w) None Hq w (agrees_refl w)).
  unfold ret, errno_or_esrch, label_in.
  now destruct (existsb _ (jobs w)).
Qed.

Lemma stopjob_signals_labelled_witness :
  handler example_env V_STOPJOB (Some (LD_STRING "com.example.daemon")) 20
    example_world
  = Some ((launch_data_new_errno 0, Some (LD_STRING "com.example.daemon")),
          with_trace example_world [E_kill 4242 SIGTERM]).
Proof.
  apply (stopjob_signals_labelled example_env example_world
           "com.example.daemon" 20).
  constructor; [discriminate|constructor].
Defined.


(** *** WorkaroundBonjour (launchd.c:912-927, 976-978). *)

Lemma first_with_label_absent w s l :
  Forall (fun k => heap_find (heap w) k <> None) l ->
  existsb (fun k => match heap_find (heap w) k with
                    | Some y => String.eqb (label y) s
                    | None => false
                    end) l = false ->
  first_with_label l s w = Some (None, w).
Proof.
  induction 1 as [|k t Hk _ IH]; simpl; [reflexivity|].
  unfold bind, get_job.
  destruct (heap_find (heap w) k) as [y|]; [|contradiction].
  intro E. apply Bool.orb_false_iff in E. destruct E as [E1 E2].
  rewrite E1. now apply IH.
Qed.

Lemma first_with_label_unique w s j x l :
  NoDup (map (label_of w) l) ->
  Forall (fun k => heap_find (heap w) k <> None) l ->
  In j l -> heap_find (heap w) j = Some x -> label x = s ->
  first_with_label l s w = Some (Some j, w).
Proof.
  intros Hn Ha Hin Hj Hl.
  assert (Lj : label_of w j = Some s) by (unfold label_of; now rewrite Hj, Hl).
  induction l as [|k t IH]; [contradiction|].
  simpl in Hn. inversion Hn as [|? ? Hnot Hn']; subst.
  inversion Ha as [|? ? Hk Ha']; subst.
  cbn [first_with_label]. unfold bind, get_job.
  destruct (heap_find (heap w) k) as [y|] eqn:Ey; [|contradiction].
  destruct (String.eqb_spec (label y) (label x)) as [E|N].
  - destruct Hin as [->|Hin]; [reflexivity|].
    exfalso. apply Hnot.
    replace (label_of w k) with (label_of w j).
    + now apply in_map.
    + unfold label_of at 2. now rewrite Lj, Ey, E.
  - destruct Hin as [->|Hin]; [congruence|]. now apply IH.
Qed.

(** X30: WorkaroundBonjour hands the descriptors over.  For a label that
    one job of a well-formed registry carries, the job gets the value
    under BonjourFDs, as GetJobWithHandles then shows, and the copy in
    the message loses its descriptors, so that freeing the message closes
    none of them.  For a label that no job carries nothing changes and
    the message keeps its descriptors.  The answer is 0 both times. *)
Theorem workaround_bonjour_hands_over env w s o cfd :
  registry_ok w ->
  let data := Some (LD_DICTIONARY [(s, o)]) in
  (label_in w s = false ->
   handler env V_WORKAROUNDBONJOUR data cfd w
   = Some ((launch_data_new_errno 0, data), w)) /\
  (forall j x,
     In j (jobs w) -> heap_find (heap w) j = Some x -> label x = s ->
     exists w',
       handler env V_WORKAROUNDBONJOUR data cfd w
       = Some ((launch_data_new_errno 0,
                Some (LD_DICTIONARY [(s, launch_data_revoke_fds o)])), w') /\
       live_fds (launch_data_revoke_fds o) = [] /\
       get_jobs (Some s) w'
       = Some (launch_data_dict_insert (ldj x) o LAUNCH_JOBKEY_BONJOURFDS,
               w') /\
       jobs w' = jobs w /\ registry_ok w').
Proof.
  intros Hok data. pose proof Hok as (Hn & Hq & Hf). split.
  - intro Hno. cbn [handler data arg bind ret attach_bonjourfds_all].
    unfold bind at 1, ret at 1. unfold bind at 1.
    unfold attach_bonjourfds_to_job. unfold bind at 1, get_world.
    unfold bind at 1.
    rewrite (first_with_label_absent w s (jobs w) Hq Hno).
    reflexivity.
  - intros j x Hin Hj Hl.
    set (x' := set_ldj x (launch_data_dict_insert (ldj x)
                            (launch_data_copy o) LAUNCH_JOBKEY_BONJOURFDS)).
    set (w' := with_heap w (heap_put (heap w) x')).
    assert (Hjid : jid x = j) by (eapply heap_find_jid; eassumption).
    assert (Hs : same_registry w w').
    { unfold w'. repeat split; world_simpl.
      - apply heap_put_jids.
      - apply (heap_put_labels (heap w) x x'); [|reflexivity].
        unfold x'. job_simpl. now rewrite Hjid. }
    pose proof (registry_ok_same w w' Hok Hs) as Hok'.
    exists w'. split; [|split; [apply live_fds_revoke|split; [|split]]].
    + cbn [handler data arg bind ret attach_bonjourfds_all].
      unfold bind at 1, ret at 1. unfold bind at 1.
      unfold attach_bonjourfds_to_job. unfold bind at 1, get_world.
      unfold bind at 1.
      rewrite (first_with_label_unique w s j x (jobs w) Hn Hq Hin Hj Hl).
      unfold bind at 1, update_job, bind, get_job. rewrite Hj.
      reflexivity.
    + destruct Hok' as (Hn' & Hq' & _).
      rewrite (get_jobs_some_spec w' s Hq').
      rewrite (last_labelled_unique (heap w') (jobs w') s None j x' Hn').
      * reflexivity.
      * exact Hin.
      * unfold w'. world_simpl.
        eapply heap_find_put_same; [exact Hj|]. unfold x'. job_simpl.
        exact Hjid.
      * unfold x'. job_simpl. exact Hl.
    + reflexivity.
    + exact Hok'.
Qed.

Lemma workaround_bonjour_hands_over_witness :
  let o := LD_ARRAY [LD_FD 30; LD_FD 31] in
  exists w',
    handler example_env V_WORKAROUNDBONJOUR
      (Some (LD_DICTIONARY [("com.example.daemon", o)])) 20 example_world
    = Some ((launch_data_new_errno 0,
             Some (LD_DICTIONARY
                     [("com.example.daemon",
                       LD_ARRAY [LD_FD (-1); LD_FD (-1)])])), w') /\
    get_jobs (Some "com.example.daemon") w'
    = Some (launch_data_dict_insert example_description o
              LAUNCH_JOBKEY_BONJOURFDS, w').
Proof.
  intro o.
  assert (Hok : registry_ok example_world).
  { repeat split.
    - constructor; [intros []|constructor].
    - constructor; [discriminate|constructor].
    - constructor; [simpl; lia|constructor]. }
  destruct (workaround_bonjour_hands_over example_env example_world
              "com.example.daemon" o 20 Hok) as [_ H].
  destruct (H 0%nat example_job (or_introl eq_refl) eq_refl eq_refl)
    as (w' & E & _ & G & _).
  exists w'. split; [exact E|exact G].
Defined.

End Supervisor.

(* ===================================================================== *)
(** ** launchctl: which files become jobs                                *)
(* ===================================================================== *)

Section Ingestion.
Import Launchctl.

Lemma dict_lookup_insert_other d v key key' :
  key' <> key ->
  launch_data_dict_lookup (launch_data_dict_insert d v key) key'
  = launch_data_dict_lookup d key'.
Proof.
  intro N. destruct d; try reflexivity. simpl.
  now apply assoc_lookup_insert_other.
Qed.

Lemma same_but_session_refl d : same_but_session d d.
Proof. intros key _ _. reflexivity. Qed.

Lemma same_but_session_insert plist job v key :
  same_but_session plist job ->
  key = LAUNCH_JOBKEY_LIMITLOADTOSESSIONTYPE \/
  key = LAUNCH_JOBKEY_SECURITYSESSIONUUID ->
  same_but_session plist (launch_data_dict_insert job v key).
Proof.
  intros H Hk key' N1 N2. rewrite dict_lookup_insert_other.
  - now apply H.
  - destruct Hk; congruence.
Qed.

Lemma same_but_session_complete plist job :
  same_but_session plist job -> complete_job plist -> complete_job job.
Proof.
  intros H (Hl & Hp). split.
  - rewrite (H LAUNCH_JOBKEY_LABEL); [exact Hl|discriminate|discriminate].
  - destruct Hp as [Hp|Hp]; [left|right].
    + rewrite (H LAUNCH_JOBKEY_PROGRAM); [exact Hp|discriminate|discriminate].
    + rewrite (H LAUNCH_JOBKEY_PROGRAMARGUMENTS);
        [exact Hp|discriminate|discriminate].
Qed.

Lemma readfile_route_cases job lus :
  readfile_route job lus
    = {| pass1 := pass1 lus ++ [job]; pass2 := pass2 lus |} \/
  readfile_route job lus
    = {| pass1 := pass1 lus; pass2 := pass2 lus ++ [job] |}.
Proof. unfold readfile_route. destruct (delay_to_second_pass job); auto. Qed.

Lemma readfile_spec h what fl lus fl' lus' :
  readfile h what fl lus = Some (fl', lus') ->
  readfile_result h what fl lus fl' lus'.
Proof.
  unfold readfile, readfile_result.
  destruct (read_plist_file h what (editondisk fl) (load fl))
    as [plist|] eqn:Er;
    [|intro H; inversion H; subst; repeat split; now left].
  destruct (launch_data_dict_lookup plist LAUNCH_JOBKEY_LABEL)
    as [lbl|] eqn:El;
    [|intro H; inversion H; subst; repeat split; now left].
  assert (Hc : launch_data_dict_lookup plist LAUNCH_JOBKEY_PROGRAM <> None \/
               launch_data_dict_lookup plist LAUNCH_JOBKEY_PROGRAMARGUMENTS
               <> None ->
               complete_job plist).
  { intro Hp. split; [congruence|exact Hp]. }
  set (fl1 := match session_type fl with
              | None =>
                  if String.eqb match vproc_mgr_name h with
                                | Some m => m
                                | None => "Bogus"
                                end "Aqua"
                  then set_session_type fl (Some "Aqua") else fl
              | Some _ => fl
              end).
  assert (Hfl : editondisk fl1 = editondisk fl /\ load fl1 = load fl /\
                forceload fl1 = forceload fl).
  { unfold fl1. destruct (session_type fl); [repeat split|].
    destruct (String.eqb _ "Aqua"); repeat split. }
  destruct Hfl as (Hf1 & Hf2 & Hf3).
  assert (Tail : launch_data_dict_lookup plist LAUNCH_JOBKEY_PROGRAM <> None \/
                 launch_data_dict_lookup plist LAUNCH_JOBKEY_PROGRAMARGUMENTS
                 <> None ->
          forall c : option (load_unload_flags * load_unload_state),
          (c = Some (fl', lus') ->
           (fl' = fl /\ lus' = lus) \/ (fl' = fl1 /\ lus' = lus) \/
           exists job, same_but_session plist job /\ fl' = fl1 /\
                       lus' = readfile_route job lus) ->
          c = Some (fl', lus') ->
          editondisk fl' = editondisk fl /\ load fl' = load fl /\
          forceload fl' = forceload fl /\
          (lus' = lus \/
           exists plist0 job,
             Some plist = Some plist0 /\
             complete_job plist0 /\ same_but_session plist0 job /\
             complete_job job /\
             (lus' = {| pass1 := pass1 lus ++ [job]; pass2 := pass2 lus |} \/
              lus' = {| pass1 := pass1 lus; pass2 := pass2 lus ++ [job] |}))).
  { intros Hp c Hcase E.
    destruct (Hcase E) as [(-> & ->)|[(-> & ->)|(job & Hs & -> & ->)]].
    - repeat split. now left.
    - repeat split; auto.
    - repeat split; auto. right. exists plist, job.
      split; [reflexivity|]. split; [now apply Hc|]. split; [exact Hs|].
      split; [apply (same_but_session_complete plist job Hs); now apply Hc|].
      apply readfile_route_cases. }
  destruct (launch_data_dict_lookup plist LAUNCH_JOBKEY_PROGRAM)
    as [prog|] eqn:Ep;
    [|destruct (launch_data_dict_lookup plist LAUNCH_JOBKEY_PROGRAMARGUMENTS)
        as [pa|] eqn:Ea;
      [|intro H; inversion H; subst; repeat split; now left]].
  all: (apply Tail; [first [left; congruence|right; congruence]|]).
  all: intro E.
  all: repeat match type of E with
         | match ?x with _ => _ end = _ =>
             let Ex := fresh "Ex" in destruct x eqn:Ex; try discriminate
         | (if ?b then _ else _) = _ =>
             let Eb := fresh "Eb" in destruct b eqn:Eb
         end.
  all: try (left; inversion E; subst; split; reflexivity).
  all: try (right; left; inversion E; subst; split; reflexivity).
  all: right; right.
  all: match type of Ex7 with
       | match launch_data_dict_lookup ?t _ with _ => _ end = _ =>
           set (tj := t) in *;
           assert (Hs : same_but_session plist tj)
             by (unfold tj; destruct (session_type fl1);
                 [destruct (launch_data_dict_lookup plist
                              LAUNCH_JOBKEY_LIMITLOADTOSESSIONTYPE);
                  [apply same_but_session_refl
                  |apply same_but_session_insert;
                   [apply same_but_session_refl|now left]]
                 |apply same_but_session_refl])
       end.
  all: assert (Hl : same_but_session plist l)
         by (clear E;
             repeat match type of Ex7 with
                    | match ?x with _ => _ end = _ =>
                        destruct x; try discriminate
                    end;
             inversion Ex7; subst;
             first [exact Hs
                   |apply same_but_session_insert; [exact Hs|now left]]).
  all: inversion E; subst; eexists; split; [|split; reflexivity].
  all: match goal with
       | |- same_but_session _ (if ?b then _ else _) =>
           destruct b;
           [apply same_but_session_insert; [exact Hl|now right]|exact Hl]
       end.
Qed.


(** X17: when readfile returns, it has left the two arrays as they were
    or has appended one job to exactly one of them.  The job comes from
    the file, has a Label and a Program or ProgramArguments, and differs
    from the file's property list at most under the keys
    LimitLoadToSessionType and SecuritySessionUUID.  The flags editondisk,
    load and forceload are never changed. *)
Theorem readfile_appends_one_complete_job h what fl lus fl' lus' :
  readfile h what fl lus = Some (fl', lus') ->
  editondisk fl' = editondisk fl /\ load fl' = load fl /\
  forceload fl' = forceload fl /\
  (lus' = lus \/
   exists plist job,
     read_plist_file h what (editondisk fl) (load fl) = Some plist /\
     complete_job plist /\ same_but_session plist job /\
     complete_job job /\
     (lus' = {| pass1 := pass1 lus ++ [job]; pass2 := pass2 lus |} \/
      lus' = {| pass1 := pass1 lus; pass2 := pass2 lus ++ [job] |})).
Proof. exact (readfile_spec h what fl lus fl' lus'). Qed.

Lemma readfile_appends_one_complete_job_witness :
  let fl := {| editondisk := false; load := true; forceload := false;
               session_type := None |} in
  let lus := {| pass1 := []; pass2 := [] |} in
  readfile example_host "/Library/LaunchDaemons/com.example.web.plist" fl lus
    = Some (set_session_type fl (Some "Aqua"),
            {| pass1 := []; pass2 := [example_web_job] |}) /\
  complete_job example_web_job.
Proof.
  intros fl lus.
  assert (E : readfile example_host
                "/Library/LaunchDaemons/com.example.web.plist" fl lus
              = Some (set_session_type fl (Some "Aqua"),
                      {| pass1 := []; pass2 := [example_web_job] |}))
    by reflexivity.
  split; [exact E|].
  destruct (readfile_appends_one_complete_job _ _ _ _ _ _ E)
    as (_ & _ & _ & [F|(plist & job & _ & _ & _ & Hc & [F|F])]);
    try discriminate F.
  inversion F. subst job. exact Hc.
Defined.

(** X18: a job with Label and Program or ProgramArguments and without
    LimitLoad keys, read when no session type is asked for and the manager
    is not Aqua, is appended to one of the arrays unless its Disabled key
    says disabled and launchctl is loading without force; then the arrays
    stay as they were.  Unloading, and loading with force, pay no
    attention to Disabled. *)
Theorem readfile_disabled_unless_forced h what fl lus plist :
  read_plist_file h what (editondisk fl) (load fl) = Some plist ->
  complete_job plist ->
  launch_data_dict_lookup plist LAUNCH_JOBKEY_LIMITLOADFROMHOSTS = None ->
  launch_data_dict_lookup plist LAUNCH_JOBKEY_LIMITLOADTOHOSTS = None ->
  launch_data_dict_lookup plist LAUNCH_JOBKEY_LIMITLOADTOHARDWARE = None ->
  launch_data_dict_lookup plist LAUNCH_JOBKEY_LIMITLOADFROMHARDWARE = None ->
  launch_data_dict_lookup plist LAUNCH_JOBKEY_LIMITLOADTOSESSIONTYPE = None ->
  session_type fl = None ->
  vproc_mgr_name h <> Some "Aqua" ->
  let disabled :=
    match launch_data_dict_lookup plist LAUNCH_JOBKEY_DISABLED with
    | Some tmpd => job_disabled_logic h tmpd
    | None => false
    end in
  let job :=
    if bootstrapping_system h || bootstrapping_peruser h
    then launch_data_dict_insert plist (LD_OPAQUE (repeat 0 16))
           LAUNCH_JOBKEY_SECURITYSESSIONUUID
    else plist in
  readfile h what fl lus
  = Some (fl, if disabled && load fl && negb (forceload fl) then lus
              else readfile_route job lus).
Proof.
  intros Er (Hl & Hp) H1 H2 H3 H4 H5 Hst Hm disabled job.
  unfold readfile. rewrite Er.
  destruct (launch_data_dict_lookup plist LAUNCH_JOBKEY_LABEL) as [lbl|];
    [|congruence].
  assert (Hmgr : String.eqb match vproc_mgr_name h with
                            | Some m => m
                            | None => "Bogus"
                            end "Aqua" = false).
  { destruct (vproc_mgr_name h) as [m|]; [|reflexivity].
    destruct (String.eqb_spec m "Aqua"); [congruence|reflexivity]. }
  assert (Tail :
    match
      match launch_data_dict_lookup plist
              LAUNCH_JOBKEY_LIMITLOADFROMHOSTS with
      | Some tmpa => host_listed (gethostname h) (array_elements tmpa)
      | None => Some false
      end
    with
    | Some false => Some (fl, if disabled && load fl && negb (forceload fl)
                              then lus else readfile_route job lus)
    | _ => None
    end
    = Some (fl, if disabled && load fl && negb (forceload fl) then lus
                else readfile_route job lus)) by now rewrite H1.
  rewrite H1, H2, H3, H4. cbv zeta. rewrite Hst, Hmgr, Hst, H5.
  fold disabled. fold job.
  assert (E : (if forceload fl then false else disabled) && load fl
              = disabled && load fl && negb (forceload fl))
    by (destruct (forceload fl), disabled, (load fl); reflexivity).
  rewrite E.
  destruct (launch_data_dict_lookup plist LAUNCH_JOBKEY_PROGRAM);
    [|destruct (launch_data_dict_lookup plist
                  LAUNCH_JOBKEY_PROGRAMARGUMENTS);
      [|destruct Hp; congruence]].
  all: now destruct (disabled && load fl && negb (forceload fl)).
Qed.

Lemma readfile_disabled_unless_forced_witness :
  let lus := {| pass1 := []; pass2 := [] |} in
  let off := LD_DICTIONARY
               [("Label", LD_STRING "com.example.off");
                ("Program", LD_STRING "/usr/libexec/off");
                ("Disabled", LD_BOOL true)] in
  readfile quiet_host "off.plist"
    {| editondisk := false; load := true; forceload := false;
       session_type := None |} lus
  = Some ({| editondisk := false; load := true; forceload := false;
             session_type := None |}, lus) /\
  readfile quiet_host "off.plist"
    {| editondisk := false; load := true; forceload := true;
       session_type := None |} lus
  = Some ({| editondisk := false; load := true; forceload := true;
             session_type := None |}, {| pass1 := [off]; pass2 := [] |}).
Proof.
  intros lus off. split.
  - apply (readfile_disabled_unless_forced quiet_host "off.plist"
             {| editondisk := false; load := true; forceload := false;
                session_type := None |} lus off);
      try reflexivity; try discriminate.
    split; [discriminate|left; discriminate].
  - apply (readfile_disabled_unless_forced quiet_host "off.plist"
             {| editondisk := false; load := true; forceload := true;
                session_type := None |} lus off);
      try reflexivity; try discriminate.
    split; [discriminate|left; discriminate].
Defined.

Lemma host_listed_strings host hosts :
  host_listed host (map LD_STRING hosts)
  = Some (existsb (fun s => strcaseeq host s) hosts).
Proof.
  induction hosts as [|s t IH]; [reflexivity|].
  cbn [map host_listed launch_data_get_string existsb].
  destruct (strcaseeq host s); [reflexivity|exact IH].
Qed.

Lemma existsb_strcaseeq host hosts :
  existsb (fun s => strcaseeq host s) hosts = true <->
  exists s, In s hosts /\ lower s = lower host.
Proof.
  rewrite existsb_exists. split; intros (s & Hi & Hs); exists s;
    (split; [exact Hi|]); unfold strcaseeq in *.
  - symmetry. now apply String.eqb_eq.
  - apply String.eqb_eq. now symmetry.
Qed.

(** X19: the host lists.  A job whose LimitLoadFromHosts is an array of
    strings one of which is the host name in some spelling of upper and
    lower case is not queued.  A job without LimitLoadFromHosts whose
    LimitLoadToHosts is an array of strings none of which is the host
    name in any such spelling is not queued either; the empty array is
    one of these. *)
Theorem readfile_host_lists h what fl lus plist hosts :
  read_plist_file h what (editondisk fl) (load fl) = Some plist ->
  (launch_data_dict_lookup plist LAUNCH_JOBKEY_LIMITLOADFROMHOSTS
   = Some (LD_ARRAY (map LD_STRING hosts)) /\
   exists s, In s hosts /\ lower s = lower (gethostname h))
  \/
  (launch_data_dict_lookup plist LAUNCH_JOBKEY_LIMITLOADFROMHOSTS = None /\
   launch_data_dict_lookup plist LAUNCH_JOBKEY_LIMITLOADTOHOSTS
   = Some (LD_ARRAY (map LD_STRING hosts)) /\
   forall s, In s hosts -> lower s <> lower (gethostname h)) ->
  readfile h what fl lus = Some (fl, lus).
Proof.
  intros Er Hcase. unfold readfile. rewrite Er.
  destruct (launch_data_dict_lookup plist LAUNCH_JOBKEY_LABEL);
    [|reflexivity].
  assert (Hgo :
    match
      match launch_data_dict_lookup plist
              LAUNCH_JOBKEY_LIMITLOADFROMHOSTS with
      | Some tmpa => host_listed (gethostname h) (array_elements tmpa)
      | None => Some false
      end
    with
    | Some true => True
    | Some false =>
        match launch_data_dict_lookup plist
                LAUNCH_JOBKEY_LIMITLOADTOHOSTS with
        | Some tmpa => host_listed (gethostname h) (array_elements tmpa)
        | None => Some true
        end = Some false
    | None => False
    end).
  { destruct Hcase as [(-> & Hin)|(-> & -> & Hnot)];
      cbn [array_elements]; rewrite host_listed_strings.
    - apply existsb_strcaseeq in Hin. now rewrite Hin.
    - f_equal. apply Bool.not_true_is_false. intro F.
      apply existsb_strcaseeq in F. destruct F as (s & Hi & Hs).
      exact (Hnot s Hi Hs). }
  destruct (match launch_data_dict_lookup plist
                    LAUNCH_JOBKEY_LIMITLOADFROMHOSTS with
            | Some tmpa => host_listed (gethostname h) (array_elements tmpa)
            | None => Some false
            end) as [[|]|]; [| |contradiction].
  - destruct (launch_data_dict_lookup plist LAUNCH_JOBKEY_PROGRAM);
      [reflexivity|].
    now destruct (launch_data_dict_lookup plist
                    LAUNCH_JOBKEY_PROGRAMARGUMENTS).
  - rewrite Hgo.
    destruct (launch_data_dict_lookup plist LAUNCH_JOBKEY_PROGRAM);
      [reflexivity|].
    now destruct (launch_data_dict_lookup plist
                    LAUNCH_JOBKEY_PROGRAMARGUMENTS).
Qed.

Lemma readfile_host_lists_witness :
  let lus := {| pass1 := []; pass2 := [] |} in
  let fl := {| editondisk := false; load := true; forceload := false;
               session_type := None |} in
  readfile quiet_host "elsewhere.plist" fl lus = Some (fl, lus).
Proof.
  intros lus fl.
  apply (readfile_host_lists quiet_host "elsewhere.plist" fl lus
           (LD_DICTIONARY
              [("Label", LD_STRING "com.example.elsewhere");
               ("Program", LD_STRING "/usr/libexec/elsewhere");
               ("LimitLoadFromHosts",
                LD_ARRAY [LD_STRING "Build.Example.COM"])])
           ["Build.Example.COM"]).
  - reflexivity.
  - left. split; [reflexivity|].
    exists "Build.Example.COM". split; [now left|reflexivity].
Defined.

Lemma queued_app lus added lus' more lus'' :
  queued lus added lus' -> queued lus' more lus'' ->
  queued lus (added ++ more) lus''.
Proof.
  intros H1 H2. induction H2.
  - now rewrite app_nil_r.
  - rewrite app_assoc. apply queued_pass1. now apply IHqueued.
  - rewrite app_assoc. apply queued_pass2. now apply IHqueued.
Qed.

Lemma readfile_queued h what fl lus fl' lus' :
  readfile h what fl lus = Some (fl', lus') ->
  forceload fl' = forceload fl /\
  exists added, queued lus added lus' /\ Forall complete_job added.
Proof.
  intro E. destruct (readfile_spec _ _ _ _ _ _ E)
    as (_ & _ & Hf & [->|(plist & job & _ & _ & _ & Hc & [->| ->])]).
  - split; [exact Hf|]. exists []. split; constructor.
  - split; [exact Hf|]. exists [job]. split.
    + apply (queued_pass1 lus [] lus job). constructor.
    + now constructor.
  - split; [exact Hf|]. exists [job]. split.
    + apply (queued_pass2 lus [] lus job). constructor.
    + now constructor.
Qed.

Lemma readpath_entries_queued h what names : forall fl lus fl' lus',
  readpath_entries h what names fl lus = Some (fl', lus') ->
  exists added, queued lus added lus' /\ Forall complete_job added.
Proof.
  induction names as [|d_name t IH]; intros fl lus fl' lus' E;
    cbn [readpath_entries] in E.
  - inversion E; subst. exists []. split; constructor.
  - cbv zeta in E.
    destruct (match d_name with
              | String "."%char _ => true
              | _ => false
              end); [exact (IH _ _ _ _ E)|].
    destruct (negb (path_goodness_check (stat h) (getuid h) _ (forceload fl)));
      [exact (IH _ _ _ _ E)|].
    destruct (readfile h _ fl lus) as [[fl1 lus1]|] eqn:Er; [|discriminate].
    destruct (readfile_queued _ _ _ _ _ _ Er) as (_ & a1 & Q1 & C1).
    destruct (IH _ _ _ _ E) as (a2 & Q2 & C2).
    exists (a1 ++ a2). split; [exact (queued_app _ _ _ _ _ Q1 Q2)|].
    apply Forall_app. now split.
Qed.

(** X20: when readpath returns, it has only appended to the two arrays,
    what was there keeps its place, and every job it appended has a Label
    and a Program or ProgramArguments.  A path that fails
    path_goodness_check adds nothing. *)
Theorem readpath_appends_complete_jobs h what fl lus fl' lus' :
  readpath h what fl lus = Some (fl', lus') ->
  (exists added, queued lus added lus' /\ Forall complete_job added) /\
  (path_goodness_check (stat h) (getuid h) what (forceload fl) = false ->
   fl' = fl /\ lus' = lus).
Proof.
  unfold readpath. intro E. split.
  - destruct (negb (path_goodness_check (stat h) (getuid h) what
                      (forceload fl)));
      [inversion E; subst; exists []; split; constructor|].
    destruct (stat h what) as [sb|];
      [|inversion E; subst; exists []; split; constructor].
    destruct (S_ISREG (st_mode sb)).
    + now destruct (readfile_queued _ _ _ _ _ _ E).
    + destruct (S_ISDIR (st_mode sb));
        [|inversion E; subst; exists []; split; constructor].
      destruct (readdir h what) as [names|];
        [|inversion E; subst; exists []; split; constructor].
      exact (readpath_entries_queued _ _ _ _ _ _ _ E).
  - intro Hbad. rewrite Hbad in E. cbn [negb] in E. now inversion E.
Qed.

Lemma readpath_appends_complete_jobs_witness :
  let fl := {| editondisk := false; load := true; forceload := false;
               session_type := None |} in
  let lus := {| pass1 := []; pass2 := [] |} in
  exists fl' lus' added,
    readpath example_host "/Library/LaunchDaemons" fl lus = Some (fl', lus') /\
    queued lus added lus' /\ Forall complete_job added /\
    pass2 lus' = [example_web_job].
Proof.
  intros fl lus.
  assert (E : readpath example_host "/Library/LaunchDaemons" fl lus
              = Some (set_session_type fl (Some "Aqua"),
                      {| pass1 := []; pass2 := [example_web_job] |}))
    by reflexivity.
  destruct (readpath_appends_complete_jobs _ _ _ _ _ _ E)
    as ((added & Q & C) & _).
  exists (set_session_type fl (Some "Aqua")),
    {| pass1 := []; pass2 := [example_web_job] |}, added.
  repeat split; assumption.
Defined.

(** X21: the resource limit names.  name2num answers -1 or the number of
    a limit, from 0 to 8; num2name gives back the name of every number
    that name2num answers, and name2num the number of every name that
    num2name answers. *)
Theorem limit_names_round_trip :
  (forall n, name2num n = -1 \/ 0 <= name2num n <= 8) /\
  (forall n, name2num n <> -1 -> num2name (name2num n) = Some n) /\
  (forall k s, num2name k = Some s -> name2num s = k).
Proof.
  split; [|split].
  - intro n. unfold name2num, limlookup.
    repeat match goal with
           | |- context [String.eqb ?a n] =>
               destruct (String.eqb a n); [right; cbv; intuition congruence|]
           end.
    now left.
  - intros n. unfold name2num, limlookup.
    repeat match goal with
           | |- context [String.eqb ?a n] =>
               destruct (String.eqb_spec a n); [subst n; reflexivity|]
           end.
    congruence.
  - intros k s. unfold num2name, limlookup.
    repeat match goal with
           | |- context [?a =? k] =>
               destruct (Z.eqb_spec a k);
               [intro H; inversion H; subst; reflexivity|]
           end.
    discriminate.
Qed.

Lemma limit_names_round_trip_witness :
  name2num "maxfiles" = 8 /\ num2name 8 = Some "maxfiles" /\
  name2num "nice" = -1 /\ num2name 9 = None.
Proof.
  destruct limit_names_round_trip as (_ & H1 & H2).
  assert (E : num2name 8 = Some "maxfiles").
  { apply (H1 "maxfiles"). discriminate. }
  split; [exact (H2 8 "maxfiles" E)|].
  split; [exact E|]. split; reflexivity.
Defined.


Lemma job_disabled_dict_logic_entry h obj key r :
  job_disabled_dict_logic h obj key r
  = r || job_disabled_dict_logic h obj key false.
Proof.
  unfold job_disabled_dict_logic. destruct obj; try (now rewrite Bool.orb_false_r).
  destruct (strcaseeq key LAUNCH_JOBKEY_DISABLED_MACHINETYPE).
  - destruct (sysctl_hw_streq h HW_MACHINE (Some s)) as [[|]|];
      now rewrite ?Bool.orb_true_r, ?Bool.orb_false_r.
  - destruct (strcaseeq key LAUNCH_JOBKEY_DISABLED_MODELNAME);
      [|now rewrite Bool.orb_false_r].
    destruct (sysctl_hw_streq h HW_MODEL (Some s)) as [[|]|];
      now rewrite ?Bool.orb_true_r, ?Bool.orb_false_r.
Qed.

Lemma job_disabled_fold h kv : forall r,
  fold_left (fun r e => job_disabled_dict_logic h (snd e) (fst e) r) kv r
  = r || existsb (fun e => job_disabled_dict_logic h (snd e) (fst e) false)
           kv.
Proof.
  induction kv as [|e t IH]; intro r; cbn [fold_left existsb].
  - now rewrite Bool.orb_false_r.
  - rewrite IH, (job_disabled_dict_logic_entry h (snd e) (fst e) r).
    now rewrite Bool.orb_assoc.
Qed.

Lemma job_disabled_entry_spec h k v :
  job_disabled_dict_logic h v k false = true <->
  exists s, v = LD_STRING s /\
    ((lower k = "machinetype" /\ sysctl_hw h HW_MACHINE = Some s) \/
     (lower k = "modelname" /\ sysctl_hw h HW_MODEL = Some s)).
Proof.
  unfold job_disabled_dict_logic, strcaseeq, sysctl_hw_streq.
  change (lower LAUNCH_JOBKEY_DISABLED_MACHINETYPE) with "machinetype".
  change (lower LAUNCH_JOBKEY_DISABLED_MODELNAME) with "modelname".
  split.
  - destruct v; try discriminate.
    destruct (String.eqb_spec (lower k) "machinetype") as [E1|N1].
    + destruct (sysctl_hw h HW_MACHINE) as [buf|]; [|discriminate].
      destruct (String.eqb_spec buf s) as [->|]; [|discriminate].
      intros _. exists s. split; [reflexivity|]. left. auto.
    + destruct (String.eqb_spec (lower k) "modelname") as [E2|N2];
        [|discriminate].
      destruct (sysctl_hw h HW_MODEL) as [buf|]; [|discriminate].
      destruct (String.eqb_spec buf s) as [->|]; [|discriminate].
      intros _. exists s. split; [reflexivity|]. right. auto.
  - intros (s & -> & [(E & Hs)|(E & Hs)]); rewrite E.
    + rewrite String.eqb_refl, Hs, String.eqb_refl. reflexivity.
    + change ("modelname" =? "machinetype")%string with false. cbv iota.
      rewrite String.eqb_refl, Hs, String.eqb_refl. reflexivity.
Qed.

(** X29: what the Disabled key says.  job_disabled_logic answers true
    for the boolean true, and for a dictionary that holds, under a key
    that reads MachineType in some spelling of upper and lower case, the
    string sysctl gives for hw.machine, or under a key that reads
    ModelName the string it gives for hw.model; for every other value,
    and when sysctl fails, it answers false. *)
Theorem job_disabled_logic_spec h obj :
  job_disabled_logic h obj = true <->
  obj = LD_BOOL true \/
  exists kv k s,
    obj = LD_DICTIONARY kv /\ In (k, LD_STRING s) kv /\
    ((lower k = "machinetype" /\ sysctl_hw h HW_MACHINE = Some s) \/
     (lower k = "modelname" /\ sysctl_hw h HW_MODEL = Some s)).
Proof.
  destruct obj; cbn [job_disabled_logic];
    try (split; [discriminate|];
         intros [F|(kv' & k' & s' & F & _)]; discriminate F).
  - rewrite job_disabled_fold. cbn [orb]. rewrite existsb_exists. split.
    + intros ([k v] & Hin & He). cbn [fst snd] in He.
      apply job_disabled_entry_spec in He. destruct He as (s & -> & Hs).
      right. exists kv, k, s. auto.
    + intros [F|(kv' & k & s & E & Hin & Hs)]; [discriminate|].
      inversion E; subst kv'. exists (k, LD_STRING s).
      split; [exact Hin|]. cbn [fst snd].
      apply job_disabled_entry_spec. exists s. auto.
  - split.
    + intros ->. now left.
    + intros [F|(kv & k & s & F & _)]; [now inversion F|discriminate].
Qed.


Lemma job_disabled_logic_spec_witness :
  let h := {| gethostname := "build.example.com";
              read_plist_file := fun _ _ _ => None;
              vproc_mgr_name := None;
              sysctlnametomib := fun _ => None;
              sysctl_hw := fun slot => if slot =? HW_MACHINE
                                       then Some "x86_64" else None;
              bootstrapping_system := false;
              bootstrapping_peruser := false;
              stat := fun _ => None;
              getuid := 0;
              readdir := fun _ => None |} in
  job_disabled_logic h
    (LD_DICTIONARY [("ModelName", LD_STRING "x86_64");
                    ("machinetype", LD_STRING "x86_64")]) = true.
Proof.
  intro h. apply (job_disabled_logic_spec h). right.
  exists [("ModelName", LD_STRING "x86_64");
          ("machinetype", LD_STRING "x86_64")], "machinetype", "x86_64".
  split; [reflexivity|]. split; [right; left; reflexivity|].
  left. split; reflexivity.
Defined.

End Ingestion.
